(** * Bootstrap of an etcd replica (server/etcdserver/bootstrap.go)

    A shallow embedding of the bootstrap sequence: the backend opener, the
    snapshot recoverer, the WAL bootstrapper, the cluster resolver and the
    raft builder, followed by the properties the specification states
    about them.

    Go functions that touch the outside world (file system, WAL, backend,
    network, logger) become computations in a small state monad whose
    state records the effects performed so far; what the collaborators
    answer is read from an environment record, so that every theorem
    quantifies over all possible answers. *)

From Stdlib Require Import Bool String ZArith NArith List Lia Sorted.
From Equations Require Import Equations.
Import ListNotations.
Local Open Scope string_scope.
Local Open Scope list_scope.

Set Implicit Arguments.

(** ** Basic data *)

(** Go's [uint64]; the bootstrap code only compares and copies such
    values, it never does arithmetic on them. *)
Definition uint64 := N.

(** Go's [[]byte]. *)
Definition bytes := list Byte.byte.

(** A backend handle ([backend.Backend]), identified by an allocation
    number. *)
Definition handle := nat.

Module types.
(** [types.ID] is a [uint64]. *)
Definition ID := uint64.
(** [types.URLsMap]: member name to peer URLs. *)
Definition URLsMap := list (string * list string).
End types.

(** ** Errors *)

Inductive error : Type :=
| External (tag : string)            (* an error value made by a collaborator *)
| ErrNoSnapshot                      (* snap.ErrNoSnapshot *)
| ErrUnexpectedEOF                   (* io.ErrUnexpectedEOF *)
| Errorf (format : string) (args : list fmtArg)
| DiscoveryError (Op : string) (Err : error)
with fmtArg : Type :=
| ArgError (e : error)
| ArgString (s : string)
| ArgUint (n : N)
| ArgStringer.                       (* a value printed through its String method *)

(** [err != snap.ErrNoSnapshot] and [err != io.ErrUnexpectedEOF] compare
    against the sentinel values. *)
Definition is_ErrNoSnapshot (e : error) : bool :=
  match e with ErrNoSnapshot => true | _ => false end.

Definition is_ErrUnexpectedEOF (e : error) : bool :=
  match e with ErrUnexpectedEOF => true | _ => false end.

(** ** raftpb, walpb *)

Module SnapshotMetadata.
Record t := mk { ConfState : list uint64; Index : uint64; Term : uint64 }.
End SnapshotMetadata.

Module Snapshot.
Record t := mk { Data : bytes; Metadata : SnapshotMetadata.t }.
End Snapshot.

Module walpb.
Record Snapshot := mkSnapshot { Index : uint64; Term : uint64 }.
End walpb.

(** The payload of a log entry.  Entries read from the WAL carry raw
    bytes; the entries synthesized on forced recovery carry a marshalled
    configuration change, kept symbolic here. *)
Inductive Payload :=
| Raw (b : bytes)
| ConfChangeAddNode (node : uint64) (ctx : bytes)
| ConfChangeRemoveNode (node : uint64).

Inductive EntryType := EntryNormal | EntryConfChange.

Module Entry.
Record t := mk { Term : uint64; Index : uint64; Type_ : EntryType; Data : Payload }.
End Entry.

Module HardState.
Record t := mk { Term : uint64; Vote : uint64; Commit : uint64 }.
Definition set_Commit (c : uint64) (st : t) : t := mk (Term st) (Vote st) c.
End HardState.

(** [etcdserverpb.Metadata], the record stored at the head of the WAL. *)
Module Metadata.
Record t := mk { NodeID : uint64; ClusterID : uint64 }.
End Metadata.

Record snapshotMetadata := { nodeID : types.ID; clusterID : types.ID }.

(** ** Effects *)

Inductive Level := Debug | Info | Warn | Error.

Inductive Event :=
| Log (lvl : Level) (msg : string)
| BackendOpen (h : handle)
| BackendClose (h : handle)
| RemoveAll (path : string)
| WALOpen (at_ : walpb.Snapshot)
| WALClose
| WALReadAll
| WALRepair
| WALSave (ents : list Entry.t)
| WALCreate (md : Metadata.t)
| WALSetUnsafeNoFsync
| StoreRecovery (data : bytes)
| SetRaftStatus
| Enter (fn : string).               (* the named function of this file was entered *)

(** The state threaded through a bootstrap: the effects so far in the
    order they happened, the backend handles currently open, the next
    fresh handle, and how many times the WAL has been opened. *)
Record World := mkWorld {
  trace : list Event;
  opened : list handle;
  next_handle : handle;
  wal_opens : nat
}.

Definition initial_world : World := mkWorld [] [] 0 0.

(** How a Go call ends: it returns, or the logger's [Fatal] ends the
    process, or a panic unwinds the stack. *)
Inductive Outcome (A : Type) :=
| Ret (a : A)
| Fatal (msg : string)
| Panic (msg : string).
Arguments Fatal {A} msg.
Arguments Panic {A} msg.

Definition M (A : Type) := World -> Outcome A * World.

Definition ret {A} (a : A) : M A := fun w => (Ret a, w).

Definition bind {A B} (m : M A) (k : A -> M B) : M B :=
  fun w => match m w with
           | (Ret a, w') => k a w'
           | (Fatal s, w') => (Fatal s, w')
           | (Panic s, w') => (Panic s, w')
           end.

Notation "x <- m ;; k" := (bind m (fun x => k))
  (at level 61, m at next level, right associativity).
Notation "m ;;; k" := (bind m (fun _ => k))
  (at level 61, right associativity).

Definition emit (e : Event) : M unit :=
  fun w => (Ret tt, mkWorld (trace w ++ [e]) (opened w) (next_handle w) (wal_opens w)).

Definition log (l : Level) (msg : string) : M unit := emit (Log l msg).

(** [cfg.Logger.Fatal] and [cfg.Logger.Panic]. *)
Definition fatal {A} (msg : string) : M A := fun w => (Fatal msg, w).
Definition panic {A} (msg : string) : M A := fun w => (Panic msg, w).

Definition nil_dereference : string := "invalid memory address or nil pointer dereference".

(** ** Configuration and membership *)

Module semver.
Record Version := mk { Major : Z; Minor : Z; Patch : Z; PreRelease : string }.
End semver.

Module membership.
Record Member := mkMember {
  ID : types.ID;
  Name : string;
  PeerURLs : list string;
  IsLearner : bool
}.

(** Modelled from the spec: the [RaftCluster] type is declared in the
    membership package; the spec describes it as a mutable set of
    {memberID -> peer URLs, name} bound, once resolved, to the
    hierarchical store and to the backend, with a cluster ID, the local
    member's ID and the version the cluster declares. *)
Record RaftCluster := mkCluster {
  localID : types.ID;
  cid : types.ID;
  members : list Member;
  version : option semver.Version;
  store_bound : bool;
  backend_bound : option handle
}.

(** Modelled from the spec: [NewCluster] makes a membership with no
    member and nothing bound. *)
Definition NewCluster : RaftCluster := mkCluster 0%N 0%N [] None false None.

Definition SetID (local c : types.ID) (cl : RaftCluster) : RaftCluster :=
  mkCluster local c (members cl) (version cl) (store_bound cl) (backend_bound cl).

Definition SetStore (cl : RaftCluster) : RaftCluster :=
  mkCluster (localID cl) (cid cl) (members cl) (version cl) true (backend_bound cl).

Definition SetBackend (be : handle) (cl : RaftCluster) : RaftCluster :=
  mkCluster (localID cl) (cid cl) (members cl) (version cl) (store_bound cl) (Some be).

(** Modelled from the spec: the known member IDs, the member with a
    given ID and the member with a given name, read off the member
    set. *)
Definition MemberIDs (cl : RaftCluster) : list types.ID := map ID (members cl).

Definition Member_ (cl : RaftCluster) (id : types.ID) : option Member :=
  find (fun m => N.eqb (ID m) id) (members cl).

Definition MemberByName (cl : RaftCluster) (name : string) : option Member :=
  find (fun m => String.eqb (Name m) name) (members cl).
End membership.

Record ServerConfig := {
  Name : string;
  DataDir : string;
  MaxRequestBytes : N;
  NewCluster : bool;
  ForceNewCluster : bool;
  ExperimentalBootstrapDefragThresholdMegabytes : N;
  UnsafeNoFsync : bool;
  InitialClusterToken : string;
  InitialPeerURLsMap : types.URLsMap;
  DiscoveryURL : string;
  DiscoveryProxy : string;
  TickMs : N;
  ElectionTicks : Z;
  PreVote : bool
}.

(** ** What the collaborators answer *)

(** The result of [w.ReadAll()]: metadata, hard state and entries, or an
    error. *)
Inductive ReadAllResult :=
| ReadOK (wmetadata : bytes) (st : HardState.t) (ents : list Entry.t)
| ReadErr (e : error).

(** [serverstorage.RecoverSnapshotBackend] keeps the handle it was given,
    swaps it for a freshly recovered one, or fails. *)
Inductive RecoverBackendResult :=
| KeepBackend
| SwapBackend
| RecoverBackendErr (e : error).

Record Env := {
  (* constants of the package declared in other files *)
  recommendedMaxRequestBytes : N;
  maxSizePerMsg : N;
  maxInflightMsgs : Z;
  (* methods of config.ServerConfig *)
  MemberDir : ServerConfig -> string;
  WALDir : ServerConfig -> string;
  SnapDir : ServerConfig -> string;
  BackendPath : ServerConfig -> string;
  ShouldDiscover : ServerConfig -> bool;
  VerifyJoinExisting : ServerConfig -> option error;
  VerifyBootstrap : ServerConfig -> option error;
  (* fileutil *)
  TouchDirAll : string -> option error;
  RemoveMatchFile : string -> option error;
  IsDirWriteable : string -> option error;
  fileutil_Exist : string -> bool;
  (* rafthttp *)
  NewRoundTripper : option error;
  (* backend, consistent index, schema *)
  be_Size : handle -> Z;
  be_SizeInUse : handle -> Z;
  be_Defrag : handle -> option error;
  ConsistentIndex_restored : uint64;       (* ci.ConsistentIndex() in bootstrapBackend *)
  ConsistentIndex_recovered : uint64;      (* ci.ConsistentIndex() in recoverSnapshot *)
  schema_Validate : handle -> option error;
  RecoverSnapshotBackend_result : RecoverBackendResult;
  (* v2store *)
  st_Recovery : bytes -> option error;
  AssertNoV2StoreContent : option error;
  (* wal and snap *)
  wal_Exist : string -> bool;
  wal_ValidSnapshotEntries : error + list walpb.Snapshot;
  LoadNewestAvailable_result : list walpb.Snapshot -> option Snapshot.t * option error;
  wal_Open : nat -> option error;          (* by number of earlier opens *)
  wal_ReadAll : nat -> ReadAllResult;
  wal_Repair : nat -> bool;
  wal_Save : option error;
  wal_Create : option error;
  Unmarshal_Metadata : bytes -> option Metadata.t;
  GetIDs : option Snapshot.t -> list Entry.t -> list uint64;
  (* membership, discovery, peers *)
  NewClusterFromURLsMap : string -> types.URLsMap -> error + membership.RaftCluster;
  getRemotePeerURLs : membership.RaftCluster -> string -> list string;
  GetClusterFromRemotePeers : list string -> error + membership.RaftCluster;
  ValidateClusterAndAssignIDs :
    membership.RaftCluster -> membership.RaftCluster -> error + membership.RaftCluster;
  isCompatibleWithCluster : membership.RaftCluster -> types.ID -> bool;
  isMemberBootstrapped : membership.RaftCluster -> string -> bool;
  JoinCluster : string -> string -> types.ID -> error + string;
  NewURLsMap : string -> error + types.URLsMap;
  CheckDuplicateURL : types.URLsMap -> bool;
  Recover : membership.RaftCluster -> membership.RaftCluster;
  LessThan : semver.Version -> semver.Version -> bool;
  json_Marshal : option membership.Member -> error + bytes
}.

(** ** The in-memory raft storage *)

(** [raft.MemoryStorage] belongs to the raft library.  A storage is
    represented by the calls made on it since [raft.NewMemoryStorage()],
    oldest first; [replay] runs such a history on any implementation of
    the three methods. *)
Inductive StorageOp :=
| ApplySnapshot (s : Snapshot.t)
| SetHardState (st : HardState.t)
| Append (ents : list Entry.t).

Definition MemoryStorage_t := list StorageOp.

Definition NewMemoryStorage : MemoryStorage_t := [].

Class StorageImpl (S : Type) := {
  impl_new : S;
  impl_ApplySnapshot : Snapshot.t -> S -> S;
  impl_SetHardState : HardState.t -> S -> S;
  impl_Append : list Entry.t -> S -> S
}.

Definition run_op {S} `{StorageImpl S} (s : S) (op : StorageOp) : S :=
  match op with
  | ApplySnapshot sn => impl_ApplySnapshot sn s
  | SetHardState st => impl_SetHardState st s
  | Append ents => impl_Append ents s
  end.

Definition replay {S} `{StorageImpl S} (ops : MemoryStorage_t) : S :=
  fold_left run_op ops impl_new.

(** The position of a method in the order snapshot, hard state, entries. *)
Definition op_rank (op : StorageOp) : nat :=
  match op with
  | ApplySnapshot _ => 0
  | SetHardState _ => 1
  | Append _ => 2
  end.

(** ** The bootstrapped WAL *)

Record bootstrappedWAL := mkWAL {
  w : nat;                            (* the *wal.WAL, by the number of its open *)
  st : option HardState.t;            (* *raftpb.HardState, nil when absent *)
  ents : list Entry.t;
  snapshot : option Snapshot.t        (* *raftpb.Snapshot, nil when absent *)
}.

(** [bootstrappedWAL.MemoryStorage] *)
Definition MemoryStorage (wal : bootstrappedWAL) : MemoryStorage_t :=
  let s := NewMemoryStorage in
  let s := match snapshot wal with
           | Some sn => s ++ [ApplySnapshot sn]
           | None => s
           end in
  let s := match st wal with
           | Some hs => s ++ [SetHardState hs]
           | None => s
           end in
  let s := if negb (Nat.eqb (length (ents wal)) 0) then s ++ [Append (ents wal)] else s in
  s.

(** The [range] loop of [CommitedEntries]: [rest] is what is left to
    visit, [i] the index of its head in [all]. *)
Fixpoint CommitedEntries_range (st : option HardState.t) (all rest : list Entry.t) (i : nat)
  : M (list Entry.t) :=
  match rest with
  | [] => ret all
  | ent :: rest' =>
      match st with
      | None => panic nil_dereference
      | Some hs =>
          if N.ltb (HardState.Commit hs) (Entry.Index ent)
          then log Info "discarding uncommitted WAL entries" ;;; ret (firstn i all)
          else CommitedEntries_range st all rest' (S i)
      end
  end.

(** [bootstrappedWAL.CommitedEntries] *)
Definition CommitedEntries (wal : bootstrappedWAL) : M (list Entry.t) :=
  CommitedEntries_range (st wal) (ents wal) (ents wal) 0.

(** Modelled from the spec: [serverstorage.CreateConfigChangeEnts] is
    declared in the storage package.  The spec has it synthesize one
    membership-change entry per known member ID, minus the local node,
    positioned at incrementing indices after the index it is given. *)
Fixpoint CreateConfigChangeEnts_from (ids : list uint64) (self term next : uint64)
  : list Entry.t :=
  match ids with
  | [] => []
  | id :: ids' =>
      if N.eqb id self then CreateConfigChangeEnts_from ids' self term next
      else Entry.mk term next EntryConfChange (ConfChangeRemoveNode id)
           :: CreateConfigChangeEnts_from ids' self term (next + 1)%N
  end.

Definition CreateConfigChangeEnts (ids : list uint64) (self term index : uint64)
  : list Entry.t :=
  CreateConfigChangeEnts_from ids self term (index + 1)%N.

(** [bootstrappedWAL.ConfigChangeEntries] *)
Definition ConfigChangeEntries (env : Env) (wal : bootstrappedWAL) (meta : snapshotMetadata)
  : M (list Entry.t) :=
  match st wal with
  | None => panic nil_dereference
  | Some hs =>
      ret (CreateConfigChangeEnts (GetIDs env (snapshot wal) (ents wal)) (nodeID meta)
             (HardState.Term hs) (HardState.Commit hs))
  end.

(** [wal.ents[len(wal.ents)-1]] *)
Definition last_entry (l : list Entry.t) : option Entry.t := nth_error l (length l - 1).

(** [bootstrappedWAL.AppendAndCommitEntries]; the receiver is a pointer,
    the updated value is returned. *)
Definition AppendAndCommitEntries (env : Env) (wal : bootstrappedWAL) (new : list Entry.t)
  : M bootstrappedWAL :=
  let wal := mkWAL (w wal) (st wal) (ents wal ++ new) (snapshot wal) in
  emit (WALSave new) ;;;
  match wal_Save env with
  | Some err => fatal "failed to save hard state and entries"
  | None =>
      if negb (Nat.eqb (length (ents wal)) 0) then
        match st wal, last_entry (ents wal) with
        | Some hs, Some e =>
            ret (mkWAL (w wal) (Some (HardState.set_Commit (Entry.Index e) hs))
                   (ents wal) (snapshot wal))
        | _, _ => panic nil_dereference
        end
      else ret wal
  end.

(** ** Opening the WAL *)

(** What [openWALFromSnapshot] returns. *)
Record openedWAL := mkOpened {
  o_w : nat;
  o_st : HardState.t;
  o_ents : list Entry.t;
  o_snapshot : option Snapshot.t;
  o_meta : snapshotMetadata
}.

(** [wal.Open]: the call is recorded and numbered; the number selects the
    collaborator's answers for this handle. *)
Definition wal_Open_call (env : Env) (walsnap : walpb.Snapshot) : M (nat * option error) :=
  fun w0 =>
    let n := wal_opens w0 in
    (Ret (n, wal_Open env n),
     mkWorld (trace w0 ++ [WALOpen walsnap]) (opened w0) (next_handle w0) (S n)).

(** One pass through the body of the [for] loop either leaves the
    function or reaches [continue] with a new value of [repaired]. *)
Inductive LoopStep (A : Type) :=
| Continue (repaired : bool)
| Return (a : A).
Arguments Continue {A} repaired.

Definition openWAL_body (env : Env) (cfg : ServerConfig) (walsnap : walpb.Snapshot)
    (snapshot : option Snapshot.t) (repaired : bool) : M (LoopStep openedWAL) :=
  r <- wal_Open_call env walsnap ;;
  let '(n, err) := r in
  match err with
  | Some _ => fatal "failed to open WAL"
  | None =>
      (if UnsafeNoFsync cfg then emit WALSetUnsafeNoFsync else ret tt) ;;;
      emit WALReadAll ;;;
      match wal_ReadAll env n with
      | ReadErr err =>
          emit WALClose ;;;
          (* we can only repair ErrUnexpectedEOF and we never repair twice. *)
          if repaired || negb (is_ErrUnexpectedEOF err)
          then fatal "failed to read WAL, cannot be repaired"
          else
            emit WALRepair ;;;
            if negb (wal_Repair env n) then fatal "failed to repair WAL"
            else log Info "repaired WAL" ;;; ret (Continue true)
      | ReadOK wmetadata st ents =>
          match Unmarshal_Metadata env wmetadata with
          | None => panic "unmarshal should never fail"
          | Some metadata =>
              let id := Metadata.NodeID metadata in
              let cid := Metadata.ClusterID metadata in
              let meta := {| clusterID := cid; nodeID := id |} in
              ret (Return (mkOpened n st ents snapshot meta))
          end
      end
  end.

(** The loop reaches [continue] only from [repaired = false], and then
    with [repaired = true]: this is what bounds it. *)
Lemma openWAL_body_continue env cfg walsnap snapshot repaired w0 r' w1 :
  openWAL_body env cfg walsnap snapshot repaired w0 = (Ret (Continue r'), w1) ->
  repaired = false /\ r' = true.
Proof.
  unfold openWAL_body, bind, wal_Open_call; simpl.
  destruct (wal_Open env (wal_opens w0)); [discriminate|].
  destruct (UnsafeNoFsync cfg); simpl;
    (destruct (wal_ReadAll env (wal_opens w0)) as [md hs es|e]; simpl;
     [ destruct (Unmarshal_Metadata env md); discriminate
     | destruct repaired; simpl; [discriminate|];
       destruct (is_ErrUnexpectedEOF e); simpl; [|discriminate];
       destruct (wal_Repair env (wal_opens w0)); simpl; [|discriminate];
       intros H; inversion H; auto ]).
Qed.

Definition inspect {A} (a : A) : {b : A | a = b} := exist _ a eq_refl.

Definition repairs_left (repaired : bool) : nat := if repaired then 0 else 1.

(** The [for] loop of [openWALFromSnapshot]. *)
Equations? openWAL_loop (env : Env) (cfg : ServerConfig) (walsnap : walpb.Snapshot)
    (snapshot : option Snapshot.t) (repaired : bool) (w0 : World)
  : Outcome openedWAL * World by wf (repairs_left repaired) lt :=
  openWAL_loop env cfg walsnap snapshot repaired w0
    with inspect (openWAL_body env cfg walsnap snapshot repaired w0) := {
    | exist _ (Ret (Return a), w1) _ => (Ret a, w1)
    | exist _ (Ret (Continue r'), w1) Hbody =>
        openWAL_loop env cfg walsnap snapshot r' w1
    | exist _ (Fatal msg, w1) _ => (Fatal msg, w1)
    | exist _ (Panic msg, w1) _ => (Panic msg, w1) }.
Proof.
  apply openWAL_body_continue in Hbody. destruct Hbody; subst. simpl. lia.
Qed.

(** [openWALFromSnapshot] *)
Definition openWALFromSnapshot (env : Env) (cfg : ServerConfig) (snap0 : option Snapshot.t)
  : M openedWAL :=
  let walsnap :=
    match snap0 with
    | Some sn =>
        walpb.mkSnapshot (SnapshotMetadata.Index (Snapshot.Metadata sn))
                         (SnapshotMetadata.Term (Snapshot.Metadata sn))
    | None => walpb.mkSnapshot 0%N 0%N
    end in
  let repaired := false in
  openWAL_loop env cfg walsnap snap0 repaired.

(** [bootstrapWALFromSnapshot] *)
Definition bootstrapWALFromSnapshot (env : Env) (cfg : ServerConfig)
    (snap0 : option Snapshot.t) : M (bootstrappedWAL * snapshotMetadata) :=
  o <- openWALFromSnapshot env cfg snap0 ;;
  let meta := o_meta o in
  let bwal := mkWAL (o_w o) (Some (o_st o)) (o_ents o) (o_snapshot o) in
  if ForceNewCluster cfg then
    (* discard the previously uncommitted entries *)
    committed <- CommitedEntries bwal ;;
    let bwal := mkWAL (w bwal) (st bwal) committed (snapshot bwal) in
    entries <- ConfigChangeEntries env bwal meta ;;
    (* force commit config change entries *)
    bwal <- AppendAndCommitEntries env bwal entries ;;
    log Info "forcing restart member" ;;;
    ret (bwal, meta)
  else
    log Info "restarting local member" ;;;
    ret (bwal, meta).

(** [wal.Create]: the new handle takes the next number. *)
Definition wal_Create_call (env : Env) (metadata : Metadata.t) : M (nat * option error) :=
  fun w0 =>
    let n := wal_opens w0 in
    (Ret (n, wal_Create env),
     mkWorld (trace w0 ++ [WALCreate metadata]) (opened w0) (next_handle w0) (S n)).

(** [bootstrapNewWAL] *)
Definition bootstrapNewWAL (env : Env) (cfg : ServerConfig) (cl : membership.RaftCluster)
    (nodeID : types.ID) : M bootstrappedWAL :=
  let metadata := Metadata.mk nodeID (membership.cid cl) in
  r <- wal_Create_call env metadata ;;
  let '(n, err) := r in
  match err with
  | Some _ => panic "failed to create WAL"
  | None =>
      (if UnsafeNoFsync cfg then emit WALSetUnsafeNoFsync else ret tt) ;;;
      ret (mkWAL n None [] None)
  end.

(** ** The backend and the snapshot recoverer *)

(** [serverstorage.OpenBackend] hands out a fresh, open handle. *)
Definition OpenBackend : M handle :=
  fun w0 =>
    let h := next_handle w0 in
    (Ret h, mkWorld (trace w0 ++ [BackendOpen h]) (h :: opened w0) (S h) (wal_opens w0)).

(** [be.Close()] *)
Definition be_Close (h : handle) : M unit :=
  fun w0 =>
    (Ret tt, mkWorld (trace w0 ++ [BackendClose h]) (remove Nat.eq_dec h (opened w0))
               (next_handle w0) (wal_opens w0)).

(** Modelled from the spec: [serverstorage.RecoverSnapshotBackend] is
    declared in the storage package.  Per the spec it may swap the backend
    handle with a freshly recovered one, the old handle being closed and
    the new one becoming the sole owner; otherwise the handle it was given
    is returned. *)
Definition RecoverSnapshotBackend (env : Env) (oldbe : handle) : M (handle * option error) :=
  match RecoverSnapshotBackend_result env with
  | KeepBackend => ret (oldbe, None)
  | SwapBackend => be_Close oldbe ;;; h <- OpenBackend ;; ret (h, None)
  | RecoverBackendErr e => ret (oldbe, Some e)
  end.

Definition two64 : Z := 2 ^ 64.

(** [maybeDefragBackend]; [uint(size - sizeInUse)] and the product of
    [uint]s wrap at 64 bits. *)
Definition maybeDefragBackend (env : Env) (cfg : ServerConfig) (be : handle)
  : M (option error) :=
  let size := be_Size env be in
  let sizeInUse := be_SizeInUse env be in
  let freeableMemory := ((size - sizeInUse) mod two64)%Z in
  let thresholdBytes :=
    ((Z.of_N (ExperimentalBootstrapDefragThresholdMegabytes cfg) * 1024 * 1024) mod two64)%Z in
  if (freeableMemory <? thresholdBytes)%Z then
    log Info "Skipping defragmentation" ;;; ret None
  else ret (be_Defrag env be).

(** [err != nil && err != snap.ErrNoSnapshot], with the error it holds
    for. *)
Definition other_than_ErrNoSnapshot (err : option error) : option error :=
  match err with
  | Some e => if negb (is_ErrNoSnapshot e) then Some e else None
  | None => None
  end.

(** [recoverSnapshot] returns the snapshot, the backend handle to use from
    now on, and the error. *)
Definition recoverSnapshot (env : Env) (cfg : ServerConfig) (be : handle) (beExist : bool)
  : M (option Snapshot.t * handle * option error) :=
  (* Find a snapshot to start/restart a raft node *)
  match wal_ValidSnapshotEntries env with
  | inl err => ret (None, be, Some err)
  | inr walSnaps =>
      let '(snapshot, err) := LoadNewestAvailable_result env walSnaps in
      match other_than_ErrNoSnapshot err with
      | Some e => ret (None, be, Some e)
      | None =>
          match snapshot with
          | Some sn =>
              emit (StoreRecovery (Snapshot.Data sn)) ;;;
              match st_Recovery env (Snapshot.Data sn) with
              | Some _ => panic "failed to recover from snapshot"
              | None =>
                  match AssertNoV2StoreContent env with
                  | Some err =>
                      log Error "illegal v2store content" ;;; ret (None, be, Some err)
                  | None =>
                      log Info "recovered v2 store from snapshot" ;;;
                      r <- RecoverSnapshotBackend env be ;;
                      let '(be, err) := r in
                      match err with
                      | Some _ => panic "failed to recover v3 backend from snapshot"
                      | None =>
                          log Info "recovered v3 backend from snapshot" ;;;
                          let index := SnapshotMetadata.Index (Snapshot.Metadata sn) in
                          if beExist then
                            let kvindex := ConsistentIndex_recovered env in
                            if N.ltb kvindex index then
                              if negb (N.eqb kvindex 0) then
                                ret (None, be,
                                     Some (Errorf
                                       "database file (%v index %d) does not match with snapshot (index %d)"
                                       [ArgString (BackendPath env cfg); ArgUint kvindex;
                                        ArgUint index]))
                              else
                                log Warn "consistent index was never saved" ;;;
                                ret (snapshot, be, None)
                            else ret (snapshot, be, None)
                          else ret (snapshot, be, None)
                      end
                  end
              end
          | None =>
              log Info "No snapshot found. Recovering WAL from scratch!" ;;;
              ret (snapshot, be, None)
          end
      end
  end.

Module bootstrappedBackend.
(** [beHooks] and [ci] carry no state of their own in this model. *)
Record t := mk {
  be : handle;
  beExist : bool;
  snapshot : option Snapshot.t
}.
End bootstrappedBackend.

Module bootstrappedStorage.
(** [backend] is a pointer; the v2 store [st] carries no state of its
    own in this model. *)
Record t := mk { backend : option bootstrappedBackend.t }.
End bootstrappedStorage.

(** The body of [bootstrapBackend] after the [defer]: besides the
    results it reports the value of the variable [be] when it returns,
    which the deferred function reads. *)
Definition bootstrapBackend_body (env : Env) (cfg : ServerConfig) (haveWAL beExist : bool)
    (be : handle) : M (option bootstrappedBackend.t * handle * option error) :=
  (* ci.SetBackend(be); schema.CreateMetaBucket(be.BatchTx()) *)
  err <- (if negb (N.eqb (ExperimentalBootstrapDefragThresholdMegabytes cfg) 0)
          then maybeDefragBackend env cfg be else ret None) ;;
  match err with
  | Some e => ret (None, be, Some e)
  | None =>
      log Debug "restore consistentIndex" ;;;
      r <- (if haveWAL then recoverSnapshot env cfg be beExist
            else ret (None, be, None)) ;;
      let '(snapshot, be, err) := r in
      match err with
      | Some e => ret (None, be, Some e)
      | None =>
          match (if beExist then schema_Validate env be else None) with
          | Some e =>
              log Error "Failed to validate schema" ;;; ret (None, be, Some e)
          | None =>
              ret (Some (bootstrappedBackend.mk be beExist snapshot), be, None)
          end
      end
  end.

(** [bootstrapBackend].  The deferred function closes [be] when the
    function returns with [err != nil]; when a panic unwinds through it
    [err] is still nil, so it does nothing, and [Fatal] ends the process
    without running it. *)
Definition bootstrapBackend (env : Env) (cfg : ServerConfig) (haveWAL : bool)
  : M (option bootstrappedBackend.t * option error) :=
  let beExist := fileutil_Exist env (BackendPath env cfg) in
  be <- OpenBackend ;;
  r <- bootstrapBackend_body env cfg haveWAL beExist be ;;
  let '(backend, be, err) := r in
  match err with
  | Some _ => be_Close be ;;; ret (backend, err)
  | None => ret (backend, err)
  end.

(** [bootstrapStorage] *)
Definition bootstrapStorage (env : Env) (cfg : ServerConfig) (haveWAL : bool)
  : M (option bootstrappedStorage.t * option error) :=
  (* st := v2store.New(StoreClusterPrefix, StoreKeysPrefix) *)
  r <- bootstrapBackend env cfg haveWAL ;;
  let '(backend, err) := r in
  match err with
  | Some err => ret (None, Some err)
  | None => ret (Some (bootstrappedStorage.mk backend), None)
  end.

(** [bootstrapSnapshot] *)
Definition bootstrapSnapshot (env : Env) (cfg : ServerConfig) : M unit :=
  match TouchDirAll env (SnapDir env cfg) with
  | Some _ => fatal "failed to create snapshot directory"
  | None =>
      match RemoveMatchFile env (SnapDir env cfg) with
      | Some _ => log Error "failed to remove temp file(s) in snapshot directory"
      | None => ret tt
      end
  end.

(** ** The raft builder *)

Module Peer.
Record t := mk { ID : uint64; Context : bytes }.
End Peer.

Module Config.
Record t := mk {
  ID : uint64;
  ElectionTick : Z;
  HeartbeatTick : Z;
  Storage : MemoryStorage_t;
  MaxSizePerMsg : N;
  MaxInflightMsgs : Z;
  CheckQuorum : bool;
  PreVote : bool
}.
End Config.

Module bootstrappedRaft.
Record t := mk {
  heartbeat : Z;
  peers : list Peer.t;
  config : Config.t;
  storage : MemoryStorage_t
}.
End bootstrappedRaft.

(** A [time.Duration] is an [int64]. *)
Definition wrap_int64 (z : Z) : Z := ((z + 2 ^ 63) mod 2 ^ 64 - 2 ^ 63)%Z.

(** [time.Duration(cfg.TickMs) * time.Millisecond] *)
Definition heartbeat_of (cfg : ServerConfig) : Z :=
  wrap_int64 (wrap_int64 (Z.of_N (TickMs cfg)) * 1000000).

(** [raftConfig] *)
Definition raftConfig (env : Env) (cfg : ServerConfig) (id : uint64) (s : MemoryStorage_t)
  : Config.t :=
  Config.mk id (ElectionTicks cfg) 1 s (maxSizePerMsg env) (maxInflightMsgs env) true
    (PreVote cfg).

(** The loop of [bootstrapRaftFromCluster] that fills [peers]. *)
Fixpoint make_peers (env : Env) (cl : membership.RaftCluster) (ids : list types.ID)
  : M (list Peer.t) :=
  match ids with
  | [] => ret []
  | id :: ids' =>
      match json_Marshal env (membership.Member_ cl id) with
      | inl _ => panic "failed to marshal member"
      | inr ctx =>
          rest <- make_peers env cl ids' ;;
          ret (Peer.mk id ctx :: rest)
      end
  end.

(** [bootstrapRaftFromCluster] *)
Definition bootstrapRaftFromCluster (env : Env) (cfg : ServerConfig)
    (cl : membership.RaftCluster) (ids : list types.ID) (bwal : bootstrappedWAL)
  : M bootstrappedRaft.t :=
  emit (Enter "bootstrapRaftFromCluster") ;;;
  let member := membership.MemberByName cl (Name cfg) in
  peers <- make_peers env cl ids ;;
  match member with
  | None => panic nil_dereference
  | Some member =>
      log Info "starting local member" ;;;
      let s := MemoryStorage bwal in
      ret (bootstrappedRaft.mk (heartbeat_of cfg)
             peers (raftConfig env cfg (membership.ID member) s) s)
  end.

(** [bootstrapRaftFromSnapshot]; the [peers] field is left nil. *)
Definition bootstrapRaftFromSnapshot (env : Env) (cfg : ServerConfig)
    (bwal : bootstrappedWAL) (meta : snapshotMetadata) : M bootstrappedRaft.t :=
  emit (Enter "bootstrapRaftFromSnapshot") ;;;
  let s := MemoryStorage bwal in
  ret (bootstrappedRaft.mk (heartbeat_of cfg) [] (raftConfig env cfg (nodeID meta) s) s).

(** How the raft node is brought up. *)
Inductive Node :=
| StartNode (c : Config.t) (peers : list Peer.t)
| RestartNode (c : Config.t).

Record raftNodeConfig := {
  node : Node;
  rn_heartbeat : Z;
  raftStorage : MemoryStorage_t
}.

(** [bootstrappedRaft.newRaftNode] *)
Definition newRaftNode (b : bootstrappedRaft.t) : M raftNodeConfig :=
  let n := if Nat.eqb (length (bootstrappedRaft.peers b)) 0
           then RestartNode (bootstrappedRaft.config b)
           else StartNode (bootstrappedRaft.config b) (bootstrappedRaft.peers b) in
  emit SetRaftStatus ;;;
  ret {| node := n;
         rn_heartbeat := bootstrappedRaft.heartbeat b;
         raftStorage := bootstrappedRaft.storage b |}.

(** ** The cluster resolver *)

Module bootstrapedCluster.
Record t := mk {
  raft : option bootstrappedRaft.t;
  remotes : list membership.Member;
  wal : option bootstrappedWAL;
  cl : membership.RaftCluster;
  nodeID : types.ID
}.
End bootstrapedCluster.

(** [bootstrapExistingClusterNoWAL] *)
Definition bootstrapExistingClusterNoWAL (env : Env) (cfg : ServerConfig) (be : handle)
  : M (option bootstrapedCluster.t * option error) :=
  emit (Enter "bootstrapExistingClusterNoWAL") ;;;
  match VerifyJoinExisting env cfg with
  | Some err => ret (None, Some err)
  | None =>
  match NewClusterFromURLsMap env (InitialClusterToken cfg) (InitialPeerURLsMap cfg) with
  | inl err => ret (None, Some err)
  | inr cl =>
  match GetClusterFromRemotePeers env (getRemotePeerURLs env cl (Name cfg)) with
  | inl gerr =>
      ret (None, Some (Errorf "cannot fetch cluster info from peer urls: %v" [ArgError gerr]))
  | inr existingCluster =>
  match ValidateClusterAndAssignIDs env cl existingCluster with
  | inl err =>
      ret (None, Some (Errorf "error validating peerURLs %s: %v" [ArgStringer; ArgError err]))
  | inr cl =>
  match membership.MemberByName cl (Name cfg) with
  | None => panic nil_dereference
  | Some m =>
      if negb (isCompatibleWithCluster env cl (membership.ID m)) then
        ret (None, Some (Errorf "incompatible with current running cluster" []))
      else
        let remotes := membership.members existingCluster in
        let cl := membership.SetID 0%N (membership.cid existingCluster) cl in
        let cl := membership.SetStore cl in
        let cl := membership.SetBackend be cl in
        match membership.MemberByName cl (Name cfg) with
        | None => panic nil_dereference
        | Some member =>
            ret (Some (bootstrapedCluster.mk None remotes None cl (membership.ID member)),
                 None)
        end
  end end end end end.

(** [bootstrapNewClusterNoWAL] *)
Definition bootstrapNewClusterNoWAL (env : Env) (cfg : ServerConfig) (be : handle)
  : M (option bootstrapedCluster.t * option error) :=
  emit (Enter "bootstrapNewClusterNoWAL") ;;;
  match VerifyBootstrap env cfg with
  | Some err => ret (None, Some err)
  | None =>
  match NewClusterFromURLsMap env (InitialClusterToken cfg) (InitialPeerURLsMap cfg) with
  | inl err => ret (None, Some err)
  | inr cl =>
      let m := membership.MemberByName cl (Name cfg) in
      if isMemberBootstrapped env cl (Name cfg) then
        match m with
        | None => panic nil_dereference
        | Some _ =>
            ret (None, Some (Errorf "member %s has already been bootstrapped" [ArgStringer]))
        end
      else
        r <- (if ShouldDiscover env cfg then
                match m with
                | None => panic nil_dereference
                | Some m =>
                    match JoinCluster env (DiscoveryURL cfg) (DiscoveryProxy cfg)
                            (membership.ID m) with
                    | inl err => ret (inl (DiscoveryError "join" err))
                    | inr str =>
                        match NewURLsMap env str with
                        | inl err => ret (inl err)
                        | inr urlsmap =>
                            if CheckDuplicateURL env urlsmap then
                              ret (inl (Errorf "discovery cluster %s has duplicate url"
                                          [ArgStringer]))
                            else
                              ret (NewClusterFromURLsMap env (InitialClusterToken cfg) urlsmap)
                        end
                    end
                end
              else ret (inr cl)) ;;
        match r with
        | inl err => ret (None, Some err)
        | inr cl =>
            let cl := membership.SetStore cl in
            let cl := membership.SetBackend be cl in
            match membership.MemberByName cl (Name cfg) with
            | None => panic nil_dereference
            | Some member =>
                ret (Some (bootstrapedCluster.mk None [] None cl (membership.ID member)),
                     None)
            end
        end
  end end.

(** [semver.Version{Major: 3}] *)
Definition V3 : semver.Version := semver.mk 3 0 0 "".

(** The test that guards the removal of the backend file in
    [bootstrapClusterWithWAL]. *)
Definition v3_cluster_without_backend (env : Env) (cl : membership.RaftCluster)
    (beExist : bool) : bool :=
  match membership.version cl with
  | Some v => negb (LessThan env v V3) && negb beExist
  | None => false
  end.

(** [bootstrapClusterWithWAL] *)
Definition bootstrapClusterWithWAL (env : Env) (cfg : ServerConfig)
    (storage : bootstrappedStorage.t) (meta : snapshotMetadata)
  : M (option bootstrapedCluster.t * option error) :=
  emit (Enter "bootstrapClusterWithWAL") ;;;
  match IsDirWriteable env (MemberDir env cfg) with
  | Some err =>
      ret (None, Some (Errorf "cannot write to member directory: %v" [ArgError err]))
  | None =>
      (if ShouldDiscover env cfg then
         log Warn "discovery token is ignored since cluster already initialized; valid logs are found"
       else ret tt) ;;;
      match bootstrappedStorage.backend storage with
      | None => panic nil_dereference
      | Some backend =>
          let cl := membership.NewCluster in
          let cl := membership.SetID (nodeID meta) (clusterID meta) cl in
          let cl := membership.SetStore cl in
          let cl := membership.SetBackend (bootstrappedBackend.be backend) cl in
          let cl := Recover env cl in
          if v3_cluster_without_backend env cl (bootstrappedBackend.beExist backend) then
            let bepath := BackendPath env cfg in
            emit (RemoveAll bepath) ;;;
            ret (None, Some (Errorf "database file (%v) of the backend is missing"
                               [ArgString bepath]))
          else
            ret (Some (bootstrapedCluster.mk None [] None cl (nodeID meta)), None)
      end
  end.

(** The guards of the two [switch] statements of [bootstrapCluster], tried
    in the order they are written; the last constructor is [default]. *)
Inductive Path := JoinExisting | FormNewCluster | RestartFromLog | Unsupported.

Definition first_switch (haveWAL newCluster : bool) : Path :=
  if negb haveWAL && negb newCluster then JoinExisting
  else if negb haveWAL && newCluster then FormNewCluster
  else if haveWAL then RestartFromLog
  else Unsupported.

Definition second_switch (haveWAL newCluster : bool) : Path :=
  if negb haveWAL && negb newCluster then JoinExisting
  else if negb haveWAL && newCluster then FormNewCluster
  else if haveWAL then RestartFromLog
  else Unsupported.

Definition unsupported_bootstrap_config : error := Errorf "unsupported bootstrap config" [].

Definition with_wal (c : bootstrapedCluster.t) (bwal : bootstrappedWAL) : bootstrapedCluster.t :=
  bootstrapedCluster.mk (bootstrapedCluster.raft c) (bootstrapedCluster.remotes c)
    (Some bwal) (bootstrapedCluster.cl c) (bootstrapedCluster.nodeID c).

Definition with_raft (c : bootstrapedCluster.t) (r : bootstrappedRaft.t)
    (cl : membership.RaftCluster) : bootstrapedCluster.t :=
  bootstrapedCluster.mk (Some r) (bootstrapedCluster.remotes c)
    (bootstrapedCluster.wal c) cl (bootstrapedCluster.nodeID c).

(** The two no-WAL cases of the first switch after the resolver has
    returned: a new WAL is created for the resolved cluster. *)
Definition then_new_WAL (env : Env) (cfg : ServerConfig)
    (r : option bootstrapedCluster.t * option error) : M (error + bootstrapedCluster.t) :=
  match r with
  | (_, Some err) => ret (inl err)
  | (None, None) => panic nil_dereference
  | (Some c, None) =>
      bwal <- bootstrapNewWAL env cfg (bootstrapedCluster.cl c) (bootstrapedCluster.nodeID c) ;;
      ret (inr (with_wal c bwal))
  end.

(** The first switch of [bootstrapCluster]. *)
Definition resolve_cluster (env : Env) (cfg : ServerConfig) (haveWAL : bool)
    (storage : bootstrappedStorage.t) (walmeta : option (bootstrappedWAL * snapshotMetadata))
  : M (error + bootstrapedCluster.t) :=
  match first_switch haveWAL (NewCluster cfg) with
  | JoinExisting =>
      match bootstrappedStorage.backend storage with
      | None => panic nil_dereference
      | Some backend =>
          r <- bootstrapExistingClusterNoWAL env cfg (bootstrappedBackend.be backend) ;;
          then_new_WAL env cfg r
      end
  | FormNewCluster =>
      match bootstrappedStorage.backend storage with
      | None => panic nil_dereference
      | Some backend =>
          r <- bootstrapNewClusterNoWAL env cfg (bootstrappedBackend.be backend) ;;
          then_new_WAL env cfg r
      end
  | RestartFromLog =>
      match walmeta with
      | None => panic nil_dereference
      | Some (bwal, meta) =>
          r <- bootstrapClusterWithWAL env cfg storage meta ;;
          match r with
          | (_, Some err) => ret (inl err)
          | (None, None) => panic nil_dereference
          | (Some c, None) => ret (inr (with_wal c bwal))
          end
      end
  | Unsupported => ret (inl unsupported_bootstrap_config)
  end.

(** The second switch of [bootstrapCluster]. *)
Definition build_raft (env : Env) (cfg : ServerConfig) (haveWAL : bool)
    (c : bootstrapedCluster.t) (walmeta : option (bootstrappedWAL * snapshotMetadata))
  : M (option bootstrapedCluster.t * option error) :=
  let cl := bootstrapedCluster.cl c in
  match second_switch haveWAL (NewCluster cfg) with
  | JoinExisting =>
      match bootstrapedCluster.wal c with
      | None => panic nil_dereference
      | Some bwal =>
          r <- bootstrapRaftFromCluster env cfg cl [] bwal ;;
          ret (Some (with_raft c r
                       (membership.SetID (bootstrapedCluster.nodeID c) (membership.cid cl) cl)),
               None)
      end
  | FormNewCluster =>
      match bootstrapedCluster.wal c with
      | None => panic nil_dereference
      | Some bwal =>
          r <- bootstrapRaftFromCluster env cfg cl (membership.MemberIDs cl) bwal ;;
          ret (Some (with_raft c r
                       (membership.SetID (bootstrapedCluster.nodeID c) (membership.cid cl) cl)),
               None)
      end
  | RestartFromLog =>
      match bootstrapedCluster.wal c, walmeta with
      | Some bwal, Some (_, meta) =>
          r <- bootstrapRaftFromSnapshot env cfg bwal meta ;;
          ret (Some (with_raft c r cl), None)
      | _, _ => panic nil_dereference
      end
  | Unsupported => ret (None, Some unsupported_bootstrap_config)
  end.

(** [bootstrapCluster] *)
Definition bootstrapCluster (env : Env) (cfg : ServerConfig) (haveWAL : bool)
    (storage : bootstrappedStorage.t) : M (option bootstrapedCluster.t * option error) :=
  r <- (if haveWAL then
          match IsDirWriteable env (WALDir env cfg) with
          | Some err =>
              ret (inl (Errorf "cannot write to WAL directory: %v" [ArgError err]))
          | None =>
              match bootstrappedStorage.backend storage with
              | None => panic nil_dereference
              | Some backend =>
                  bm <- bootstrapWALFromSnapshot env cfg (bootstrappedBackend.snapshot backend) ;;
                  ret (inr (Some bm))
              end
          end
        else ret (inr None)) ;;
  match r with
  | inl err => ret (None, Some err)
  | inr walmeta =>
      r <- resolve_cluster env cfg haveWAL storage walmeta ;;
      match r with
      | inl err => ret (None, Some err)
      | inr c => build_raft env cfg haveWAL c walmeta
      end
  end.

Module bootstrappedServer.
(** [prt] and [ss] carry no state of their own in this model. *)
Record t := mk {
  storage : option bootstrappedStorage.t;
  cluster : option bootstrapedCluster.t
}.
End bootstrappedServer.

(** [s.backend.be.Close()] *)
Definition close_storage_backend (s : option bootstrappedStorage.t) : M unit :=
  match s with
  | None => panic nil_dereference
  | Some s =>
      match bootstrappedStorage.backend s with
      | None => panic nil_dereference
      | Some backend => be_Close (bootstrappedBackend.be backend)
      end
  end.

(** [bootstrap] *)
Definition bootstrap (env : Env) (cfg : ServerConfig)
  : M (option bootstrappedServer.t * option error) :=
  (if N.ltb (recommendedMaxRequestBytes env) (MaxRequestBytes cfg)
   then log Warn "exceeded recommended request limit" else ret tt) ;;;
  match TouchDirAll env (DataDir cfg) with
  | Some terr =>
      ret (None, Some (Errorf "cannot access data directory: %v" [ArgError terr]))
  | None =>
      bootstrapSnapshot env cfg ;;;
      match NewRoundTripper env with
      | Some err => ret (None, Some err)
      | None =>
          match TouchDirAll env (MemberDir env cfg) with
          | Some terr =>
              ret (None, Some (Errorf "cannot access member directory: %v" [ArgError terr]))
          | None =>
              let haveWAL := wal_Exist env (WALDir env cfg) in
              r <- bootstrapStorage env cfg haveWAL ;;
              let '(s, err) := r in
              match err with
              | Some err => ret (None, Some err)
              | None =>
                  match s with
                  | None => panic nil_dereference
                  | Some storage =>
                      r <- bootstrapCluster env cfg haveWAL storage ;;
                      let '(cluster, err) := r in
                      match err with
                      | Some err => close_storage_backend s ;;; ret (None, Some err)
                      | None => ret (Some (bootstrappedServer.mk s cluster), None)
                      end
                  end
              end
          end
      end
  end.

(** ** Snapshot selection *)

Module snap.
(** Modelled from the spec: [Snapshotter.LoadNewestAvailable] is declared
    in the snap package.  Per the spec, the candidates are the snapshot
    positions referenced by valid positions in the log, and the newest
    snapshot file that is actually loadable and is such a candidate is
    selected; files that do not load (orphans of a crash) are skipped,
    and when nothing is left the no-snapshot condition is reported.
    The directory is given newest file first, [None] standing for a
    file that does not load. *)
Definition referenced (walSnaps : list walpb.Snapshot) (s : Snapshot.t) : bool :=
  existsb (fun ws =>
             N.eqb (SnapshotMetadata.Term (Snapshot.Metadata s)) (walpb.Term ws)
             && N.eqb (SnapshotMetadata.Index (Snapshot.Metadata s)) (walpb.Index ws))
          walSnaps.

Fixpoint LoadNewestAvailable (files : list (option Snapshot.t))
    (walSnaps : list walpb.Snapshot) : option Snapshot.t * option error :=
  match files with
  | [] => (None, Some ErrNoSnapshot)
  | Some s :: older =>
      if referenced walSnaps s then (Some s, None)
      else LoadNewestAvailable older walSnaps
  | None :: older => LoadNewestAvailable older walSnaps
  end.

(** A file the selection passes over: it does not load, or no valid
    position of the log refers to it. *)
Definition skipped (walSnaps : list walpb.Snapshot) (f : option Snapshot.t) : Prop :=
  match f with
  | None => True
  | Some s => referenced walSnaps s = false
  end.
End snap.

(** ** Concrete environments

    Used to run the model on concrete inputs. *)

Definition cfg0 : ServerConfig :=
  {| Name := "infra0"; DataDir := "/var/lib/etcd"; MaxRequestBytes := 1572864%N;
     NewCluster := false; ForceNewCluster := false;
     ExperimentalBootstrapDefragThresholdMegabytes := 0; UnsafeNoFsync := false;
     InitialClusterToken := "etcd-cluster"; InitialPeerURLsMap := [];
     DiscoveryURL := ""; DiscoveryProxy := ""; TickMs := 100%N; ElectionTicks := 10%Z;
     PreVote := true |}.

Definition set_flags (newCluster force : bool) (cfg : ServerConfig) : ServerConfig :=
  {| Name := Name cfg; DataDir := DataDir cfg; MaxRequestBytes := MaxRequestBytes cfg;
     NewCluster := newCluster; ForceNewCluster := force;
     ExperimentalBootstrapDefragThresholdMegabytes :=
       ExperimentalBootstrapDefragThresholdMegabytes cfg;
     UnsafeNoFsync := UnsafeNoFsync cfg;
     InitialClusterToken := InitialClusterToken cfg;
     InitialPeerURLsMap := InitialPeerURLsMap cfg;
     DiscoveryURL := DiscoveryURL cfg; DiscoveryProxy := DiscoveryProxy cfg;
     TickMs := TickMs cfg; ElectionTicks := ElectionTicks cfg; PreVote := PreVote cfg |}.

Definition member1 : membership.Member := membership.mkMember 1%N "infra0" ["http://10.0.0.1:2380"] false.
Definition member2 : membership.Member := membership.mkMember 2%N "infra1" ["http://10.0.0.2:2380"] false.
Definition member3 : membership.Member := membership.mkMember 3%N "infra2" ["http://10.0.0.3:2380"] false.

Definition cluster0 : membership.RaftCluster :=
  membership.mkCluster 0%N 7%N [member1; member2; member3] None false None.

Definition entry_at (i : N) : Entry.t := Entry.mk 2%N i EntryNormal (Raw []).

Definition snapshot100 : Snapshot.t :=
  Snapshot.mk [] (SnapshotMetadata.mk [1; 2; 3]%N 100%N 2%N).

Definition read0 : ReadAllResult :=
  ReadOK [] (HardState.mk 2%N 1%N 50%N) (map entry_at [48; 49; 50; 51; 52; 53]%N).

(** An environment in which every collaborator succeeds, but for the
    answers given as arguments: whether the backend file and the WAL
    exist, what the snapshotter loads, how the backend is recovered, the
    consistent index read after recovery, what reading the WAL and
    repairing it give, and what membership is recovered from storage. *)
Definition mk_env (beExist haveWAL : bool)
    (load : list walpb.Snapshot -> option Snapshot.t * option error)
    (recovered : RecoverBackendResult) (kvindex : uint64)
    (read : nat -> ReadAllResult) (repair : nat -> bool)
    (recover : membership.RaftCluster -> membership.RaftCluster) : Env :=
  {| recommendedMaxRequestBytes := 10485760%N; maxSizePerMsg := 1048576%N; maxInflightMsgs := 512%Z;
     MemberDir := fun cfg => String.append (DataDir cfg) "/member";
     WALDir := fun cfg => String.append (DataDir cfg) "/member/wal";
     SnapDir := fun cfg => String.append (DataDir cfg) "/member/snap";
     BackendPath := fun cfg => String.append (DataDir cfg) "/member/snap/db";
     ShouldDiscover := fun cfg => negb (String.eqb (DiscoveryURL cfg) "");
     VerifyJoinExisting := fun _ => None; VerifyBootstrap := fun _ => None;
     TouchDirAll := fun _ => None; RemoveMatchFile := fun _ => None;
     IsDirWriteable := fun _ => None; fileutil_Exist := fun _ => beExist;
     NewRoundTripper := None;
     be_Size := fun _ => 4096%Z; be_SizeInUse := fun _ => 1024%Z; be_Defrag := fun _ => None;
     ConsistentIndex_restored := kvindex; ConsistentIndex_recovered := kvindex;
     schema_Validate := fun _ => None;
     RecoverSnapshotBackend_result := recovered;
     st_Recovery := fun _ => None; AssertNoV2StoreContent := None;
     wal_Exist := fun _ => haveWAL;
     wal_ValidSnapshotEntries := inr [walpb.mkSnapshot 0%N 0%N; walpb.mkSnapshot 100%N 2%N];
     LoadNewestAvailable_result := load;
     wal_Open := fun _ => None;
     wal_ReadAll := read;
     wal_Repair := repair;
     wal_Save := None; wal_Create := None;
     Unmarshal_Metadata := fun _ => Some (Metadata.mk 1%N 7%N);
     GetIDs := fun _ _ => [1; 2; 3]%N;
     NewClusterFromURLsMap := fun _ _ => inr cluster0;
     getRemotePeerURLs := fun _ _ => ["http://10.0.0.2:2380"];
     GetClusterFromRemotePeers := fun _ => inr cluster0;
     ValidateClusterAndAssignIDs := fun cl _ => inr cl;
     isCompatibleWithCluster := fun _ _ => true;
     isMemberBootstrapped := fun _ _ => false;
     JoinCluster := fun _ _ _ => inr "infra0=http://10.0.0.1:2380";
     NewURLsMap := fun _ => inr [];
     CheckDuplicateURL := fun _ => false;
     Recover := recover;
     LessThan := fun a b => Z.ltb (semver.Major a) (semver.Major b);
     json_Marshal := fun _ => inr [] |}.

(** Everything succeeds; the WAL holds entries 48 to 53 with commit 50,
    the backend file and the WAL exist, no snapshot file is on disk. *)
Definition env0 : Env :=
  mk_env true true (snap.LoadNewestAvailable []) KeepBackend 50%N
    (fun _ => read0) (fun _ => true) (fun cl => cl).

(** The first read of the WAL hits a truncated tail, the repair works,
    the second read succeeds. *)
Definition env_truncated : Env :=
  mk_env true true (snap.LoadNewestAvailable []) KeepBackend 50%N
    (fun k => if Nat.eqb k 0 then ReadErr ErrUnexpectedEOF else read0)
    (fun _ => true) (fun cl => cl).

(** The tail is still truncated after the repair. *)
Definition env_truncated_twice : Env :=
  mk_env true true (snap.LoadNewestAvailable []) KeepBackend 50%N
    (fun _ => ReadErr ErrUnexpectedEOF) (fun _ => true) (fun cl => cl).

(** A snapshot at index 0 is found and the consistent index of the
    pre-existing backend is 0. *)
Definition snapshot_zero : Snapshot.t := Snapshot.mk [] (SnapshotMetadata.mk [1]%N 0%N 0%N).


(** The snapshot at index 100 is found; the consistent index of the
    backend is the argument. *)
Definition env_snapshot (kvindex : uint64) : Env :=
  mk_env true true (snap.LoadNewestAvailable [None; Some snapshot100]) KeepBackend kvindex
    (fun _ => read0) (fun _ => true) (fun cl => cl).

(** The snapshot at index 100 is found and the backend is swapped for
    the recovered one, whose consistent index 7 is behind the snapshot. *)
Definition env_swapped : Env :=
  mk_env true true (snap.LoadNewestAvailable [None; Some snapshot100]) SwapBackend 7%N
    (fun _ => read0) (fun _ => true) (fun cl => cl).

(** A first start: no backend file, no WAL, a new cluster of three. *)
Definition env_new : Env :=
  mk_env false false (snap.LoadNewestAvailable []) KeepBackend 0%N
    (fun _ => read0) (fun _ => true) (fun cl => cl).

Definition cfg_new : ServerConfig := set_flags true false cfg0.

Definition storage0 : bootstrappedStorage.t :=
  bootstrappedStorage.mk (Some (bootstrappedBackend.mk 0 false None)).

Definition formed_cluster : bootstrapedCluster.t :=
  match fst (bootstrapCluster env_new cfg_new false storage0 initial_world) with
  | Ret (Some c, None) => c
  | _ => bootstrapedCluster.mk None [] None cluster0 0%N
  end.

(** A restart from a WAL whose membership declares version 3.5, the
    backend file being absent or present as the argument says. *)
Definition version35 : semver.Version := semver.mk 3 5 0 "".

Definition env_v3 (beExist : bool) : Env :=
  mk_env beExist true (snap.LoadNewestAvailable []) KeepBackend 0%N
    (fun _ => read0) (fun _ => true)
    (fun cl => membership.mkCluster (membership.localID cl) (membership.cid cl)
                 [member1; member2; member3] (Some version35)
                 (membership.store_bound cl) (membership.backend_bound cl)).

(** ** Vocabulary of the statements *)

Definition indices (l : list Entry.t) : list uint64 := map Entry.Index l.

(** Each index is the previous one plus one. *)
Fixpoint contiguous (l : list uint64) : Prop :=
  match l with
  | a :: (b :: _) as rest => b = (a + 1)%N /\ contiguous rest
  | _ => True
  end.

(** The longest prefix of entries at or below the commit marker. *)
Fixpoint take_committed (commit : uint64) (l : list Entry.t) : list Entry.t :=
  match l with
  | [] => []
  | e :: rest =>
      if N.ltb commit (Entry.Index e) then [] else e :: take_committed commit rest
  end.

Definition is_WALOpen (e : Event) : bool := match e with WALOpen _ => true | _ => false end.
Definition is_WALRepair (e : Event) : bool := match e with WALRepair => true | _ => false end.
Definition is_WALSave (e : Event) : bool := match e with WALSave _ => true | _ => false end.
Definition is_WALClose (e : Event) : bool := match e with WALClose => true | _ => false end.

Definition count (p : Event -> bool) (tr : list Event) : nat := length (filter p tr).

(** The functions of this file entered, in order. *)
Fixpoint entered (tr : list Event) : list string :=
  match tr with
  | [] => []
  | Enter fn :: rest => fn :: entered rest
  | _ :: rest => entered rest
  end.


(** The paths removed with [os.RemoveAll], in order. *)
Fixpoint removed (tr : list Event) : list string :=
  match tr with
  | [] => []
  | RemoveAll path :: rest => path :: removed rest
  | _ :: rest => removed rest
  end.

(** Forced recovery, and what [openWALFromSnapshot] returns in [env0]. *)
Definition cfg_forced : ServerConfig := set_flags false true cfg0.

Definition opened0 : openedWAL :=
  mkOpened 0 (HardState.mk 2%N 1%N 50%N) (map entry_at [48; 49; 50; 51; 52; 53]%N) None
    {| nodeID := 1%N; clusterID := 7%N |}.

Definition world_opened0 : World :=
  mkWorld [WALOpen (walpb.mkSnapshot 0%N 0%N); WALReadAll] [] 0 1.

(** The world after one more open of the WAL that recorded [evs]. *)
Definition after_open (w0 : World) (evs : list Event) : World :=
  mkWorld (trace w0 ++ evs) (opened w0) (next_handle w0) (S (wal_opens w0)).

(** What one attempt to open and read the WAL records. *)
Definition attempt (cfg : ServerConfig) (walsnap : walpb.Snapshot) : list Event :=
  WALOpen walsnap :: (if UnsafeNoFsync cfg then [WALSetUnsafeNoFsync] else []) ++ [WALReadAll].

(** Every repair comes right after the handle was closed. *)
Fixpoint repairs_follow_close (prev_close : bool) (tr : list Event) : bool :=
  match tr with
  | [] => true
  | e :: rest =>
      (if is_WALRepair e then prev_close else true)
      && repairs_follow_close (is_WALClose e) rest
  end.

(** The read of the WAL opened as number [k] fails with
    [io.ErrUnexpectedEOF]. *)
Definition unexpected_EOF_at (env : Env) (k : nat) : Prop :=
  exists e, wal_ReadAll env k = ReadErr e /\ is_ErrUnexpectedEOF e = true.

(** An event that is neither a save to the WAL nor the entry of a function. *)
Definition quiet (e : Event) : Prop := is_WALSave e = false /\ entered [e] = [].

(** The error of [recoverSnapshot] for a consistent index behind the snapshot. *)
Definition index_mismatch (env : Env) (cfg : ServerConfig) (kvindex index : uint64) : error :=
  Errorf "database file (%v index %d) does not match with snapshot (index %d)"
    [ArgString (BackendPath env cfg); ArgUint kvindex; ArgUint index].


(** The handle in use after [RecoverSnapshotBackend]. *)
Definition recovered_handle (env : Env) (be : handle) (w0 : World) : handle :=
  match RecoverSnapshotBackend_result env with
  | SwapBackend => next_handle w0
  | _ => be
  end.

(** The line logged when no snapshot is found. *)
Definition no_snapshot_found : string := "No snapshot found. Recovering WAL from scratch!".

(** The backend handles: which are open, and the next fresh one. *)
Definition handles (w : World) : list handle * handle := (opened w, next_handle w).

(** The functions entered so far. *)
Definition names (w : World) : list string := entered (trace w).

(** The computation [m] leaves the observation [f] of the world as it was. *)
Definition preserves {X A : Type} (f : World -> X) (m : M A) : Prop :=
  forall w, f (snd (m w)) = f w.

(** The resolver that the first switch calls in each case. *)
Definition resolver_of (p : Path) : list string :=
  match p with
  | JoinExisting => ["bootstrapExistingClusterNoWAL"]
  | FormNewCluster => ["bootstrapNewClusterNoWAL"]
  | RestartFromLog => ["bootstrapClusterWithWAL"]
  | Unsupported => []
  end.

(** The raft builder that the second switch calls in each case. *)
Definition builder_of (p : Path) : list string :=
  match p with
  | JoinExisting | FormNewCluster => ["bootstrapRaftFromCluster"]
  | RestartFromLog => ["bootstrapRaftFromSnapshot"]
  | Unsupported => []
  end.

(** What the second switch leaves in the [raft] field, case by case. *)
Definition peers_as_built (env : Env) (p : Path) (c : bootstrapedCluster.t)
    (r : bootstrappedRaft.t) : Prop :=
  match p with
  | JoinExisting | RestartFromLog => bootstrappedRaft.peers r = []
  | FormNewCluster =>
      map Peer.ID (bootstrappedRaft.peers r)
      = membership.MemberIDs (bootstrapedCluster.cl c)
      /\ Forall (fun peer =>
                   json_Marshal env
                     (membership.Member_ (bootstrapedCluster.cl c) (Peer.ID peer))
                   = inr (Peer.Context peer))
                (bootstrappedRaft.peers r)
  | Unsupported => False
  end.

(** The world holds the handles [rest], opened before, and on top of them
    the handle [be], younger than all of them. *)
Definition owns (be : handle) (rest : list handle) (w : World) : Prop :=
  opened w = be :: rest /\ Forall (fun h => h < be) rest /\ be < next_handle w.

(** Every open handle was handed out before the next fresh one. *)
Definition handles_allocated (w : World) : Prop :=
  Forall (fun h => h < next_handle w) (opened w).

(** ** Vocabulary of the further properties *)

(** The world after one more line of the log. *)
Definition logged (l : Level) (msg : string) (w : World) : World :=
  mkWorld (trace w ++ [Log l msg]) (opened w) (next_handle w) (wal_opens w).

(** The world after more events that leave the handles and the count of
    WAL opens alone. *)
Definition recorded (evs : list Event) (w : World) : World :=
  mkWorld (trace w ++ evs) (opened w) (next_handle w) (wal_opens w).

(** Nothing was discarded, or the first entry discarded lies beyond the
    commit marker. *)
Definition starts_beyond (commit : uint64) (dropped : list Entry.t) : Prop :=
  match dropped with
  | [] => True
  | e :: _ => (commit < Entry.Index e)%N
  end.

(** The bootstrapped WAL with other entries. *)
Definition with_ents (wal : bootstrappedWAL) (es : list Entry.t) : bootstrappedWAL :=
  mkWAL (w wal) (st wal) es (snapshot wal).

(** A WAL read from disk: commit 50, entries 48 to 53. *)
Definition wal0 : bootstrappedWAL :=
  mkWAL 0 (Some (HardState.mk 2%N 1%N 50%N)) (map entry_at [48; 49; 50; 51; 52; 53]%N) None.

(** [uint(size - sizeInUse)] and the threshold in bytes, as
    [maybeDefragBackend] computes them. *)
Definition freeableMemory (env : Env) (be : handle) : Z :=
  ((be_Size env be - be_SizeInUse env be) mod two64)%Z.

Definition thresholdBytes (cfg : ServerConfig) : Z :=
  ((Z.of_N (ExperimentalBootstrapDefragThresholdMegabytes cfg) * 1024 * 1024) mod two64)%Z.

(** The environment [env0] with a backend of the given size and size in
    use, whose defragmentation answers as given. *)
Definition env_sized (size sizeInUse : Z) (defrag : option error) : Env :=
  {| recommendedMaxRequestBytes := recommendedMaxRequestBytes env0;
     maxSizePerMsg := maxSizePerMsg env0; maxInflightMsgs := maxInflightMsgs env0;
     MemberDir := MemberDir env0; WALDir := WALDir env0; SnapDir := SnapDir env0;
     BackendPath := BackendPath env0; ShouldDiscover := ShouldDiscover env0;
     VerifyJoinExisting := VerifyJoinExisting env0; VerifyBootstrap := VerifyBootstrap env0;
     TouchDirAll := TouchDirAll env0; RemoveMatchFile := RemoveMatchFile env0;
     IsDirWriteable := IsDirWriteable env0; fileutil_Exist := fileutil_Exist env0;
     NewRoundTripper := NewRoundTripper env0;
     be_Size := fun _ => size; be_SizeInUse := fun _ => sizeInUse;
     be_Defrag := fun _ => defrag;
     ConsistentIndex_restored := ConsistentIndex_restored env0;
     ConsistentIndex_recovered := ConsistentIndex_recovered env0;
     schema_Validate := schema_Validate env0;
     RecoverSnapshotBackend_result := RecoverSnapshotBackend_result env0;
     st_Recovery := st_Recovery env0; AssertNoV2StoreContent := AssertNoV2StoreContent env0;
     wal_Exist := wal_Exist env0; wal_ValidSnapshotEntries := wal_ValidSnapshotEntries env0;
     LoadNewestAvailable_result := LoadNewestAvailable_result env0;
     wal_Open := wal_Open env0; wal_ReadAll := wal_ReadAll env0;
     wal_Repair := wal_Repair env0; wal_Save := wal_Save env0; wal_Create := wal_Create env0;
     Unmarshal_Metadata := Unmarshal_Metadata env0; GetIDs := GetIDs env0;
     NewClusterFromURLsMap := NewClusterFromURLsMap env0;
     getRemotePeerURLs := getRemotePeerURLs env0;
     GetClusterFromRemotePeers := GetClusterFromRemotePeers env0;
     ValidateClusterAndAssignIDs := ValidateClusterAndAssignIDs env0;
     isCompatibleWithCluster := isCompatibleWithCluster env0;
     isMemberBootstrapped := isMemberBootstrapped env0;
     JoinCluster := JoinCluster env0; NewURLsMap := NewURLsMap env0;
     CheckDuplicateURL := CheckDuplicateURL env0; Recover := Recover env0;
     LessThan := LessThan env0; json_Marshal := json_Marshal env0 |}.

(** The configuration [cfg0] with a defragmentation threshold. *)
Definition cfg_defrag (megabytes : N) : ServerConfig :=
  {| Name := Name cfg0; DataDir := DataDir cfg0; MaxRequestBytes := MaxRequestBytes cfg0;
     NewCluster := NewCluster cfg0; ForceNewCluster := ForceNewCluster cfg0;
     ExperimentalBootstrapDefragThresholdMegabytes := megabytes;
     UnsafeNoFsync := UnsafeNoFsync cfg0;
     InitialClusterToken := InitialClusterToken cfg0;
     InitialPeerURLsMap := InitialPeerURLsMap cfg0;
     DiscoveryURL := DiscoveryURL cfg0; DiscoveryProxy := DiscoveryProxy cfg0;
     TickMs := TickMs cfg0; ElectionTicks := ElectionTicks cfg0; PreVote := PreVote cfg0 |}.

(** The computation [m] records only events that [allowed] admits. *)
Definition emits_only {A : Type} (allowed : Event -> Prop) (m : M A) : Prop :=
  forall w, exists delta, trace (snd (m w)) = trace w ++ delta /\ Forall allowed delta.

(** The position at which [openWALFromSnapshot] opens the WAL. *)
Definition walsnap_of (snap0 : option Snapshot.t) : walpb.Snapshot :=
  match snap0 with
  | Some sn =>
      walpb.mkSnapshot (SnapshotMetadata.Index (Snapshot.Metadata sn))
                       (SnapshotMetadata.Term (Snapshot.Metadata sn))
  | None => walpb.mkSnapshot 0%N 0%N
  end.

(** The snapshot that the snapshotter selects among the valid positions
    of the WAL, if any. *)
Definition recovered_snapshot (env : Env) : option Snapshot.t :=
  match wal_ValidSnapshotEntries env with
  | inr walSnaps => fst (LoadNewestAvailable_result env walSnaps)
  | inl _ => None
  end.

(** The events that a bootstrap can record, by what is on disk and what is
    configured: logging and the backend handle at any time; the WAL is
    opened, read, closed and repaired only if one exists, and opened at
    the position of the selected snapshot; it is saved to only on a forced
    recovery; one is created only if none exists; fsync is disabled only
    if configured so; the v2 store is recovered only from the selected
    snapshot; and the only path removed is the backend file, when a WAL
    exists and that file did not. *)
Definition bootstrap_event (env : Env) (cfg : ServerConfig) (e : Event) : Prop :=
  let haveWAL := wal_Exist env (WALDir env cfg) in
  match e with
  | Log _ _ | Enter _ | BackendOpen _ | BackendClose _ => True
  | StoreRecovery data =>
      haveWAL = true
      /\ exists sn, recovered_snapshot env = Some sn /\ data = Snapshot.Data sn
  | RemoveAll path =>
      haveWAL = true
      /\ fileutil_Exist env (BackendPath env cfg) = false
      /\ path = BackendPath env cfg
  | WALOpen pos => haveWAL = true /\ pos = walsnap_of (recovered_snapshot env)
  | WALReadAll | WALClose | WALRepair => haveWAL = true
  | WALSave _ => haveWAL = true /\ ForceNewCluster cfg = true
  | WALCreate _ => haveWAL = false
  | WALSetUnsafeNoFsync => UnsafeNoFsync cfg = true
  | SetRaftStatus => False
  end.

(** The storage is as [bootstrapStorage] returns it: it has a backend,
    marked as pre-existing exactly if the backend file existed, holding
    the selected snapshot if there is a WAL and none otherwise. *)
Definition storage_as_bootstrapped (env : Env) (cfg : ServerConfig) (haveWAL : bool)
    (storage : bootstrappedStorage.t) : Prop :=
  exists bb,
    bootstrappedStorage.backend storage = Some bb
    /\ bootstrappedBackend.beExist bb = fileutil_Exist env (BackendPath env cfg)
    /\ bootstrappedBackend.snapshot bb = if haveWAL then recovered_snapshot env else None.

(** The events of opening the WAL at [walsnap]. *)
Definition opening_event (cfg : ServerConfig) (walsnap : walpb.Snapshot) (e : Event) : Prop :=
  match e with
  | WALOpen pos => pos = walsnap
  | WALSetUnsafeNoFsync => UnsafeNoFsync cfg = true
  | WALReadAll | WALClose | WALRepair => True
  | Log l msg => l = Info /\ msg = "repaired WAL"
  | _ => False
  end.

(** An event on an existing WAL: opening, reading, closing, repairing it
    or saving to it. *)
Definition touches_WAL (e : Event) : bool :=
  match e with
  | WALOpen _ | WALReadAll | WALClose | WALRepair | WALSave _ => true
  | _ => false
  end.

(** The raft builder's view of a bootstrapped raft: its fields but for
    the peers. *)
Definition raft_built_on (env : Env) (cfg : ServerConfig) (id : types.ID)
    (bwal : bootstrappedWAL) (r : bootstrappedRaft.t) : Prop :=
  bootstrappedRaft.heartbeat r = heartbeat_of cfg
  /\ bootstrappedRaft.storage r = MemoryStorage bwal
  /\ bootstrappedRaft.config r = raftConfig env cfg id (MemoryStorage bwal).

(** The name under which each no-WAL resolver is entered. *)
Definition resolver_name (newCluster : bool) : string :=
  if newCluster then "bootstrapNewClusterNoWAL" else "bootstrapExistingClusterNoWAL".

(** What creating a WAL records. *)
Definition creation (cfg : ServerConfig) (md : Metadata.t) : list Event :=
  WALCreate md :: (if UnsafeNoFsync cfg then [WALSetUnsafeNoFsync] else []).



(** The environment [env0] where one directory is not writeable. *)
Definition env_unwriteable (unwriteable : string) : Env :=
  {| recommendedMaxRequestBytes := recommendedMaxRequestBytes env0;
     maxSizePerMsg := maxSizePerMsg env0; maxInflightMsgs := maxInflightMsgs env0;
     MemberDir := MemberDir env0; WALDir := WALDir env0; SnapDir := SnapDir env0;
     BackendPath := BackendPath env0; ShouldDiscover := ShouldDiscover env0;
     VerifyJoinExisting := VerifyJoinExisting env0; VerifyBootstrap := VerifyBootstrap env0;
     TouchDirAll := TouchDirAll env0; RemoveMatchFile := RemoveMatchFile env0;
     IsDirWriteable :=
       fun path => if String.eqb path unwriteable
                   then Some (External "read-only file system") else None;
     fileutil_Exist := fileutil_Exist env0; NewRoundTripper := NewRoundTripper env0;
     be_Size := be_Size env0; be_SizeInUse := be_SizeInUse env0; be_Defrag := be_Defrag env0;
     ConsistentIndex_restored := ConsistentIndex_restored env0;
     ConsistentIndex_recovered := ConsistentIndex_recovered env0;
     schema_Validate := schema_Validate env0;
     RecoverSnapshotBackend_result := RecoverSnapshotBackend_result env0;
     st_Recovery := st_Recovery env0; AssertNoV2StoreContent := AssertNoV2StoreContent env0;
     wal_Exist := wal_Exist env0; wal_ValidSnapshotEntries := wal_ValidSnapshotEntries env0;
     LoadNewestAvailable_result := LoadNewestAvailable_result env0;
     wal_Open := wal_Open env0; wal_ReadAll := wal_ReadAll env0;
     wal_Repair := wal_Repair env0; wal_Save := wal_Save env0; wal_Create := wal_Create env0;
     Unmarshal_Metadata := Unmarshal_Metadata env0; GetIDs := GetIDs env0;
     NewClusterFromURLsMap := NewClusterFromURLsMap env0;
     getRemotePeerURLs := getRemotePeerURLs env0;
     GetClusterFromRemotePeers := GetClusterFromRemotePeers env0;
     ValidateClusterAndAssignIDs := ValidateClusterAndAssignIDs env0;
     isCompatibleWithCluster := isCompatibleWithCluster env0;
     isMemberBootstrapped := isMemberBootstrapped env0;
     JoinCluster := JoinCluster env0; NewURLsMap := NewURLsMap env0;
     CheckDuplicateURL := CheckDuplicateURL env0; Recover := Recover env0;
     LessThan := LessThan env0; json_Marshal := json_Marshal env0 |}.

(** A new cluster formed through a discovery service. *)
Definition cfg_discovery : ServerConfig :=
  {| Name := Name cfg0; DataDir := DataDir cfg0; MaxRequestBytes := MaxRequestBytes cfg0;
     NewCluster := true; ForceNewCluster := false;
     ExperimentalBootstrapDefragThresholdMegabytes := 0;
     UnsafeNoFsync := UnsafeNoFsync cfg0;
     InitialClusterToken := InitialClusterToken cfg0;
     InitialPeerURLsMap := InitialPeerURLsMap cfg0;
     DiscoveryURL := "https://discovery.etcd.io/3e86b59982e49066c5d813af1c2e2579cbf573de";
     DiscoveryProxy := ""; TickMs := TickMs cfg0; ElectionTicks := ElectionTicks cfg0;
     PreVote := PreVote cfg0 |}.

(** * Properties *)

(** ** The in-memory storage *)

Lemma replay_app {S} `{StorageImpl S} (a b : MemoryStorage_t) :
  replay (a ++ b) = fold_left run_op b (replay a).
Proof. unfold replay. apply fold_left_app. Qed.

(** C5: [MemoryStorage] applies the snapshot first (if present), then the
    hard state (if present), then the entries (if there are any), and
    nothing else: the history of the storage it returns is exactly these
    calls in this order, the positions of the calls are strictly
    increasing, and on any implementation of the storage the result is the
    entries appended to the hard state set on the snapshot applied to a
    new storage. *)
Theorem MemoryStorage_application_order (wal : bootstrappedWAL) :
  MemoryStorage wal =
    (match snapshot wal with Some sn => [ApplySnapshot sn] | None => [] end)
    ++ (match st wal with Some hs => [SetHardState hs] | None => [] end)
    ++ (match ents wal with [] => [] | _ :: _ => [Append (ents wal)] end)
  /\ StronglySorted lt (map op_rank (MemoryStorage wal))
  /\ forall (S : Type) (impl : StorageImpl S),
       replay (MemoryStorage wal) =
         (match ents wal with [] => fun s => s | _ :: _ => impl_Append (ents wal) end)
           ((match st wal with Some hs => impl_SetHardState hs | None => fun s => s end)
              ((match snapshot wal with Some sn => impl_ApplySnapshot sn | None => fun s => s end)
                 impl_new)).
Proof.
  destruct wal as [h hs es sn]; unfold MemoryStorage; simpl.
  destruct sn as [sn|], hs as [hs|], es as [|e es]; simpl;
    (split; [reflexivity | split; [| intros; reflexivity]]);
    repeat (constructor; simpl; try lia).
Qed.

(** ** Forced recovery *)

Section ForcedRecovery.

Lemma take_committed_bound (commit : uint64) (l : list Entry.t) :
  Forall (fun e => (Entry.Index e <= commit)%N) (take_committed commit l).
Proof.
  induction l as [|e l IH]; simpl; [constructor|].
  destruct (N.ltb_spec commit (Entry.Index e)); constructor; auto.
Qed.

Lemma take_committed_sorted (commit : uint64) (l : list Entry.t) :
  StronglySorted N.lt (indices l) -> StronglySorted N.lt (indices (take_committed commit l)).
Proof.
  induction l as [|e l IH]; simpl; intros Hs; [constructor|].
  inversion Hs as [|? ? Hs' Hall]; subst.
  destruct (N.ltb commit (Entry.Index e)); simpl; constructor; auto.
  clear - Hall. induction l as [|a l IH]; simpl; [constructor|].
  inversion Hall; subst. destruct (N.ltb commit (Entry.Index a)); simpl; constructor; auto.
Qed.

(** On increasing indices the scan discards exactly the entries beyond
    the commit marker. *)
Lemma take_committed_filter (commit : uint64) (l : list Entry.t) :
  StronglySorted N.lt (indices l) ->
  take_committed commit l = filter (fun e => N.leb (Entry.Index e) commit) l.
Proof.
  induction l as [|e l IH]; simpl; intros Hs; [reflexivity|].
  inversion Hs as [|? ? Hs' Hall]; subst.
  destruct (N.ltb_spec commit (Entry.Index e)) as [Hlt|Hge].
  - destruct (N.leb_spec (Entry.Index e) commit); [lia|].
    symmetry. clear - Hall Hlt.
    induction l as [|a l IH]; simpl; [reflexivity|].
    inversion Hall; subst.
    destruct (N.leb_spec (Entry.Index a) commit); [lia | auto].
  - destruct (N.leb_spec (Entry.Index e) commit); [|lia].
    f_equal; auto.
Qed.

Lemma contiguous_sorted (l : list uint64) : contiguous l -> StronglySorted N.lt l.
Proof.
  induction l as [|a l IH]; intros Hc; [constructor|].
  destruct l as [|b l]; [repeat constructor|].
  destruct Hc as [Hb Hc]. specialize (IH Hc).
  constructor; [assumption|].
  inversion IH as [|? ? _ Hall]; subst.
  constructor; [lia|].
  eapply Forall_impl; [|exact Hall]. simpl; intros; lia.
Qed.

(** The [range] loop returns the scanned prefix. *)
Lemma CommitedEntries_range_spec (hs : HardState.t) (rest pre : list Entry.t) (w0 : World) :
  exists w1,
    CommitedEntries_range (Some hs) (pre ++ rest) rest (length pre) w0
    = (Ret (pre ++ take_committed (HardState.Commit hs) rest), w1)
    /\ count is_WALSave (trace w1) = count is_WALSave (trace w0).
Proof.
  revert pre w0. induction rest as [|e rest IH]; intros pre w0; simpl.
  - exists w0. rewrite app_nil_r. split; reflexivity.
  - destruct (N.ltb (HardState.Commit hs) (Entry.Index e)).
    + eexists. unfold bind, log, emit, ret; simpl. split.
      * rewrite firstn_app, firstn_all, Nat.sub_diag. reflexivity.
      * unfold count; simpl. rewrite filter_app, length_app. simpl. lia.
    + specialize (IH (pre ++ [e]) w0).
      rewrite <- app_assoc in IH. simpl in IH.
      rewrite length_app in IH. simpl in IH. rewrite Nat.add_1_r in IH.
      destruct IH as [w1 [H1 H2]]. exists w1. rewrite H1, <- app_assoc. auto.
Qed.

Lemma CreateConfigChangeEnts_from_indices (ids : list uint64) (self term next : uint64) :
  indices (CreateConfigChangeEnts_from ids self term next)
  = map (fun k => (next + N.of_nat k)%N)
        (seq 0 (length (filter (fun id => negb (N.eqb id self)) ids))).
Proof.
  revert next. induction ids as [|id ids IH]; intros next; simpl; [reflexivity|].
  destruct (N.eqb id self); simpl; [apply IH|].
  rewrite N.add_0_r. f_equal.
  rewrite IH, <- seq_shift, map_map.
  apply map_ext. intros k. lia.
Qed.

Lemma CreateConfigChangeEnts_length (ids : list uint64) (self term index : uint64) :
  length (CreateConfigChangeEnts ids self term index)
  = length (filter (fun id => negb (N.eqb id self)) ids).
Proof.
  rewrite <- (length_map Entry.Index). fold (indices (CreateConfigChangeEnts ids self term index)).
  unfold CreateConfigChangeEnts.
  rewrite CreateConfigChangeEnts_from_indices, length_map, length_seq. reflexivity.
Qed.

(** Removing the one occurrence of the local node leaves one ID less. *)
Lemma others_length (ids : list uint64) (self : uint64) :
  NoDup ids -> In self ids ->
  length (filter (fun id => negb (N.eqb id self)) ids) = length ids - 1.
Proof.
  induction ids as [|id ids IH]; intros Hnd Hin; [destruct Hin|].
  inversion Hnd as [|? ? Hnotin Hnd']; subst. simpl.
  destruct (N.eqb_spec id self) as [->|Hne]; simpl.
  - rewrite Nat.sub_0_r.
    clear - Hnotin. induction ids as [|a ids IH]; simpl; [reflexivity|].
    destruct (N.eqb_spec a self) as [->|]; simpl.
    + exfalso. apply Hnotin. left; reflexivity.
    + f_equal. apply IH. intros H. apply Hnotin. right; assumption.
  - destruct Hin as [->|Hin]; [congruence|].
    rewrite (IH Hnd' Hin). destruct ids; [destruct Hin | simpl; lia].
Qed.

End ForcedRecovery.

Lemma last_entry_some (l : list Entry.t) : l <> [] -> exists e, last_entry l = Some e.
Proof.
  intros Hne. unfold last_entry.
  destruct (nth_error l (length l - 1)) eqn:E; [eauto|].
  apply nth_error_None in E. destruct l; [congruence | simpl in E; lia].
Qed.

Lemma last_entry_app (a b : list Entry.t) : b <> [] -> last_entry (a ++ b) = last_entry b.
Proof.
  intros Hne. unfold last_entry. rewrite length_app.
  assert (0 < length b) by (destruct b; [congruence | simpl; lia]).
  rewrite nth_error_app2 by lia. f_equal. lia.
Qed.

(** What [AppendAndCommitEntries] leaves behind when the save succeeds. *)
Lemma AppendAndCommitEntries_spec (env : Env) (wal : bootstrappedWAL) (new : list Entry.t)
    (hs : HardState.t) (w0 : World) :
  wal_Save env = None -> st wal = Some hs ->
  AppendAndCommitEntries env wal new w0
  = (Ret (mkWAL (w wal)
            (Some (match last_entry (ents wal ++ new) with
                   | Some e => HardState.set_Commit (Entry.Index e) hs
                   | None => hs
                   end))
            (ents wal ++ new) (snapshot wal)),
     mkWorld (trace w0 ++ [WALSave new]) (opened w0) (next_handle w0) (wal_opens w0)).
Proof.
  intros Hsave Hst. unfold AppendAndCommitEntries, bind, emit. simpl. rewrite Hsave, Hst.
  destruct (ents wal ++ new) as [|e l] eqn:E.
  - reflexivity.
  - destruct (last_entry_some (l := e :: l)) as [x Hx]; [discriminate|].
    simpl length. simpl Nat.eqb. simpl negb. cbv iota. rewrite Hx. reflexivity.
Qed.

(** C3: on a forced recovery of a WAL whose entries are contiguous, the
    entries kept are those at or below the commit marker read from the
    WAL; the synthesized entries, one per known member other than the
    local node, sit at commit+1, commit+2, ..., above every entry kept and
    strictly increasing; and when at least one was appended the commit
    marker becomes the index of the last of them, commit + N for N
    appended entries (51+N-1 for commit 50). *)
Theorem forced_recovery_ordering (env : Env) (cfg : ServerConfig)
    (snap0 : option Snapshot.t) (w0 w1 : World) (o : openedWAL) :
  ForceNewCluster cfg = true ->
  openWALFromSnapshot env cfg snap0 w0 = (Ret o, w1) ->
  wal_Save env = None ->
  contiguous (indices (o_ents o)) ->
  let commit := HardState.Commit (o_st o) in
  let retained := filter (fun e => N.leb (Entry.Index e) commit) (o_ents o) in
  let ids := GetIDs env (o_snapshot o) retained in
  let self := nodeID (o_meta o) in
  let synth := CreateConfigChangeEnts ids self (HardState.Term (o_st o)) commit in
  exists bwal w2,
    bootstrapWALFromSnapshot env cfg snap0 w0 = (Ret (bwal, o_meta o), w2)
    /\ ents bwal = retained ++ synth
    /\ Forall (fun e => (Entry.Index e <= commit)%N) retained
    /\ indices synth = map (fun k => (commit + 1 + N.of_nat k)%N) (seq 0 (length synth))
    /\ StronglySorted N.lt (indices (retained ++ synth))
    /\ length synth = length (filter (fun id => negb (N.eqb id self)) ids)
    /\ (NoDup ids -> In self ids -> length synth = length ids - 1)
    /\ (synth <> [] ->
        exists e, last_entry synth = Some e
                  /\ st bwal = Some (HardState.set_Commit (Entry.Index e) (o_st o))
                  /\ Entry.Index e = (commit + N.of_nat (length synth))%N).
Proof.
  intros Hforce Hopen Hsave Hcont commit retained ids self synth.
  pose proof (contiguous_sorted _ Hcont) as Hsorted.
  pose proof (@take_committed_filter commit _ Hsorted) as Hfilter. fold retained in Hfilter.
  destruct (CommitedEntries_range_spec (o_st o) (o_ents o) [] w1) as [w1' [Hscan _]].
  simpl in Hscan. fold commit in Hscan. rewrite Hfilter in Hscan.
  assert (Hidx : indices synth
                 = map (fun k => (commit + 1 + N.of_nat k)%N) (seq 0 (length synth))).
  { unfold synth at 1. unfold CreateConfigChangeEnts.
    rewrite CreateConfigChangeEnts_from_indices.
    unfold synth. rewrite CreateConfigChangeEnts_length. reflexivity. }
  assert (Hret : Forall (fun e => (Entry.Index e <= commit)%N) retained).
  { rewrite <- Hfilter. apply take_committed_bound. }
  eexists. eexists. split.
  { unfold bootstrapWALFromSnapshot, bind. rewrite Hopen, Hforce.
    unfold CommitedEntries. simpl. rewrite Hscan. simpl.
    fold commit. fold retained. fold ids. fold self. fold synth.
    rewrite AppendAndCommitEntries_spec with (hs := o_st o) by (assumption || reflexivity).
    simpl. unfold log, emit, ret. simpl. reflexivity. }
  simpl. split; [reflexivity|]. split; [assumption|]. split; [assumption|].
  split.
  { unfold indices. rewrite map_app. fold (indices retained). fold (indices synth).
    rewrite Hidx. generalize (length synth) as n.
    assert (Hrs : StronglySorted N.lt (indices retained)).
    { rewrite <- Hfilter. apply take_committed_sorted. assumption. }
    assert (Hle : Forall (fun i => (i <= commit)%N) (indices retained)).
    { unfold indices. rewrite Forall_map. assumption. }
    clear - Hrs Hle. intros n.
    induction (indices retained) as [|a l IH]; simpl.
    - generalize 0 as s. induction n as [|n IHn]; intros s; simpl; constructor; [apply IHn|].
      rewrite Forall_map, Forall_forall. intros k Hk. apply in_seq in Hk. lia.
    - inversion Hrs; subst. inversion Hle; subst. constructor; [auto|].
      apply Forall_app. split; [assumption|].
      rewrite Forall_map, Forall_forall. intros k _. lia. }
  split; [apply CreateConfigChangeEnts_length|].
  split.
  { intros Hnd Hin. unfold synth. rewrite CreateConfigChangeEnts_length.
    apply others_length; assumption. }
  intros Hne. destruct (last_entry_some Hne) as [e He].
  rewrite (last_entry_app retained Hne), He.
  exists e. repeat split; auto.
  assert (Hn : nth_error (indices synth) (length synth - 1) = Some (Entry.Index e)).
  { unfold indices. rewrite nth_error_map. unfold last_entry in He. rewrite He. reflexivity. }
  rewrite Hidx in Hn. rewrite nth_error_map in Hn.
  assert (0 < length synth) by (destruct synth; [congruence | simpl; lia]).
  rewrite nth_error_nth' with (d := 0) in Hn by (rewrite length_seq; lia).
  rewrite seq_nth in Hn by lia. simpl in Hn. inversion Hn. lia.
Qed.

(** Commit 50, entries 48 to 53, members 1, 2, 3 with 1 the local node:
    entries 48 to 50 are kept, two entries are appended at 51 and 52, and
    the commit marker ends at 52. *)
Lemma forced_recovery_ordering_witness :
  exists bwal w2,
    bootstrapWALFromSnapshot env0 cfg_forced None initial_world
    = (Ret (bwal, o_meta opened0), w2)
    /\ indices (ents bwal) = [48; 49; 50; 51; 52]%N
    /\ st bwal = Some (HardState.mk 2%N 1%N 52%N).
Proof.
  assert (H1 : ForceNewCluster cfg_forced = true) by reflexivity.
  assert (H2 : openWALFromSnapshot env0 cfg_forced None initial_world
               = (Ret opened0, world_opened0)) by (vm_compute; reflexivity).
  assert (H3 : wal_Save env0 = None) by reflexivity.
  assert (H4 : contiguous (indices (o_ents opened0))) by (vm_compute; repeat split).
  destruct (@forced_recovery_ordering env0 cfg_forced None initial_world world_opened0 opened0
              H1 H2 H3 H4)
    as (bwal & w2 & Hb & He & _ & _ & _ & _ & _ & Hc).
  exists bwal, w2. split; [exact Hb|]. split.
  - rewrite He. vm_compute. reflexivity.
  - destruct Hc as (e & Hl & Hst & _); [vm_compute; discriminate|].
    rewrite Hst. vm_compute in Hl. inversion Hl. reflexivity.
Defined.

(** ** The WAL repair loop *)

(** One turn of the loop. *)
Lemma openWAL_loop_step env cfg walsnap sn repaired w0 :
  openWAL_loop env cfg walsnap sn repaired w0 =
  match openWAL_body env cfg walsnap sn repaired w0 with
  | (Ret (Return a), w1) => (Ret a, w1)
  | (Ret (Continue r'), w1) => openWAL_loop env cfg walsnap sn r' w1
  | (Fatal m, w1) => (Fatal m, w1)
  | (Panic m, w1) => (Panic m, w1)
  end.
Proof.
  funelim (openWAL_loop env cfg walsnap sn repaired w0);
    match goal with
    | H : openWAL_body _ _ _ _ _ _ = _ |- _ => rewrite H
    end; reflexivity.
Qed.

(** The body of the loop, by the answers of the WAL. *)
Lemma openWAL_body_cases env cfg walsnap sn repaired w0 :
  openWAL_body env cfg walsnap sn repaired w0 =
  let n := wal_opens w0 in
  match wal_Open env n with
  | Some _ => (Fatal "failed to open WAL", after_open w0 [WALOpen walsnap])
  | None =>
      match wal_ReadAll env n with
      | ReadOK md hs es =>
          match Unmarshal_Metadata env md with
          | None => (Panic "unmarshal should never fail", after_open w0 (attempt cfg walsnap))
          | Some m =>
              (Ret (Return (mkOpened n hs es sn
                              {| nodeID := Metadata.NodeID m;
                                 clusterID := Metadata.ClusterID m |})),
               after_open w0 (attempt cfg walsnap))
          end
      | ReadErr e =>
          if repaired || negb (is_ErrUnexpectedEOF e) then
            (Fatal "failed to read WAL, cannot be repaired",
             after_open w0 (attempt cfg walsnap ++ [WALClose]))
          else if wal_Repair env n then
            (Ret (Continue true),
             after_open w0 (attempt cfg walsnap
                            ++ [WALClose; WALRepair; Log Info "repaired WAL"]))
          else
            (Fatal "failed to repair WAL",
             after_open w0 (attempt cfg walsnap ++ [WALClose; WALRepair]))
      end
  end.
Proof.
  unfold openWAL_body, bind, wal_Open_call, emit, log, ret, fatal, panic, after_open, attempt.
  cbn [fst snd trace opened next_handle wal_opens].
  destruct (wal_Open env (wal_opens w0)); [reflexivity|].
  destruct (UnsafeNoFsync cfg); cbn [trace opened next_handle wal_opens];
    (destruct (wal_ReadAll env (wal_opens w0)) as [md hs es|e];
     [ destruct (Unmarshal_Metadata env md); cbn; rewrite <- ?app_assoc; reflexivity
     | destruct (repaired || negb (is_ErrUnexpectedEOF e));
       [| destruct (wal_Repair env (wal_opens w0))];
       cbn; rewrite <- ?app_assoc; reflexivity ]).
Qed.

Ltac same_answer :=
  repeat match goal with
         | H : exists _, _ |- _ => destruct H
         | H : _ /\ _ |- _ => destruct H
         | H : unexpected_EOF_at _ _ |- _ => unfold unexpected_EOF_at in H
         end;
  repeat match goal with
         | H : ?x = _, H' : ?x = _ |- _ => rewrite H in H'; inversion H'; subst; clear H'
         end;
  try congruence.

Ltac loop_leaf :=
  eexists; split; [cbn [trace snd fst after_open]; rewrite <- ?app_assoc; reflexivity|];
  cbn [fst snd wal_opens after_open];
  repeat match goal with
         | |- _ /\ _ => split
         | |- _ <-> _ => split
         end;
  intros; cbn in *; try lia; try reflexivity; try discriminate;
  unfold unexpected_EOF_at; same_answer; eauto 6.

(** C4: [openWALFromSnapshot] is a total function whose loop opens the
    WAL once or twice and calls the repair at most once.  The repair is
    called exactly when the first read fails with [io.ErrUnexpectedEOF],
    right after the handle is closed; the open and read are retried, once,
    exactly when that repair succeeds; any other error of the first read,
    and any error of the read after a repair, a second unexpected EOF
    included, is fatal. *)
Theorem repair_at_most_once (env : Env) (cfg : ServerConfig) (snap0 : option Snapshot.t)
    (w0 : World) :
  let r := openWALFromSnapshot env cfg snap0 w0 in
  let n := wal_opens w0 in
  exists delta,
    trace (snd r) = trace w0 ++ delta
    /\ count is_WALRepair delta <= 1
    /\ 1 <= count is_WALOpen delta <= 2
    /\ wal_opens (snd r) = n + count is_WALOpen delta
    /\ repairs_follow_close false delta = true
    /\ (count is_WALRepair delta = 1 <->
        wal_Open env n = None /\ unexpected_EOF_at env n)
    /\ (count is_WALOpen delta = 2 <->
        wal_Open env n = None /\ unexpected_EOF_at env n /\ wal_Repair env n = true)
    /\ (forall e, wal_Open env n = None -> wal_ReadAll env n = ReadErr e ->
                  is_ErrUnexpectedEOF e = false ->
                  fst r = Fatal "failed to read WAL, cannot be repaired")
    /\ (forall e, count is_WALOpen delta = 2 -> wal_Open env (S n) = None ->
                  wal_ReadAll env (S n) = ReadErr e ->
                  fst r = Fatal "failed to read WAL, cannot be repaired").
Proof.
  intros r n. subst r. unfold openWALFromSnapshot.
  rewrite openWAL_loop_step, openWAL_body_cases. fold n. unfold attempt.
  cbn [orb].
  destruct (wal_Open env n) eqn:Ho1; [destruct (UnsafeNoFsync cfg); loop_leaf|].
  destruct (wal_ReadAll env n) as [md hs es|e] eqn:Hr1.
  { destruct (Unmarshal_Metadata env md); destruct (UnsafeNoFsync cfg); loop_leaf. }
  destruct (is_ErrUnexpectedEOF e) eqn:Heof; cbn [negb];
    [|destruct (UnsafeNoFsync cfg); loop_leaf].
  destruct (wal_Repair env n) eqn:Hrep; [|destruct (UnsafeNoFsync cfg); loop_leaf].
  rewrite openWAL_loop_step, openWAL_body_cases.
  cbn [wal_opens after_open orb]. fold n. unfold attempt.
  destruct (wal_Open env (S n)) eqn:Ho2; [destruct (UnsafeNoFsync cfg); loop_leaf|].
  destruct (wal_ReadAll env (S n)) as [md hs es|e2] eqn:Hr2.
  { destruct (Unmarshal_Metadata env md); destruct (UnsafeNoFsync cfg); loop_leaf. }
  destruct (UnsafeNoFsync cfg); loop_leaf.
Qed.

(** A truncated tail that the repair fixes: closed, repaired, reopened and
    read, in this order. *)
Example repair_then_retry :
  openWALFromSnapshot env_truncated cfg0 None initial_world
  = (Ret (mkOpened 1 (HardState.mk 2%N 1%N 50%N)
            (map entry_at [48; 49; 50; 51; 52; 53]%N) None
            {| nodeID := 1%N; clusterID := 7%N |}),
     mkWorld [WALOpen (walpb.mkSnapshot 0%N 0%N); WALReadAll; WALClose; WALRepair;
              Log Info "repaired WAL";
              WALOpen (walpb.mkSnapshot 0%N 0%N); WALReadAll] [] 0 2).
Proof. vm_compute. reflexivity. Qed.

(** A tail still truncated after the repair is fatal; the repair is not
    run again. *)
Example second_truncation_is_fatal :
  openWALFromSnapshot env_truncated_twice cfg0 None initial_world
  = (Fatal "failed to read WAL, cannot be repaired",
     mkWorld [WALOpen (walpb.mkSnapshot 0%N 0%N); WALReadAll; WALClose; WALRepair;
              Log Info "repaired WAL";
              WALOpen (walpb.mkSnapshot 0%N 0%N); WALReadAll; WALClose] [] 0 2).
Proof. vm_compute. reflexivity. Qed.

(** ** Effects that a computation leaves alone *)

Lemma count_app (p : Event -> bool) (a b : list Event) :
  count p (a ++ b) = count p a + count p b.
Proof. unfold count. rewrite filter_app, length_app. reflexivity. Qed.

Lemma entered_app (a b : list Event) : entered (a ++ b) = entered a ++ entered b.
Proof.
  induction a as [|e a IH]; simpl; [reflexivity|].
  destruct e; simpl; rewrite ?IH; reflexivity.
Qed.

Lemma quiet_events (tr evs : list Event) :
  Forall quiet evs ->
  count is_WALSave (tr ++ evs) = count is_WALSave tr
  /\ entered (tr ++ evs) = entered tr.
Proof.
  intros H. rewrite count_app, entered_app.
  assert (E : count is_WALSave evs = 0 /\ entered evs = []).
  { induction H as [|e evs [H1 H2] _ [IH1 IH2]]; [split; reflexivity|].
    split.
    - unfold count in *. simpl. rewrite H1. assumption.
    - change (e :: evs) with ([e] ++ evs). rewrite entered_app, H2, IH2. reflexivity. }
  destruct E as [E1 E2]. rewrite E1, E2, app_nil_r. split; [lia | reflexivity].
Qed.

Ltac frame_leaf :=
  cbn [fst snd trace opened next_handle after_open]; rewrite <- ?app_assoc;
  split; [apply quiet_events; repeat constructor
         | split; [apply quiet_events; repeat constructor
                  | repeat split; intros;
                    try match goal with
                        | H : Ret _ = Ret _ |- _ => inversion H; reflexivity
                        end; try congruence]].

(** Opening the WAL saves nothing to it, leaves the backend handles
    alone, enters no function of the resolver, and hands back the
    snapshot it was given. *)
Lemma openWALFromSnapshot_frame env cfg snap0 w0 :
  let r := openWALFromSnapshot env cfg snap0 w0 in
  count is_WALSave (trace (snd r)) = count is_WALSave (trace w0)
  /\ entered (trace (snd r)) = entered (trace w0)
  /\ opened (snd r) = opened w0
  /\ next_handle (snd r) = next_handle w0
  /\ (forall o, fst r = Ret o -> o_snapshot o = snap0).
Proof.
  intros r. subst r. unfold openWALFromSnapshot.
  rewrite openWAL_loop_step, openWAL_body_cases. unfold attempt. cbn [orb].
  destruct (wal_Open env (wal_opens w0)); [frame_leaf|].
  destruct (wal_ReadAll env (wal_opens w0)) as [md hs es|e].
  { destruct (Unmarshal_Metadata env md); destruct (UnsafeNoFsync cfg); frame_leaf. }
  destruct (is_ErrUnexpectedEOF e); cbn [negb]; [|destruct (UnsafeNoFsync cfg); frame_leaf].
  destruct (wal_Repair env (wal_opens w0)); [|destruct (UnsafeNoFsync cfg); frame_leaf].
  rewrite openWAL_loop_step, openWAL_body_cases. unfold attempt.
  cbn [wal_opens after_open orb].
  destruct (wal_Open env (S (wal_opens w0))); [destruct (UnsafeNoFsync cfg); frame_leaf|].
  destruct (wal_ReadAll env (S (wal_opens w0))) as [md hs es|e2].
  { destruct (Unmarshal_Metadata env md); destruct (UnsafeNoFsync cfg); frame_leaf. }
  destruct (UnsafeNoFsync cfg); frame_leaf.
Qed.

(** ** Restart without forced recovery *)

(** C10: with [ForceNewCluster] off, [bootstrapWALFromSnapshot] returns
    the hard state, the entries and the snapshot of [openWALFromSnapshot]
    as they are (the snapshot being the one passed in), logs one line, and
    saves nothing to the WAL; when opening the WAL ends the process or
    panics, so does it. *)
Theorem restart_passes_WAL_through (env : Env) (cfg : ServerConfig)
    (snap0 : option Snapshot.t) (w0 : World) :
  ForceNewCluster cfg = false ->
  let r := openWALFromSnapshot env cfg snap0 w0 in
  let r' := bootstrapWALFromSnapshot env cfg snap0 w0 in
  match fst r with
  | Ret o =>
      r' = (Ret (mkWAL (o_w o) (Some (o_st o)) (o_ents o) snap0, o_meta o),
            mkWorld (trace (snd r) ++ [Log Info "restarting local member"])
              (opened (snd r)) (next_handle (snd r)) (wal_opens (snd r)))
  | Fatal m => r' = (Fatal m, snd r)
  | Panic m => r' = (Panic m, snd r)
  end
  /\ count is_WALSave (trace (snd r')) = count is_WALSave (trace w0).
Proof.
  intros Hforce r r'. subst r r'.
  destruct (openWALFromSnapshot_frame env cfg snap0 w0) as (Hsave & _ & _ & _ & Hsnap).
  unfold bootstrapWALFromSnapshot, bind.
  destruct (openWALFromSnapshot env cfg snap0 w0) as [[o|m|m] w1]; cbn [fst snd] in *.
  - rewrite Hforce. unfold log, emit, ret, bind. cbn [fst snd trace].
    rewrite (Hsnap o eq_refl). split; [reflexivity|].
    rewrite count_app, Hsave. unfold count; simpl. lia.
  - split; [reflexivity | assumption].
  - split; [reflexivity | assumption].
Qed.

(** The WAL of [env0], commit 50 and entries 48 to 53, comes out whole. *)
Lemma restart_passes_WAL_through_witness :
  ForceNewCluster cfg0 = false
  /\ fst (bootstrapWALFromSnapshot env0 cfg0 None initial_world)
     = Ret (mkWAL 0 (Some (HardState.mk 2%N 1%N 50%N))
              (map entry_at [48; 49; 50; 51; 52; 53]%N) None,
            {| nodeID := 1%N; clusterID := 7%N |}).
Proof.
  split; [reflexivity|].
  pose proof (@restart_passes_WAL_through env0 cfg0 None initial_world eq_refl) as [H _].
  change (openWALFromSnapshot env0 cfg0 None initial_world)
    with (Ret opened0, world_opened0) in H.
  cbn [fst snd] in H. rewrite H. reflexivity.
Defined.

(** ** The snapshot recoverer *)

(** Runs the monadic plumbing of a goal. *)
Ltac run_monad :=
  cbv beta iota zeta delta [bind emit log ret fatal panic be_Close OpenBackend];
  cbn [fst snd trace opened next_handle wal_opens].




(** The selection returns a snapshot that a valid position of the log
    refers to, passing over the newer files, or reports that there is
    none after passing over every file; it reports no other error. *)
Lemma LoadNewestAvailable_selects (files : list (option Snapshot.t))
    (walSnaps : list walpb.Snapshot) :
  (exists s newer older,
      snap.LoadNewestAvailable files walSnaps = (Some s, None)
      /\ files = newer ++ Some s :: older
      /\ snap.referenced walSnaps s = true
      /\ Forall (snap.skipped walSnaps) newer)
  \/ (snap.LoadNewestAvailable files walSnaps = (None, Some ErrNoSnapshot)
      /\ Forall (snap.skipped walSnaps) files).
Proof.
  induction files as [|f files IH]; simpl.
  - right. split; [reflexivity | constructor].
  - destruct f as [s|].
    + destruct (snap.referenced walSnaps s) eqn:Href.
      * left. exists s, [], files. repeat split; auto.
      * destruct IH as [(s' & newer & older & H1 & H2 & H3 & H4) | [H1 H2]].
        -- left. exists s', (Some s :: newer), older.
           repeat split; [exact H1 | simpl; congruence | exact H3 |].
           constructor; assumption.
        -- right. split; [assumption|]. constructor; assumption.
    + destruct IH as [(s' & newer & older & H1 & H2 & H3 & H4) | [H1 H2]].
      * left. exists s', (None :: newer), older.
        repeat split; [exact H1 | simpl; congruence | exact H3 |].
        constructor; [exact I | assumption].
      * right. split; [assumption|]. constructor; [exact I | assumption].
Qed.

(** C9: the snapshot selected is one that a valid position of the WAL
    refers to, files that do not load or that no position refers to being
    passed over; when none is found, [recoverSnapshot] returns no
    snapshot, the backend handle it was given and no error, having only
    logged that it recovers from scratch; an error of the selection other
    than the no-snapshot condition is returned as it is, with the same
    handle. *)
Theorem snapshot_selection (env : Env) (cfg : ServerConfig) (be : handle) (beExist : bool)
    (w0 : World) (walSnaps : list walpb.Snapshot) :
  wal_ValidSnapshotEntries env = inr walSnaps ->
  (forall files s,
      snap.LoadNewestAvailable files walSnaps = (Some s, None) ->
      exists newer older,
        files = newer ++ Some s :: older
        /\ snap.referenced walSnaps s = true
        /\ Forall (snap.skipped walSnaps) newer)
  /\ (forall files,
         LoadNewestAvailable_result env = snap.LoadNewestAvailable files ->
         Forall (snap.skipped walSnaps) files ->
         recoverSnapshot env cfg be beExist w0
         = (Ret (None, be, None),
            mkWorld (trace w0 ++ [Log Info no_snapshot_found]) (opened w0)
              (next_handle w0) (wal_opens w0)))
  /\ (forall err,
         LoadNewestAvailable_result env walSnaps = (None, err) ->
         other_than_ErrNoSnapshot err = None ->
         recoverSnapshot env cfg be beExist w0
         = (Ret (None, be, None),
            mkWorld (trace w0 ++ [Log Info no_snapshot_found]) (opened w0)
              (next_handle w0) (wal_opens w0)))
  /\ (forall s e,
         LoadNewestAvailable_result env walSnaps = (s, Some e) ->
         is_ErrNoSnapshot e = false ->
         recoverSnapshot env cfg be beExist w0 = (Ret (None, be, Some e), w0)).
Proof.
  intros Hvalid.
  assert (Hnone : forall err,
             LoadNewestAvailable_result env walSnaps = (None, err) ->
             other_than_ErrNoSnapshot err = None ->
             recoverSnapshot env cfg be beExist w0
             = (Ret (None, be, None),
                mkWorld (trace w0 ++ [Log Info no_snapshot_found]) (opened w0)
                  (next_handle w0) (wal_opens w0))).
  { intros err Hload Herr. unfold recoverSnapshot. rewrite Hvalid, Hload, Herr.
    reflexivity. }
  split; [|split; [|split]].
  - intros files s Hsel.
    destruct (LoadNewestAvailable_selects files walSnaps)
      as [(s' & newer & older & H1 & H2 & H3 & H4) | [H1 _]]; [|congruence].
    rewrite H1 in Hsel. inversion Hsel; subst. eauto.
  - intros files Hmodel Hskipped.
    destruct (LoadNewestAvailable_selects files walSnaps)
      as [(s' & newer & older & H1 & H2 & H3 & H4) | [H1 _]].
    + exfalso. rewrite H2 in Hskipped. apply Forall_app in Hskipped.
      destruct Hskipped as [_ Hs]. inversion Hs as [|? ? Hhead _]; subst.
      simpl in Hhead. congruence.
    + apply (Hnone (Some ErrNoSnapshot)); [rewrite Hmodel; exact H1 | reflexivity].
  - exact Hnone.
  - intros s e Hload He. unfold recoverSnapshot. rewrite Hvalid, Hload.
    cbn [other_than_ErrNoSnapshot]. rewrite He. reflexivity.
Qed.

(** Only an orphan file on disk: no snapshot, no error, the handle given. *)
Lemma snapshot_selection_witness :
  recoverSnapshot env0 cfg0 0 true initial_world
  = (Ret (None, 0, None), mkWorld [Log Info no_snapshot_found] [] 0 0)
  /\ recoverSnapshot
       (mk_env true true (snap.LoadNewestAvailable [None; Some snapshot_zero; None])
          KeepBackend 50%N (fun _ => read0) (fun _ => true) (fun cl => cl))
       cfg0 0 true initial_world
     = (Ret (Some snapshot_zero, 0, None),
        mkWorld [StoreRecovery []; Log Info "recovered v2 store from snapshot";
                 Log Info "recovered v3 backend from snapshot"] [] 0 0).
Proof.
  split; [|vm_compute; reflexivity].
  destruct (@snapshot_selection env0 cfg0 0 true initial_world
              [walpb.mkSnapshot 0%N 0%N; walpb.mkSnapshot 100%N 2%N] eq_refl)
    as (_ & H & _).
  apply (H []); [reflexivity | constructor].
Defined.

(** ** What a computation preserves *)

Section Preserves.
Context {X : Type} (f : World -> X).

Lemma preserves_ret {A} (a : A) : preserves f (ret a).
Proof. intros w. reflexivity. Qed.

Lemma preserves_fatal {A} (msg : string) : preserves f (@fatal A msg).
Proof. intros w. reflexivity. Qed.

Lemma preserves_panic {A} (msg : string) : preserves f (@panic A msg).
Proof. intros w. reflexivity. Qed.

Lemma preserves_bind {A B} (m : M A) (k : A -> M B) :
  preserves f m -> (forall a, preserves f (k a)) -> preserves f (bind m k).
Proof.
  intros Hm Hk w. unfold bind. specialize (Hm w).
  destruct (m w) as [[a|s|s] w1]; cbn [snd] in *; [|assumption|assumption].
  rewrite <- Hm. apply Hk.
Qed.
End Preserves.

Lemma handles_emit (e : Event) : preserves handles (emit e).
Proof. intros w. reflexivity. Qed.

Lemma handles_log (l : Level) (msg : string) : preserves handles (log l msg).
Proof. intros w. reflexivity. Qed.

Lemma names_emit (e : Event) : entered [e] = [] -> preserves names (emit e).
Proof.
  intros He w. unfold names, emit. cbn [snd trace].
  rewrite entered_app, He, app_nil_r. reflexivity.
Qed.

Lemma names_log (l : Level) (msg : string) : preserves names (log l msg).
Proof. apply names_emit. reflexivity. Qed.

Lemma names_enter (fn : string) (w : World) :
  names (snd (emit (Enter fn) w)) = names w ++ [fn].
Proof. unfold names, emit. cbn [snd trace]. rewrite entered_app. reflexivity. Qed.

(** Takes a goal [preserves f m] apart along the structure of [m]. *)
Create HintDb frames.

Ltac preserves_step :=
  first
    [ apply preserves_ret
    | apply preserves_fatal
    | apply preserves_panic
    | apply handles_log
    | apply handles_emit
    | apply names_log
    | apply names_emit; reflexivity
    | assumption
    | solve [auto with frames nocore]
    | apply preserves_bind; [|intros]
    | match goal with
      | |- preserves _ (match ?x with _ => _ end) => destruct x
      end ].

Ltac preserves_tac := repeat preserves_step.

Lemma wal_Open_call_handles env walsnap : preserves handles (wal_Open_call env walsnap).
Proof. intros w. reflexivity. Qed.
#[global] Hint Resolve wal_Open_call_handles : frames.

Lemma wal_Create_call_handles env md : preserves handles (wal_Create_call env md).
Proof. intros w. reflexivity. Qed.
#[global] Hint Resolve wal_Create_call_handles : frames.

Lemma wal_Create_call_names env md : preserves names (wal_Create_call env md).
Proof.
  intros w. unfold names, wal_Create_call. cbn [snd trace].
  rewrite entered_app. simpl. apply app_nil_r.
Qed.
#[global] Hint Resolve wal_Create_call_names : frames.

Lemma openWALFromSnapshot_handles env cfg snap0 :
  preserves handles (openWALFromSnapshot env cfg snap0).
Proof.
  intros w. destruct (openWALFromSnapshot_frame env cfg snap0 w) as (_ & _ & H1 & H2 & _).
  unfold handles. rewrite H1, H2. reflexivity.
Qed.
#[global] Hint Resolve openWALFromSnapshot_handles : frames.

Lemma openWALFromSnapshot_names env cfg snap0 :
  preserves names (openWALFromSnapshot env cfg snap0).
Proof.
  intros w. destruct (openWALFromSnapshot_frame env cfg snap0 w) as (_ & H & _).
  exact H.
Qed.
#[global] Hint Resolve openWALFromSnapshot_names : frames.

Lemma CommitedEntries_range_preserves {X} (f : World -> X) hs all rest i :
  (forall l msg, preserves f (log l msg)) ->
  preserves f (CommitedEntries_range hs all rest i).
Proof.
  intros Hlog. revert i. induction rest as [|e rest IH]; intros i; simpl.
  - apply preserves_ret.
  - destruct hs as [hs|]; [|apply preserves_panic].
    destruct (N.ltb (HardState.Commit hs) (Entry.Index e)); [|apply IH].
    apply preserves_bind; [apply Hlog | intros; apply preserves_ret].
Qed.

Lemma make_peers_preserves {X} (f : World -> X) env cl ids :
  preserves f (make_peers env cl ids).
Proof.
  induction ids as [|id ids IH]; simpl; [apply preserves_ret|].
  destruct (json_Marshal env (membership.Member_ cl id)); [apply preserves_panic|].
  apply preserves_bind; [assumption | intros; apply preserves_ret].
Qed.

Lemma enters_then {A} (fn : string) (rest : M A) (w : World) :
  preserves names rest ->
  names (snd ((emit (Enter fn) ;;; rest) w)) = names w ++ [fn].
Proof.
  intros Hrest. unfold bind. cbn [emit]. rewrite Hrest. apply (names_enter fn w).
Qed.

Lemma enters_then_handles {A} (fn : string) (rest : M A) :
  preserves handles rest -> preserves handles (emit (Enter fn) ;;; rest).
Proof. intros H. apply preserves_bind; [apply handles_emit | intros; exact H]. Qed.


Lemma AppendAndCommitEntries_handles (env : Env) wal new :
  preserves handles (AppendAndCommitEntries env wal new).
Proof. unfold AppendAndCommitEntries. preserves_tac. Qed.
#[global] Hint Resolve AppendAndCommitEntries_handles : frames.

Lemma AppendAndCommitEntries_names (env : Env) wal new :
  preserves names (AppendAndCommitEntries env wal new).
Proof. unfold AppendAndCommitEntries. preserves_tac. Qed.
#[global] Hint Resolve AppendAndCommitEntries_names : frames.

Lemma bootstrapWALFromSnapshot_handles (env : Env) (cfg : ServerConfig) snap0 :
  preserves handles (bootstrapWALFromSnapshot env cfg snap0).
Proof.
  unfold bootstrapWALFromSnapshot.
  apply preserves_bind; [apply openWALFromSnapshot_handles | intros o].
  destruct (ForceNewCluster cfg); [|preserves_tac].
  apply preserves_bind;
    [ unfold CommitedEntries; apply CommitedEntries_range_preserves;
      intros; apply handles_log
    | intros committed ].
  apply preserves_bind; [unfold ConfigChangeEntries; preserves_tac | intros].
  preserves_tac.
Qed.
#[global] Hint Resolve bootstrapWALFromSnapshot_handles : frames.

Lemma bootstrapWALFromSnapshot_names (env : Env) (cfg : ServerConfig) snap0 :
  preserves names (bootstrapWALFromSnapshot env cfg snap0).
Proof.
  unfold bootstrapWALFromSnapshot.
  apply preserves_bind; [apply openWALFromSnapshot_names | intros o].
  destruct (ForceNewCluster cfg); [|preserves_tac].
  apply preserves_bind;
    [ unfold CommitedEntries; apply CommitedEntries_range_preserves;
      intros; apply names_log
    | intros committed ].
  apply preserves_bind; [unfold ConfigChangeEntries; preserves_tac | intros].
  preserves_tac.
Qed.
#[global] Hint Resolve bootstrapWALFromSnapshot_names : frames.

Lemma bootstrapNewWAL_handles (env : Env) (cfg : ServerConfig) cl id :
  preserves handles (bootstrapNewWAL env cfg cl id).
Proof.
  unfold bootstrapNewWAL.
  apply preserves_bind; [apply wal_Create_call_handles | intros]. preserves_tac.
Qed.
#[global] Hint Resolve bootstrapNewWAL_handles : frames.

Lemma bootstrapNewWAL_names (env : Env) (cfg : ServerConfig) cl id :
  preserves names (bootstrapNewWAL env cfg cl id).
Proof.
  unfold bootstrapNewWAL.
  apply preserves_bind; [apply wal_Create_call_names | intros]. preserves_tac.
Qed.
#[global] Hint Resolve bootstrapNewWAL_names : frames.

Lemma then_new_WAL_handles (env : Env) (cfg : ServerConfig) r :
  preserves handles (then_new_WAL env cfg r).
Proof.
  unfold then_new_WAL. destruct r as [[c|] [e|]]; preserves_tac.
Qed.
#[global] Hint Resolve then_new_WAL_handles : frames.

Lemma then_new_WAL_names (env : Env) (cfg : ServerConfig) r :
  preserves names (then_new_WAL env cfg r).
Proof.
  unfold then_new_WAL. destruct r as [[c|] [e|]]; preserves_tac.
Qed.
#[global] Hint Resolve then_new_WAL_names : frames.

Lemma bootstrapExistingClusterNoWAL_names (env : Env) (cfg : ServerConfig) be w :
  names (snd (bootstrapExistingClusterNoWAL env cfg be w))
  = names w ++ ["bootstrapExistingClusterNoWAL"].
Proof. unfold bootstrapExistingClusterNoWAL. apply enters_then. preserves_tac. Qed.

Lemma bootstrapExistingClusterNoWAL_handles (env : Env) (cfg : ServerConfig) be :
  preserves handles (bootstrapExistingClusterNoWAL env cfg be).
Proof. unfold bootstrapExistingClusterNoWAL. preserves_tac. Qed.
#[global] Hint Resolve bootstrapExistingClusterNoWAL_handles : frames.

Lemma bootstrapNewClusterNoWAL_names (env : Env) (cfg : ServerConfig) be w :
  names (snd (bootstrapNewClusterNoWAL env cfg be w))
  = names w ++ ["bootstrapNewClusterNoWAL"].
Proof. unfold bootstrapNewClusterNoWAL. apply enters_then. preserves_tac. Qed.

Lemma bootstrapNewClusterNoWAL_handles (env : Env) (cfg : ServerConfig) be :
  preserves handles (bootstrapNewClusterNoWAL env cfg be).
Proof. unfold bootstrapNewClusterNoWAL. preserves_tac. Qed.
#[global] Hint Resolve bootstrapNewClusterNoWAL_handles : frames.

Lemma bootstrapClusterWithWAL_names (env : Env) (cfg : ServerConfig) storage meta w :
  names (snd (bootstrapClusterWithWAL env cfg storage meta w))
  = names w ++ ["bootstrapClusterWithWAL"].
Proof. unfold bootstrapClusterWithWAL. apply enters_then. preserves_tac. Qed.

Lemma bootstrapClusterWithWAL_handles (env : Env) (cfg : ServerConfig) storage meta :
  preserves handles (bootstrapClusterWithWAL env cfg storage meta).
Proof. unfold bootstrapClusterWithWAL. preserves_tac. Qed.
#[global] Hint Resolve bootstrapClusterWithWAL_handles : frames.

Lemma bootstrapRaftFromCluster_names (env : Env) (cfg : ServerConfig) cl ids bwal w :
  names (snd (bootstrapRaftFromCluster env cfg cl ids bwal w))
  = names w ++ ["bootstrapRaftFromCluster"].
Proof.
  unfold bootstrapRaftFromCluster. apply enters_then.
  apply preserves_bind; [apply make_peers_preserves | intros]. preserves_tac.
Qed.

Lemma bootstrapRaftFromCluster_handles (env : Env) (cfg : ServerConfig) cl ids bwal :
  preserves handles (bootstrapRaftFromCluster env cfg cl ids bwal).
Proof.
  unfold bootstrapRaftFromCluster.
  apply preserves_bind; [apply handles_emit | intros].
  apply preserves_bind; [apply make_peers_preserves | intros]. preserves_tac.
Qed.
#[global] Hint Resolve bootstrapRaftFromCluster_handles : frames.

Lemma bootstrapRaftFromSnapshot_names (env : Env) (cfg : ServerConfig) bwal meta w :
  names (snd (bootstrapRaftFromSnapshot env cfg bwal meta w))
  = names w ++ ["bootstrapRaftFromSnapshot"].
Proof. unfold bootstrapRaftFromSnapshot. apply enters_then. preserves_tac. Qed.

Lemma bootstrapRaftFromSnapshot_handles (env : Env) (cfg : ServerConfig) bwal meta :
  preserves handles (bootstrapRaftFromSnapshot env cfg bwal meta).
Proof. unfold bootstrapRaftFromSnapshot. preserves_tac. Qed.
#[global] Hint Resolve bootstrapRaftFromSnapshot_handles : frames.


(** ** Path exclusivity *)

(** The first switch enters the resolver of its case and no other
    function; it returns a cluster only after doing so, and without WAL it
    enters it whenever the storage has a backend. *)
Lemma resolve_cluster_names env cfg haveWAL storage walmeta w :
  let p := first_switch haveWAL (NewCluster cfg) in
  let r := resolve_cluster env cfg haveWAL storage walmeta w in
  (names (snd r) = names w ++ resolver_of p
   \/ (names (snd r) = names w /\ exists msg, fst r = Panic msg))
  /\ handles (snd r) = handles w
  /\ (haveWAL = false -> bootstrappedStorage.backend storage <> None ->
      names (snd r) = names w ++ resolver_of p).
Proof.
  intros p r. subst p r. unfold resolve_cluster.
  destruct (first_switch haveWAL (NewCluster cfg)) eqn:Hp; cbn [resolver_of].
  - destruct (bootstrappedStorage.backend storage) as [backend|];
      [|split; [right; split; [reflexivity | eexists; reflexivity]
               | split; [reflexivity | congruence]]].
    assert (Hn : names (snd ((r <- bootstrapExistingClusterNoWAL env cfg
                                     (bootstrappedBackend.be backend) ;;
                              then_new_WAL env cfg r) w))
                 = names w ++ ["bootstrapExistingClusterNoWAL"]).
    { unfold bind at 1.
      pose proof (bootstrapExistingClusterNoWAL_names env cfg
                    (bootstrappedBackend.be backend) w) as Hn.
      destruct (bootstrapExistingClusterNoWAL env cfg (bootstrappedBackend.be backend) w)
        as [[a|m|m] w1]; cbn [snd] in *; try exact Hn.
      rewrite then_new_WAL_names. exact Hn. }
    split; [left; exact Hn | split; [|intros; exact Hn]].
    apply preserves_bind; [apply bootstrapExistingClusterNoWAL_handles|].
    intros; apply then_new_WAL_handles.
  - destruct (bootstrappedStorage.backend storage) as [backend|];
      [|split; [right; split; [reflexivity | eexists; reflexivity]
               | split; [reflexivity | congruence]]].
    assert (Hn : names (snd ((r <- bootstrapNewClusterNoWAL env cfg
                                     (bootstrappedBackend.be backend) ;;
                              then_new_WAL env cfg r) w))
                 = names w ++ ["bootstrapNewClusterNoWAL"]).
    { unfold bind at 1.
      pose proof (bootstrapNewClusterNoWAL_names env cfg
                    (bootstrappedBackend.be backend) w) as Hn.
      destruct (bootstrapNewClusterNoWAL env cfg (bootstrappedBackend.be backend) w)
        as [[a|m|m] w1]; cbn [snd] in *; try exact Hn.
      rewrite then_new_WAL_names. exact Hn. }
    split; [left; exact Hn | split; [|intros; exact Hn]].
    apply preserves_bind; [apply bootstrapNewClusterNoWAL_handles|].
    intros; apply then_new_WAL_handles.
  - assert (Hw : haveWAL = true)
      by (destruct haveWAL, (NewCluster cfg); (reflexivity || discriminate)).
    destruct walmeta as [[bwal meta]|];
      [|split; [right; split; [reflexivity | eexists; reflexivity]
               | split; [reflexivity | congruence]]].
    split; [|split; [|congruence]].
    + left. unfold bind at 1.
      pose proof (bootstrapClusterWithWAL_names env cfg storage meta w) as Hn.
      destruct (bootstrapClusterWithWAL env cfg storage meta w)
        as [[[[c|] [e|]]|m|m] w1]; cbn [snd] in *; exact Hn.
    + apply preserves_bind; [apply bootstrapClusterWithWAL_handles|].
      intros [[c|] [e|]]; preserves_tac.
  - destruct haveWAL, (NewCluster cfg); discriminate.
Qed.

(** The second switch enters the builder of its case and no other
    function; it returns a cluster only after doing so. *)
Lemma build_raft_names env cfg haveWAL c walmeta w :
  let p := second_switch haveWAL (NewCluster cfg) in
  let r := build_raft env cfg haveWAL c walmeta w in
  (names (snd r) = names w ++ builder_of p
   \/ (names (snd r) = names w /\ exists msg, fst r = Panic msg))
  /\ handles (snd r) = handles w.
Proof.
  intros p r. subst p r. unfold build_raft.
  destruct (second_switch haveWAL (NewCluster cfg)) eqn:Hp; cbn [builder_of].
  - destruct (bootstrapedCluster.wal c) as [bwal|];
      [|split; [right; split; [reflexivity | eexists; reflexivity] | reflexivity]].
    split.
    + left. unfold bind at 1.
      pose proof (bootstrapRaftFromCluster_names env cfg (bootstrapedCluster.cl c) [] bwal w)
        as Hn.
      destruct (bootstrapRaftFromCluster env cfg (bootstrapedCluster.cl c) [] bwal w)
        as [[a|m|m] w1]; cbn [snd] in *; exact Hn.
    + apply preserves_bind; [apply bootstrapRaftFromCluster_handles|].
      intros; apply preserves_ret.
  - destruct (bootstrapedCluster.wal c) as [bwal|];
      [|split; [right; split; [reflexivity | eexists; reflexivity] | reflexivity]].
    split.
    + left. unfold bind at 1.
      pose proof (bootstrapRaftFromCluster_names env cfg (bootstrapedCluster.cl c)
                    (membership.MemberIDs (bootstrapedCluster.cl c)) bwal w) as Hn.
      destruct (bootstrapRaftFromCluster env cfg (bootstrapedCluster.cl c)
                  (membership.MemberIDs (bootstrapedCluster.cl c)) bwal w)
        as [[a|m|m] w1]; cbn [snd] in *; exact Hn.
    + apply preserves_bind; [apply bootstrapRaftFromCluster_handles|].
      intros; apply preserves_ret.
  - destruct (bootstrapedCluster.wal c) as [bwal|], walmeta as [[bwal' meta]|];
      try (split; [right; split; [reflexivity | eexists; reflexivity] | reflexivity]).
    split.
    + left. unfold bind at 1.
      pose proof (bootstrapRaftFromSnapshot_names env cfg bwal meta w) as Hn.
      destruct (bootstrapRaftFromSnapshot env cfg bwal meta w)
        as [[a|m|m] w1]; cbn [snd] in *; exact Hn.
    + apply preserves_bind; [apply bootstrapRaftFromSnapshot_handles|].
      intros; apply preserves_ret.
  - split; [left; cbn; rewrite app_nil_r; reflexivity | reflexivity].
Qed.

Lemma switches_agree (haveWAL newCluster : bool) :
  second_switch haveWAL newCluster = first_switch haveWAL newCluster.
Proof. reflexivity. Qed.


(** ** The peer list *)

Lemma make_peers_spec env cl ids w peers w' :
  make_peers env cl ids w = (Ret peers, w') ->
  map Peer.ID peers = ids
  /\ Forall (fun p => json_Marshal env (membership.Member_ cl (Peer.ID p))
                      = inr (Peer.Context p)) peers.
Proof.
  revert peers w'. induction ids as [|id ids IH]; intros peers w'; simpl.
  - unfold ret. intros H; inversion H; subst. split; constructor.
  - destruct (json_Marshal env (membership.Member_ cl id)) as [e|ctx] eqn:Hm;
      [unfold panic; discriminate|].
    unfold bind, ret.
    destruct (make_peers env cl ids w) as [[rest|m|m] w1] eqn:Hrest; try discriminate.
    intros H; inversion H; subst. destruct (IH _ _ eq_refl) as [H1 H2].
    split; [simpl; f_equal; exact H1 | constructor; [exact Hm | exact H2]].
Qed.

Lemma bootstrapRaftFromCluster_peers env cfg cl ids bwal w r w' :
  bootstrapRaftFromCluster env cfg cl ids bwal w = (Ret r, w') ->
  map Peer.ID (bootstrappedRaft.peers r) = ids
  /\ Forall (fun p => json_Marshal env (membership.Member_ cl (Peer.ID p))
                      = inr (Peer.Context p)) (bootstrappedRaft.peers r).
Proof.
  unfold bootstrapRaftFromCluster, bind. cbn [emit].
  destruct (make_peers env cl ids _) as [[peers|m|m] w1] eqn:Hp; try discriminate.
  destruct (membership.MemberByName cl (Name cfg)); [|unfold panic; discriminate].
  cbn [log emit ret]. intros H; inversion H; subst. cbn [bootstrappedRaft.peers].
  eapply make_peers_spec; eassumption.
Qed.

Lemma build_raft_peers env cfg haveWAL c0 walmeta w c w' :
  build_raft env cfg haveWAL c0 walmeta w = (Ret (Some c, None), w') ->
  exists r, bootstrapedCluster.raft c = Some r
            /\ peers_as_built env (second_switch haveWAL (NewCluster cfg)) c r.
Proof.
  unfold build_raft.
  destruct (second_switch haveWAL (NewCluster cfg)); cbn [peers_as_built].
  - destruct (bootstrapedCluster.wal c0) as [bwal|]; [|unfold panic; discriminate].
    unfold bind.
    destruct (bootstrapRaftFromCluster env cfg _ [] bwal w) as [[r|m|m] w1] eqn:Hr;
      try discriminate.
    unfold ret. intros H; inversion H; subst. exists r. split; [reflexivity|].
    apply bootstrapRaftFromCluster_peers in Hr. destruct Hr as [Hr _].
    destruct (bootstrappedRaft.peers r); [reflexivity | discriminate].
  - destruct (bootstrapedCluster.wal c0) as [bwal|]; [|unfold panic; discriminate].
    unfold bind.
    destruct (bootstrapRaftFromCluster env cfg _ _ bwal w) as [[r|m|m] w1] eqn:Hr;
      try discriminate.
    unfold ret. intros H; inversion H; subst. exists r. split; [reflexivity|].
    apply bootstrapRaftFromCluster_peers in Hr. exact Hr.
  - destruct (bootstrapedCluster.wal c0) as [bwal|], walmeta as [[bwal' meta]|];
      try (unfold panic; discriminate).
    unfold bind, bootstrapRaftFromSnapshot. cbn [emit ret].
    intros H; inversion H; subst. eexists. split; reflexivity.
  - unfold ret. discriminate.
Qed.

(** C6: in the cluster that [bootstrapCluster] returns, the peer list is
    empty on the join-existing and restart-from-log paths and, on the
    new-cluster path, lists the member IDs of the cluster in order, each
    peer carrying the JSON of its member as context; [newRaftNode] starts
    the node with [StartNode] exactly when the list is not empty and with
    [RestartNode] exactly when it is empty. *)
Theorem peers_by_path (env : Env) (cfg : ServerConfig) (haveWAL : bool)
    (storage : bootstrappedStorage.t) (w0 : World) (c : bootstrapedCluster.t) :
  fst (bootstrapCluster env cfg haveWAL storage w0) = Ret (Some c, None) ->
  exists r,
    bootstrapedCluster.raft c = Some r
    /\ peers_as_built env (first_switch haveWAL (NewCluster cfg)) c r
    /\ forall w, exists n,
         fst (newRaftNode r w) = Ret n
         /\ (node n = StartNode (bootstrappedRaft.config r) (bootstrappedRaft.peers r)
             <-> bootstrappedRaft.peers r <> [])
         /\ (node n = RestartNode (bootstrappedRaft.config r)
             <-> bootstrappedRaft.peers r = []).
Proof.
  unfold bootstrapCluster. set (walpart := if haveWAL then _ else _).
  unfold bind.
  destruct (walpart w0) as [[[err|walmeta]|m|m] w1]; try (cbn; discriminate).
  destruct (resolve_cluster env cfg haveWAL storage walmeta w1) as [[[err|c0]|m|m] w2];
    try (cbn; discriminate).
  destruct (build_raft env cfg haveWAL c0 walmeta w2) as [o w3] eqn:Hb.
  cbn [fst]. intros ->.
  destruct (build_raft_peers _ _ _ _ _ _ Hb) as (r & Hraft & Hpeers).
  rewrite switches_agree in Hpeers.
  exists r. split; [exact Hraft|]. split; [exact Hpeers|].
  intros w. unfold newRaftNode, bind. cbn [emit ret fst node]. eexists. split; [reflexivity|].
  cbn [node]. destruct (bootstrappedRaft.peers r); cbn [length Nat.eqb];
    split; split; intros H; try reflexivity; try discriminate; congruence.
Qed.

(** A new cluster of three members: the peer list carries their IDs and
    the node is started, not restarted. *)
Lemma peers_by_path_witness :
  exists r n,
    bootstrapedCluster.raft formed_cluster = Some r
    /\ map Peer.ID (bootstrappedRaft.peers r) = [1; 2; 3]%N
    /\ fst (newRaftNode r initial_world) = Ret n
    /\ node n = StartNode (bootstrappedRaft.config r) (bootstrappedRaft.peers r).
Proof.
  assert (H : fst (bootstrapCluster env_new cfg_new false storage0 initial_world)
              = Ret (Some formed_cluster, None)) by (vm_compute; reflexivity).
  destruct (@peers_by_path env_new cfg_new false storage0 initial_world formed_cluster H)
    as (r & H1 & H2 & H3).
  destruct H2 as [H2 _]. destruct (H3 initial_world) as (n & Hn & Hs & _).
  exists r, n. split; [exact H1|]. split; [rewrite H2; vm_compute; reflexivity|].
  split; [exact Hn|]. apply Hs. intros Hnil. rewrite Hnil in H2. vm_compute in H2.
  discriminate.
Defined.

(** ** The backend of a v3 cluster *)

Lemma removed_app (a b : list Event) : removed (a ++ b) = removed a ++ removed b.
Proof.
  induction a as [|e a IH]; simpl; [reflexivity|].
  destruct e; simpl; rewrite ?IH; reflexivity.
Qed.

(** C8: on the restart path, once the member directory is known to be
    writeable, the membership recovered from storage decides: if it
    declares a version that is not less than 3.0 and the backend file did
    not exist, the backend file is removed and an error is returned; if it
    declares no version, or one less than 3.0, or the backend file
    existed, nothing is removed and the cluster is returned. *)
Theorem v3_cluster_needs_backend (env : Env) (cfg : ServerConfig)
    (storage : bootstrappedStorage.t) (backend : bootstrappedBackend.t)
    (meta : snapshotMetadata) (w0 : World) :
  IsDirWriteable env (MemberDir env cfg) = None ->
  bootstrappedStorage.backend storage = Some backend ->
  let cl := Recover env
              (membership.SetBackend (bootstrappedBackend.be backend)
                 (membership.SetStore
                    (membership.SetID (nodeID meta) (clusterID meta) membership.NewCluster))) in
  let beExist := bootstrappedBackend.beExist backend in
  let bepath := BackendPath env cfg in
  let r := bootstrapClusterWithWAL env cfg storage meta w0 in
  ((exists v, membership.version cl = Some v /\ LessThan env v V3 = false) ->
   beExist = false ->
   fst r = Ret (None, Some (Errorf "database file (%v) of the backend is missing"
                              [ArgString bepath]))
   /\ removed (trace (snd r)) = removed (trace w0) ++ [bepath])
  /\ (membership.version cl = None
      \/ (exists v, membership.version cl = Some v /\ LessThan env v V3 = true)
      \/ beExist = true ->
      fst r = Ret (Some (bootstrapedCluster.mk None [] None cl (nodeID meta)), None)
      /\ removed (trace (snd r)) = removed (trace w0)).
Proof.
  intros Hdir Hbackend cl beExist bepath r. subst r.
  unfold bootstrapClusterWithWAL. rewrite Hdir, Hbackend.
  fold cl. fold beExist. fold bepath. unfold v3_cluster_without_backend.
  assert (Hpre : forall (A : Type) (k : M A),
             (emit (Enter "bootstrapClusterWithWAL") ;;;
              (if ShouldDiscover env cfg
               then log Warn "discovery token is ignored since cluster already initialized; valid logs are found"
               else ret tt) ;;; k) w0
             = k (mkWorld (trace w0 ++ Enter "bootstrapClusterWithWAL"
                             :: (if ShouldDiscover env cfg
                                 then [Log Warn "discovery token is ignored since cluster already initialized; valid logs are found"]
                                 else []))
                    (opened w0) (next_handle w0) (wal_opens w0))).
  { intros A k. destruct (ShouldDiscover env cfg); run_monad;
      rewrite <- ?app_assoc; reflexivity. }
  rewrite Hpre. clear Hpre.
  assert (Hrem : forall tail,
             removed (trace w0 ++ Enter "bootstrapClusterWithWAL"
                        :: (if ShouldDiscover env cfg
                            then [Log Warn "discovery token is ignored since cluster already initialized; valid logs are found"]
                            else []) ++ tail)
             = removed (trace w0) ++ removed tail).
  { intros tail. rewrite removed_app. destruct (ShouldDiscover env cfg); reflexivity. }
  split.
  - intros (v & Hv & Hlt) Hbe. rewrite Hv, Hlt, Hbe. cbn [negb andb]. run_monad.
    split; [reflexivity|].
    rewrite <- app_assoc. apply (Hrem [RemoveAll bepath]).
  - intros Hok.
    assert (Hcond : match membership.version cl with
                    | Some v => negb (LessThan env v V3) && negb beExist
                    | None => false
                    end = false).
    { destruct Hok as [Hv | [(v & Hv & Hlt) | Hbe]].
      - rewrite Hv. reflexivity.
      - rewrite Hv, Hlt. reflexivity.
      - rewrite Hbe. destruct (membership.version cl); [apply andb_false_r | reflexivity]. }
    rewrite Hcond. run_monad. split; [reflexivity|].
    specialize (Hrem []). rewrite app_nil_r in Hrem. rewrite Hrem. apply app_nil_r.
Qed.

(** Version 3.5 recovered while the backend file was not there. *)
Lemma v3_cluster_needs_backend_witness :
  let r := bootstrapClusterWithWAL (env_v3 false) cfg0 storage0
             {| nodeID := 1%N; clusterID := 7%N |} initial_world in
  fst r = Ret (None, Some (Errorf "database file (%v) of the backend is missing"
                             [ArgString "/var/lib/etcd/member/snap/db"]))
  /\ removed (trace (snd r)) = ["/var/lib/etcd/member/snap/db"].
Proof.
  destruct (@v3_cluster_needs_backend (env_v3 false) cfg0 storage0
              (bootstrappedBackend.mk 0 false None)
              {| nodeID := 1%N; clusterID := 7%N |} initial_world eq_refl eq_refl)
    as [H _].
  apply H; [exists version35; split; reflexivity | reflexivity].
Defined.

(** ** Ownership of the backend handle *)

Lemma remove_owned (be : handle) (rest : list handle) :
  Forall (fun h => h < be) rest -> remove Nat.eq_dec be (be :: rest) = rest.
Proof.
  intros H. simpl. destruct (Nat.eq_dec be be); [|congruence].
  apply notin_remove. intros Hin. rewrite Forall_forall in H. specialize (H _ Hin). lia.
Qed.

Lemma owns_frame (be : handle) (rest : list handle) (w w' : World) :
  handles w' = handles w -> owns be rest w -> owns be rest w'.
Proof.
  unfold handles, owns. intros H (H1 & H2 & H3). inversion H as [[Ho Hn]].
  rewrite Ho, Hn. auto.
Qed.

Lemma OpenBackend_owns (w : World) :
  handles_allocated w ->
  exists w', OpenBackend w = (Ret (next_handle w), w') /\ owns (next_handle w) (opened w) w'.
Proof.
  intros H. eexists. split; [reflexivity|]. unfold owns. cbn. auto.
Qed.

Lemma be_Close_owns (be : handle) (rest : list handle) (w : World) :
  owns be rest w ->
  exists w', be_Close be w = (Ret tt, w') /\ opened w' = rest
             /\ next_handle w' = next_handle w.
Proof.
  intros (H1 & H2 & H3). eexists. split; [reflexivity|]. cbn.
  rewrite H1. split; [apply remove_owned; assumption | reflexivity].
Qed.

(** [RecoverSnapshotBackend] hands back a handle that is owned, the one it
    was given or the fresh one that replaces it. *)
Lemma RecoverSnapshotBackend_owns env be rest w :
  owns be rest w ->
  exists be' err w', RecoverSnapshotBackend env be w = (Ret (be', err), w')
                     /\ owns be' rest w'.
Proof.
  intros Ho. unfold RecoverSnapshotBackend.
  destruct (RecoverSnapshotBackend_result env).
  - do 3 eexists. split; [reflexivity | assumption].
  - destruct Ho as (H1 & H2 & H3).
    do 3 eexists. split; [reflexivity|]. unfold owns. cbn.
    rewrite H1, remove_owned by assumption.
    split; [reflexivity|]. split; [|lia].
    eapply Forall_impl; [|exact H2]. simpl; intros; lia.
  - do 3 eexists. split; [reflexivity | assumption].
Qed.

Lemma maybeDefragBackend_handles env cfg be : preserves handles (maybeDefragBackend env cfg be).
Proof. unfold maybeDefragBackend. preserves_tac. Qed.
#[global] Hint Resolve maybeDefragBackend_handles : frames.

(** Whatever [recoverSnapshot] returns, the handle it returns is the one
    that is open. *)
Lemma recoverSnapshot_owns env cfg be beExist rest w :
  owns be rest w ->
  match recoverSnapshot env cfg be beExist w with
  | (Ret (_, be', _), w') => owns be' rest w'
  | _ => True
  end.
Proof.
  intros Ho. unfold recoverSnapshot.
  destruct (wal_ValidSnapshotEntries env) as [e|walSnaps]; [exact Ho|].
  destruct (LoadNewestAvailable_result env walSnaps) as [sn err].
  destruct (other_than_ErrNoSnapshot err); [exact Ho|].
  destruct sn as [sn|]; [|exact Ho].
  destruct (st_Recovery env (Snapshot.Data sn)); [exact I|].
  destruct (AssertNoV2StoreContent env); [exact Ho|].
  run_monad.
  match goal with
  | |- context [RecoverSnapshotBackend env be ?W] =>
      destruct (@RecoverSnapshotBackend_owns env be rest W Ho) as (be' & e & w3 & Heq & Ho3)
  end.
  rewrite Heq. destruct e; [exact I|].
  destruct beExist; [|exact Ho3].
  destruct (N.ltb _ _); [|exact Ho3].
  destruct (negb _); exact Ho3.
Qed.

(** The body of [bootstrapBackend] reports in [be] the handle that is
    open, and returns it in the backend when it succeeds. *)
Lemma bootstrapBackend_body_owns env cfg haveWAL beExist be rest w :
  owns be rest w ->
  match bootstrapBackend_body env cfg haveWAL beExist be w with
  | (Ret (b, be', err), w') =>
      owns be' rest w'
      /\ (err = None -> exists bb, b = Some bb /\ bootstrappedBackend.be bb = be')
  | _ => True
  end.
Proof.
  intros Ho. unfold bootstrapBackend_body.
  set (defrag := if negb _ then _ else _).
  assert (Hd : preserves handles defrag) by (subst defrag; preserves_tac).
  unfold bind at 1. specialize (Hd w).
  destruct (defrag w) as [[[e|]|m|m] w1]; cbn [snd] in Hd; try exact I.
  { split; [eapply owns_frame; eassumption | discriminate]. }
  assert (Ho1 : owns be rest w1) by (eapply owns_frame; eassumption).
  run_monad.
  destruct haveWAL.
  - match goal with
    | |- context [recoverSnapshot env cfg be beExist ?W] =>
        pose proof (@recoverSnapshot_owns env cfg be beExist rest W Ho1) as Hrs;
        destruct (recoverSnapshot env cfg be beExist W) as [[[[sn be'] err]|m|m] w2]
    end; try exact I.
    destruct err; [split; [exact Hrs | discriminate]|].
    destruct (if beExist then schema_Validate env be' else None);
      (split; [exact Hrs | try discriminate]).
    intros _. eexists. split; reflexivity.
  - destruct (if beExist then schema_Validate env be else None);
      (split; [exact Ho1 | try discriminate]).
    intros _. eexists. split; reflexivity.
Qed.

(** [bootstrapBackend]: with an error, the handles are as they were
    before; without, the backend returned holds the one new open
    handle. *)
Lemma bootstrapBackend_closes env cfg haveWAL w :
  handles_allocated w ->
  match bootstrapBackend env cfg haveWAL w with
  | (Ret (b, Some _), w') => opened w' = opened w
  | (Ret (b, None), w') =>
      exists bb, b = Some bb /\ owns (bootstrappedBackend.be bb) (opened w) w'
  | _ => True
  end.
Proof.
  intros Hw. unfold bootstrapBackend.
  destruct (OpenBackend_owns Hw) as (w1 & Hopen & Ho1).
  unfold bind at 1. rewrite Hopen. unfold bind at 1.
  pose proof (@bootstrapBackend_body_owns env cfg haveWAL
                (fileutil_Exist env (BackendPath env cfg)) (next_handle w) (opened w) w1 Ho1)
    as Hbody.
  destruct (bootstrapBackend_body env cfg haveWAL _ (next_handle w) w1)
    as [[[[b be'] err]|m|m] w2]; try exact I.
  destruct Hbody as [Ho2 Hb]. destruct err as [e|].
  - destruct (be_Close_owns Ho2) as (w3 & Hclose & Hopened & _).
    unfold bind. rewrite Hclose. cbn [ret]. exact Hopened.
  - cbn [ret]. destruct (Hb eq_refl) as (bb & -> & <-). eauto.
Qed.

Lemma handles_allocated_frame w w' :
  handles w' = handles w -> handles_allocated w -> handles_allocated w'.
Proof.
  unfold handles, handles_allocated. intros H Hw.
  injection H as Ho Hn. rewrite Ho, Hn. exact Hw.
Qed.

Lemma bootstrapStorage_closes env cfg haveWAL w :
  handles_allocated w ->
  match bootstrapStorage env cfg haveWAL w with
  | (Ret (_, Some _), w') => opened w' = opened w
  | (Ret (s, None), w') =>
      exists bb, s = Some (bootstrappedStorage.mk (Some bb))
                 /\ owns (bootstrappedBackend.be bb) (opened w) w'
  | _ => True
  end.
Proof.
  intros Hw. unfold bootstrapStorage, bind.
  pose proof (@bootstrapBackend_closes env cfg haveWAL w Hw) as Hb.
  destruct (bootstrapBackend env cfg haveWAL w) as [[[b [e|]]|m|m] w1]; try exact I.
  - exact Hb.
  - destruct Hb as (bb & -> & Ho). cbn [ret]. eauto.
Qed.

Lemma bootstrapCluster_handles env cfg haveWAL storage :
  preserves handles (bootstrapCluster env cfg haveWAL storage).
Proof.
  unfold bootstrapCluster. apply preserves_bind.
  - destruct haveWAL; [|preserves_tac].
    destruct (IsDirWriteable env (WALDir env cfg)); [preserves_tac|].
    destruct (bootstrappedStorage.backend storage); preserves_tac.
  - intros [err|walmeta]; [preserves_tac|].
    apply preserves_bind.
    + intros w. apply resolve_cluster_names.
    + intros [err|c]; [preserves_tac|].
      intros w. apply build_raft_names.
Qed.

(** C7: once the backend has been opened, every error return closes the
    handle that is current at that point, the one swapped in by snapshot
    recovery included: when [bootstrapBackend] returns an error, and when
    [bootstrap] returns an error, the open handles are exactly those that
    were open before the call.  When they succeed, the handle of the
    backend they return is the one newly open handle, handed over without
    being closed. *)
Theorem backend_closed_on_failure env cfg w0 :
  handles_allocated w0 ->
  (forall haveWAL,
      match bootstrapBackend env cfg haveWAL w0 with
      | (Ret (_, Some _), w') => opened w' = opened w0
      | (Ret (b, None), w') =>
          exists bb, b = Some bb
                     /\ opened w' = bootstrappedBackend.be bb :: opened w0
      | _ => True
      end)
  /\ match bootstrap env cfg w0 with
     | (Ret (_, Some _), w') => opened w' = opened w0
     | (Ret (srv, None), w') =>
         exists s st bb,
           srv = Some s
           /\ bootstrappedServer.storage s = Some st
           /\ bootstrappedStorage.backend st = Some bb
           /\ opened w' = bootstrappedBackend.be bb :: opened w0
     | _ => True
     end.
Proof.
  intros Hw. split.
  - intros haveWAL.
    pose proof (@bootstrapBackend_closes env cfg haveWAL w0 Hw) as Hb.
    destruct (bootstrapBackend env cfg haveWAL w0) as [[[b [e|]]|m|m] w1]; try exact I.
    + exact Hb.
    + destruct Hb as (bb & -> & Ho & _). eauto.
  - unfold bootstrap, bootstrapSnapshot.
    destruct (N.ltb _ _);
      (destruct (TouchDirAll env (DataDir cfg)); [reflexivity|]);
      (destruct (TouchDirAll env (SnapDir env cfg)); [exact I|]);
      destruct (RemoveMatchFile env (SnapDir env cfg));
      (destruct (NewRoundTripper env); [reflexivity|]);
      (destruct (TouchDirAll env (MemberDir env cfg)); [reflexivity|]);
      run_monad;
      match goal with
      | |- context [bootstrapStorage env cfg ?h ?W] =>
          pose proof (@bootstrapStorage_closes env cfg h W Hw) as Hs;
          destruct (bootstrapStorage env cfg h W) as [[[s [?|]]|?|?] w1];
          try exact I; [exact Hs|];
          destruct Hs as (bb & -> & Ho);
          pose proof (@bootstrapCluster_handles env cfg h
                        (bootstrappedStorage.mk (Some bb)) w1) as Hc;
          destruct (bootstrapCluster env cfg h (bootstrappedStorage.mk (Some bb)) w1)
            as [[[c [?|]]|?|?] w2];
          cbn [snd] in Hc; try exact I;
          pose proof (@owns_frame _ _ _ _ Hc Ho) as Ho2
      end;
      try (destruct (be_Close_owns Ho2) as (w3 & Hclose & Hopened & _);
           cbn [close_storage_backend bootstrappedStorage.backend];
           unfold be_Close in Hclose; cbn [fst snd] in Hclose |- *;
           first [ rewrite Hclose; exact Hopened
                 | injection Hclose as <-; exact Hopened ]);
      try (destruct Ho2 as (Hopened & _); eexists _, _, _;
           repeat split; exact Hopened).
Qed.

Lemma backend_closed_on_failure_witness :
  let r := bootstrap (env_v3 false) cfg0 initial_world in
  handles_allocated initial_world
  /\ (exists err, fst r = Ret (None, Some err))
  /\ opened (snd r) = opened initial_world.
Proof.
  assert (H : handles_allocated initial_world) by constructor.
  destruct (@backend_closed_on_failure (env_v3 false) cfg0 initial_world H) as [_ Hb].
  cbv zeta. split; [exact H|].
  destruct (bootstrap (env_v3 false) cfg0 initial_world) as [[[srv [e|]]|m|m] w] eqn:E;
    try (vm_compute in E; discriminate E).
  split; [|exact Hb].
  exists e. vm_compute in E. injection E as <- _ _. reflexivity.
Defined.

(** The backend swapped in by the recovery is the one that the deferred
    function closes: handle 0 is closed by the recovery, handle 1 when the
    index mismatch is returned. *)
Example replaced_backend_is_closed :
  let r := bootstrapBackend env_swapped cfg0 true initial_world in
  fst r = Ret (None, Some (index_mismatch env_swapped cfg0 7%N 100%N))
  /\ trace (snd r)
     = [BackendOpen 0; Log Debug "restore consistentIndex"; StoreRecovery [];
        Log Info "recovered v2 store from snapshot"; BackendClose 0; BackendOpen 1;
        Log Info "recovered v3 backend from snapshot"; BackendClose 1]
  /\ opened (snd r) = [].
Proof. vm_compute. repeat split; reflexivity. Qed.

(** A first start succeeds and leaves handle 0 open, in the server it
    returns. *)
Example first_start_keeps_backend_open :
  let r := bootstrap env_new cfg_new initial_world in
  (exists srv, fst r = Ret (Some srv, None)
               /\ bootstrappedServer.storage srv = Some storage0)
  /\ opened (snd r) = [0].
Proof. vm_compute. split; [eexists; split; reflexivity | reflexivity]. Qed.

(** * Further properties *)

(** ** The committed prefix *)

Lemma CommitedEntries_range_split (hs : HardState.t) (rest pre : list Entry.t) (w0 : World) :
  exists kept dropped,
    rest = kept ++ dropped
    /\ Forall (fun e => (Entry.Index e <= HardState.Commit hs)%N) kept
    /\ starts_beyond (HardState.Commit hs) dropped
    /\ CommitedEntries_range (Some hs) (pre ++ rest) rest (length pre) w0
       = (Ret (pre ++ kept),
          match dropped with
          | [] => w0
          | _ :: _ => logged Info "discarding uncommitted WAL entries" w0
          end).
Proof.
  revert pre. induction rest as [|e rest IH]; intros pre; simpl.
  - exists [], []. rewrite app_nil_r. repeat split. constructor.
  - destruct (N.ltb_spec (HardState.Commit hs) (Entry.Index e)) as [Hlt|Hge].
    + exists [], (e :: rest). repeat split; [constructor | exact Hlt |].
      unfold bind, log, emit, ret, logged. cbn [fst snd].
      rewrite firstn_app, firstn_all, Nat.sub_diag. cbn [firstn].
      rewrite !app_nil_r. reflexivity.
    + destruct (IH (pre ++ [e])) as (kept & dropped & Hsplit & Hall & Hdrop & Hrun).
      exists (e :: kept), dropped.
      rewrite <- app_assoc, length_app in Hrun. cbn [app length] in Hrun.
      rewrite Nat.add_1_r in Hrun.
      repeat split; [simpl; congruence | constructor; assumption | exact Hdrop |].
      rewrite Hrun, <- app_assoc. reflexivity.
Qed.

(** X1: [CommitedEntries] cuts the entries in two where the first entry
    beyond the commit marker stands: what it returns is the part before
    it, every entry of which is at or below the marker, whatever the order
    of the indices; it logs one line when it discards something and none
    otherwise, and has no other effect. *)
Theorem CommitedEntries_keeps_committed_prefix (wal : bootstrappedWAL) (hs : HardState.t)
    (w0 : World) :
  st wal = Some hs ->
  exists kept dropped,
    ents wal = kept ++ dropped
    /\ Forall (fun e => (Entry.Index e <= HardState.Commit hs)%N) kept
    /\ starts_beyond (HardState.Commit hs) dropped
    /\ CommitedEntries wal w0
       = (Ret kept,
          match dropped with
          | [] => w0
          | _ :: _ => logged Info "discarding uncommitted WAL entries" w0
          end).
Proof.
  intros Hst. unfold CommitedEntries. rewrite Hst.
  exact (CommitedEntries_range_split hs (ents wal) [] w0).
Qed.

Lemma CommitedEntries_keeps_committed_prefix_witness :
  exists kept dropped,
    ents wal0 = kept ++ dropped
    /\ Forall (fun e => (Entry.Index e <= 50)%N) kept
    /\ starts_beyond 50%N dropped
    /\ CommitedEntries wal0 initial_world
       = (Ret kept,
          match dropped with
          | [] => initial_world
          | _ :: _ => logged Info "discarding uncommitted WAL entries" initial_world
          end).
Proof.
  exact (@CommitedEntries_keeps_committed_prefix wal0 (HardState.mk 2%N 1%N 50%N)
           initial_world eq_refl).
Defined.

Lemma CommitedEntries_range_all (hs : HardState.t) (rest pre : list Entry.t) (w0 : World) :
  Forall (fun e => (Entry.Index e <= HardState.Commit hs)%N) rest ->
  CommitedEntries_range (Some hs) (pre ++ rest) rest (length pre) w0 = (Ret (pre ++ rest), w0).
Proof.
  revert pre. induction rest as [|e rest IH]; intros pre Hall; simpl.
  - reflexivity.
  - inversion Hall as [|? ? He Hrest]; subst.
    destruct (N.ltb_spec (HardState.Commit hs) (Entry.Index e)) as [Hlt|_]; [lia|].
    specialize (IH (pre ++ [e]) Hrest).
    rewrite <- app_assoc, length_app in IH. cbn [app length] in IH.
    rewrite Nat.add_1_r in IH. exact IH.
Qed.

(** X2: [CommitedEntries] is idempotent: run on the entries it returned, it
    returns them again and logs nothing. *)
Theorem CommitedEntries_idempotent (wal : bootstrappedWAL) (hs : HardState.t)
    (w0 w1 : World) (kept : list Entry.t) :
  st wal = Some hs ->
  CommitedEntries wal w0 = (Ret kept, w1) ->
  CommitedEntries (with_ents wal kept) w1 = (Ret kept, w1).
Proof.
  intros Hst Hrun.
  destruct (@CommitedEntries_range_split hs (ents wal) [] w0)
    as (kept' & dropped & _ & Hall & _ & Hrun').
  unfold CommitedEntries in Hrun. rewrite Hst in Hrun.
  cbn [app length] in Hrun'. rewrite Hrun' in Hrun.
  injection Hrun as Hk _. subst kept'.
  unfold CommitedEntries, with_ents. cbn [st ents]. rewrite Hst.
  exact (@CommitedEntries_range_all hs kept [] w1 Hall).
Qed.

Lemma CommitedEntries_idempotent_witness :
  CommitedEntries (with_ents wal0 (map entry_at [48; 49; 50]%N))
    (logged Info "discarding uncommitted WAL entries" initial_world)
  = (Ret (map entry_at [48; 49; 50]%N),
     logged Info "discarding uncommitted WAL entries" initial_world).
Proof.
  exact (@CommitedEntries_idempotent wal0 (HardState.mk 2%N 1%N 50%N) initial_world
           (logged Info "discarding uncommitted WAL entries" initial_world)
           (map entry_at [48; 49; 50]%N) eq_refl eq_refl).
Defined.

(** Without a hard state, [CommitedEntries] returns an empty list of
    entries as it is, and panics on the first entry of any other list, on
    reading the commit marker through the nil pointer. *)
Lemma CommitedEntries_without_hard_state (wal : bootstrappedWAL) (w0 : World) :
  st wal = None ->
  CommitedEntries wal w0
  = match ents wal with
    | [] => (Ret [], w0)
    | _ :: _ => (Panic nil_dereference, w0)
    end.
Proof.
  intros Hst. unfold CommitedEntries. rewrite Hst.
  destruct (ents wal); reflexivity.
Qed.

Example CommitedEntries_panics_on_nil_hard_state :
  CommitedEntries (mkWAL 0 None [entry_at 1%N] None) initial_world
  = (Panic nil_dereference, initial_world).
Proof.
  exact (@CommitedEntries_without_hard_state (mkWAL 0 None [entry_at 1%N] None)
           initial_world eq_refl).
Qed.

(** ** Appending and committing *)

(** X3: When [AppendAndCommitEntries] returns, the WAL was asked to save the
    new entries and nothing else happened; the entries are the old ones
    followed by the new ones; and unless there is no entry at all the
    commit marker is the index of the very last entry, so the hard state
    and the entries that [MemoryStorage] then hands to raft agree: every
    entry is committed.  Term and vote are as before. *)
Theorem AppendAndCommitEntries_commits_the_log (env : Env) (wal bwal : bootstrappedWAL)
    (new : list Entry.t) (w0 w1 : World) :
  AppendAndCommitEntries env wal new w0 = (Ret bwal, w1) ->
  w1 = recorded [WALSave new] w0
  /\ ents bwal = ents wal ++ new
  /\ snapshot bwal = snapshot wal
  /\ w bwal = w wal
  /\ (ents wal ++ new = [] -> st bwal = st wal)
  /\ (ents wal ++ new <> [] ->
      exists hs e,
        st wal = Some hs
        /\ last_entry (ents wal ++ new) = Some e
        /\ st bwal = Some (HardState.set_Commit (Entry.Index e) hs)
        /\ MemoryStorage bwal
           = match snapshot wal with Some sn => [ApplySnapshot sn] | None => [] end
             ++ [SetHardState (HardState.set_Commit (Entry.Index e) hs);
                 Append (ents wal ++ new)]).
Proof.
  unfold AppendAndCommitEntries, bind, emit. cbn [fst snd w st ents snapshot].
  destruct (wal_Save env); [discriminate|].
  destruct (ents wal ++ new) as [|e0 l] eqn:E.
  - cbn [length Nat.eqb negb ret]. intros H. injection H as <- <-.
    cbn [ents st snapshot w]. repeat split; try assumption; congruence.
  - cbn [length Nat.eqb negb].
    destruct (st wal) as [hs|]; [|discriminate].
    destruct (last_entry (e0 :: l)) as [e|] eqn:El; [|discriminate].
    cbn [ret]. intros H. injection H as <- <-. cbn [ents st snapshot w].
    repeat split; try assumption; try discriminate.
    intros _. exists hs, e. repeat split.
    unfold MemoryStorage, NewMemoryStorage. cbn [ents st snapshot length Nat.eqb negb].
    destruct (snapshot wal); reflexivity.
Qed.

Lemma AppendAndCommitEntries_commits_the_log_witness :
  let new := [Entry.mk 2%N 54%N EntryConfChange (ConfChangeRemoveNode 2%N)] in
  exists hs e,
    st wal0 = Some hs
    /\ last_entry (ents wal0 ++ new) = Some e
    /\ Entry.Index e = 54%N
    /\ st (fst (match AppendAndCommitEntries env0 wal0 new initial_world with
                | (Ret b, w1) => (b, w1)
                | (_, w1) => (wal0, w1)
                end))
       = Some (HardState.set_Commit 54%N hs).
Proof.
  cbv zeta.
  destruct (AppendAndCommitEntries env0 wal0
              [Entry.mk 2%N 54%N EntryConfChange (ConfChangeRemoveNode 2%N)] initial_world)
    as [[b| |] w1] eqn:E; try (vm_compute in E; discriminate E).
  destruct (@AppendAndCommitEntries_commits_the_log env0 wal0 b
              [Entry.mk 2%N 54%N EntryConfChange (ConfChangeRemoveNode 2%N)]
              initial_world w1 E) as (_ & _ & _ & _ & _ & H).
  destruct H as (hs & e & H1 & H2 & H3 & _); [discriminate|].
  exists hs, e. repeat split; [exact H1 | exact H2 | | ].
  - vm_compute in H2. injection H2 as <-. reflexivity.
  - cbn [fst]. rewrite H3. vm_compute in H2. injection H2 as <-. reflexivity.
Defined.

(** X4: [AppendAndCommitEntries] ends the process when the WAL cannot save
    the entries, after asking it to, whatever the entries; when the save
    succeeds it panics exactly if there is an entry and no hard state to
    commit it in. *)
Theorem AppendAndCommitEntries_failures (env : Env) (wal : bootstrappedWAL)
    (new : list Entry.t) (w0 : World) :
  let r := AppendAndCommitEntries env wal new w0 in
  snd r = recorded [WALSave new] w0
  /\ ((exists m, fst r = Fatal m) <-> wal_Save env <> None)
  /\ ((exists m, fst r = Panic m) <->
      wal_Save env = None /\ st wal = None /\ ents wal ++ new <> []).
Proof.
  cbv zeta. unfold AppendAndCommitEntries, bind, emit. cbn [fst snd w st ents snapshot].
  destruct (wal_Save env) as [err|].
  { cbn [fatal fst snd]. split; [reflexivity|]. split; split.
    - intros _. discriminate.
    - intros _. eexists. reflexivity.
    - intros [m H]. discriminate.
    - intros [H _]. discriminate. }
  destruct (ents wal ++ new) as [|e0 l] eqn:E.
  { cbn [length Nat.eqb negb ret fst snd]. split; [reflexivity|]. split; split.
    - intros [m H]. discriminate.
    - intros H. congruence.
    - intros [m H]. discriminate.
    - intros (_ & _ & H). congruence. }
  cbn [length Nat.eqb negb].
  destruct (last_entry_some (l := e0 :: l)) as [e He]; [discriminate|].
  rewrite He. destruct (st wal) as [hs|]; cbn [ret panic fst snd];
    (split; [reflexivity|]); split; split;
    try (intros [m H]; discriminate); try congruence.
  - intros (_ & H & _). discriminate.
  - intros _. repeat split. discriminate.
  - intros _. eexists. reflexivity.
Qed.

(** ** Defragmentation at bootstrap *)

Lemma two64_value : two64 = 18446744073709551616%Z.
Proof. reflexivity. Qed.

(** X5: As long as the sizes are those of a file (the size in use between 0
    and the size, the size an [int64]) and the threshold in bytes fits in
    64 bits, [maybeDefragBackend] skips the defragmentation, logging so,
    exactly when the free space is below the threshold, and otherwise
    returns what [Defrag] returns. *)
Theorem maybeDefragBackend_threshold (env : Env) (cfg : ServerConfig) (be : handle)
    (w0 : World) :
  (0 <= be_SizeInUse env be <= be_Size env be)%Z ->
  (be_Size env be < 2 ^ 63)%Z ->
  (ExperimentalBootstrapDefragThresholdMegabytes cfg < 2 ^ 44)%N ->
  maybeDefragBackend env cfg be w0
  = if (be_Size env be - be_SizeInUse env be
        <? Z.of_N (ExperimentalBootstrapDefragThresholdMegabytes cfg) * 1048576)%Z
    then (Ret None, logged Info "Skipping defragmentation" w0)
    else (Ret (be_Defrag env be), w0).
Proof.
  intros Hsize Hmax Hmb. unfold maybeDefragBackend.
  rewrite two64_value.
  change (2 ^ 63)%Z with 9223372036854775808%Z in Hmax.
  change (2 ^ 44)%N with 17592186044416%N in Hmb.
  rewrite !Z.mod_small by lia.
  replace (Z.of_N (ExperimentalBootstrapDefragThresholdMegabytes cfg) * 1024 * 1024)%Z
    with (Z.of_N (ExperimentalBootstrapDefragThresholdMegabytes cfg) * 1048576)%Z by lia.
  destruct (_ <? _)%Z; reflexivity.
Qed.

Lemma maybeDefragBackend_threshold_witness :
  maybeDefragBackend env0 (cfg_defrag 1%N) 0 initial_world
  = (Ret None, logged Info "Skipping defragmentation" initial_world).
Proof.
  assert (H1 : (0 <= be_SizeInUse env0 0%nat <= be_Size env0 0%nat)%Z) by (simpl; lia).
  assert (H2 : (be_Size env0 0%nat < 2 ^ 63)%Z) by reflexivity.
  assert (H3 : (ExperimentalBootstrapDefragThresholdMegabytes (cfg_defrag 1%N) < 2 ^ 44)%N)
    by reflexivity.
  rewrite (@maybeDefragBackend_threshold env0 (cfg_defrag 1%N) 0 initial_world H1 H2 H3).
  reflexivity.
Defined.

(** X6: When the backend reports more bytes in use than its size, the
    unsigned difference wraps to a huge number, and [maybeDefragBackend]
    defragments whatever the threshold (up to 2^43 megabytes). *)
Theorem maybeDefragBackend_wraps (env : Env) (cfg : ServerConfig) (be : handle)
    (w0 : World) :
  (be_Size env be < be_SizeInUse env be)%Z ->
  (be_SizeInUse env be - be_Size env be <= 2 ^ 63)%Z ->
  (ExperimentalBootstrapDefragThresholdMegabytes cfg <= 2 ^ 43)%N ->
  maybeDefragBackend env cfg be w0 = (Ret (be_Defrag env be), w0).
Proof.
  intros Hlt Hd Hmb. unfold maybeDefragBackend.
  rewrite two64_value.
  change (2 ^ 63)%Z with 9223372036854775808%Z in Hd.
  change (2 ^ 43)%N with 8796093022208%N in Hmb.
  rewrite (Z.mod_small (Z.of_N _ * 1024 * 1024)) by lia.
  rewrite <- (Z_mod_plus_full (be_Size env be - be_SizeInUse env be) 1).
  rewrite Z.mod_small by lia.
  destruct (Z.ltb_spec (be_Size env be - be_SizeInUse env be + 1 * 18446744073709551616)
              (Z.of_N (ExperimentalBootstrapDefragThresholdMegabytes cfg) * 1024 * 1024));
    [lia | reflexivity].
Qed.

Lemma maybeDefragBackend_wraps_witness :
  maybeDefragBackend (env_sized 4096 8192 None) (cfg_defrag 1024%N) 0 initial_world
  = (Ret None, initial_world).
Proof.
  assert (H1 : (be_Size (env_sized 4096 8192 None) 0%nat
                < be_SizeInUse (env_sized 4096 8192 None) 0%nat)%Z) by reflexivity.
  assert (H2 : (be_SizeInUse (env_sized 4096 8192 None) 0%nat
                - be_Size (env_sized 4096 8192 None) 0%nat <= 2 ^ 63)%Z)
    by (vm_compute; discriminate).
  assert (H3 : (ExperimentalBootstrapDefragThresholdMegabytes (cfg_defrag 1024%N)
                <= 2 ^ 43)%N) by (vm_compute; discriminate).
  exact (@maybeDefragBackend_wraps (env_sized 4096 8192 None) (cfg_defrag 1024%N) 0
           initial_world H1 H2 H3).
Defined.

(** X7: With a threshold set and the free space at or above it, a
    defragmentation that fails aborts [bootstrapBackend] at once: the
    error of [Defrag] is returned, the handle just opened is closed, and
    neither the snapshot recovery nor the schema validation is reached. *)
Theorem failed_defrag_aborts (env : Env) (cfg : ServerConfig) (haveWAL : bool) (w0 : World)
    (e : error) :
  handles_allocated w0 ->
  ExperimentalBootstrapDefragThresholdMegabytes cfg <> 0%N ->
  (freeableMemory env (next_handle w0) <? thresholdBytes cfg)%Z = false ->
  be_Defrag env (next_handle w0) = Some e ->
  bootstrapBackend env cfg haveWAL w0
  = (Ret (None, Some e),
     mkWorld (trace w0 ++ [BackendOpen (next_handle w0); BackendClose (next_handle w0)])
       (opened w0) (S (next_handle w0)) (wal_opens w0)).
Proof.
  intros Hw Hmb Hdue Hdefrag.
  unfold bootstrapBackend, bootstrapBackend_body, maybeDefragBackend.
  unfold freeableMemory, thresholdBytes in Hdue.
  apply N.eqb_neq in Hmb. rewrite Hmb. cbn [negb].
  run_monad. rewrite Hdue, Hdefrag.
  cbn [fst snd trace opened next_handle wal_opens].
  rewrite <- app_assoc. cbn [app].
  rewrite remove_owned by exact Hw. reflexivity.
Qed.

Lemma failed_defrag_aborts_witness :
  bootstrapBackend (env_sized 67108864 16777216 (Some (External "defrag"))) (cfg_defrag 16%N)
    true initial_world
  = (Ret (None, Some (External "defrag")),
     mkWorld [BackendOpen 0; BackendClose 0] [] 1 0).
Proof.
  assert (H1 : handles_allocated initial_world) by constructor.
  assert (H2 : ExperimentalBootstrapDefragThresholdMegabytes (cfg_defrag 16%N) <> 0%N)
    by discriminate.
  exact (@failed_defrag_aborts (env_sized 67108864 16777216 (Some (External "defrag")))
           (cfg_defrag 16%N) true initial_world (External "defrag") H1 H2 eq_refl eq_refl).
Defined.

(** X8: A first start cannot fail in [bootstrapBackend]: with no WAL, no
    backend file before and no defragmentation threshold, it returns the
    backend just opened, marked as new and without snapshot, having only
    logged the consistent index. *)
Theorem first_start_backend (env : Env) (cfg : ServerConfig) (w0 : World) :
  ExperimentalBootstrapDefragThresholdMegabytes cfg = 0%N ->
  fileutil_Exist env (BackendPath env cfg) = false ->
  bootstrapBackend env cfg false w0
  = (Ret (Some (bootstrappedBackend.mk (next_handle w0) false None), None),
     mkWorld (trace w0 ++ [BackendOpen (next_handle w0); Log Debug "restore consistentIndex"])
       (next_handle w0 :: opened w0) (S (next_handle w0)) (wal_opens w0)).
Proof.
  intros Hmb Hexist.
  unfold bootstrapBackend, bootstrapBackend_body.
  rewrite Hmb, Hexist. cbn [N.eqb negb].
  run_monad. rewrite <- app_assoc. reflexivity.
Qed.

Lemma first_start_backend_witness :
  bootstrapBackend env_new cfg_new false initial_world
  = (Ret (Some (bootstrappedBackend.mk 0 false None), None),
     mkWorld [BackendOpen 0; Log Debug "restore consistentIndex"] [0] 1 0).
Proof. exact (@first_start_backend env_new cfg_new initial_world eq_refl eq_refl). Defined.

(** ** Failures of the snapshot recovery *)

(** X9: How [recoverSnapshot] fails.  An error of
    [wal.ValidSnapshotEntries] is returned as it is, before anything is
    done.  Once a snapshot is selected: a v2 store that cannot be
    recovered from it is a panic; illegal v2 content is returned as an
    error with the handle that was passed in, the backend not having been
    touched; a backend that cannot be recovered from it is a panic. *)
Theorem recoverSnapshot_failure_modes (env : Env) (cfg : ServerConfig) (be : handle)
    (beExist : bool) (w0 : World) :
  (forall e,
      wal_ValidSnapshotEntries env = inl e ->
      recoverSnapshot env cfg be beExist w0 = (Ret (None, be, Some e), w0))
  /\ (forall walSnaps sn err,
         wal_ValidSnapshotEntries env = inr walSnaps ->
         LoadNewestAvailable_result env walSnaps = (Some sn, err) ->
         other_than_ErrNoSnapshot err = None ->
         (forall e,
             st_Recovery env (Snapshot.Data sn) = Some e ->
             recoverSnapshot env cfg be beExist w0
             = (Panic "failed to recover from snapshot",
                recorded [StoreRecovery (Snapshot.Data sn)] w0))
         /\ (forall e,
                st_Recovery env (Snapshot.Data sn) = None ->
                AssertNoV2StoreContent env = Some e ->
                recoverSnapshot env cfg be beExist w0
                = (Ret (None, be, Some e),
                   recorded [StoreRecovery (Snapshot.Data sn);
                             Log Error "illegal v2store content"] w0))
         /\ (forall e,
                st_Recovery env (Snapshot.Data sn) = None ->
                AssertNoV2StoreContent env = None ->
                RecoverSnapshotBackend_result env = RecoverBackendErr e ->
                recoverSnapshot env cfg be beExist w0
                = (Panic "failed to recover v3 backend from snapshot",
                   recorded [StoreRecovery (Snapshot.Data sn);
                             Log Info "recovered v2 store from snapshot"] w0))).
Proof.
  split.
  - intros e He. unfold recoverSnapshot. rewrite He. reflexivity.
  - intros walSnaps sn err Hv Hl Ho. unfold recoverSnapshot. rewrite Hv, Hl, Ho.
    repeat split.
    + intros e He. rewrite He. reflexivity.
    + intros e Hr He. rewrite Hr, He. run_monad. unfold recorded.
      rewrite <- app_assoc. reflexivity.
    + intros e Hr Ha He. rewrite Hr, Ha. unfold RecoverSnapshotBackend. rewrite He.
      run_monad. unfold recorded. rewrite <- app_assoc. reflexivity.
Qed.

(** X10: For a backend file that did not exist before, [recoverSnapshot] does
    not compare the consistent index with the snapshot: once the snapshot
    is recovered from, it is returned without error and without warning,
    whatever the consistent index. *)
Theorem recoverSnapshot_new_backend_unchecked (env : Env) (cfg : ServerConfig) (be : handle)
    (w0 : World) (walSnaps : list walpb.Snapshot) (sn : Snapshot.t) :
  wal_ValidSnapshotEntries env = inr walSnaps ->
  LoadNewestAvailable_result env walSnaps = (Some sn, None) ->
  st_Recovery env (Snapshot.Data sn) = None ->
  AssertNoV2StoreContent env = None ->
  (forall e, RecoverSnapshotBackend_result env <> RecoverBackendErr e) ->
  let r := recoverSnapshot env cfg be false w0 in
  fst r = Ret (Some sn, recovered_handle env be w0, None)
  /\ exists delta,
       trace (snd r) = trace w0 ++ delta
       /\ forall msg, ~ In (Log Warn msg) delta.
Proof.
  intros Hv Hl Hr Ha Hbe r. subst r.
  unfold recoverSnapshot, recovered_handle, RecoverSnapshotBackend.
  rewrite Hv, Hl, Hr, Ha. cbn [other_than_ErrNoSnapshot].
  destruct (RecoverSnapshotBackend_result env) as [| |e] eqn:Hres;
    [| | exfalso; apply (Hbe e); reflexivity];
    run_monad; (split; [reflexivity|]);
    (eexists; split; [rewrite <- ?app_assoc; cbn [app]; reflexivity|]);
    intros msg Hin; cbn [In] in Hin;
    repeat (destruct Hin as [Hin|Hin]; [discriminate|]); exact Hin.
Qed.

Lemma recoverSnapshot_new_backend_unchecked_witness :
  fst (recoverSnapshot (env_snapshot 7%N) cfg0 0 false initial_world)
  = Ret (Some snapshot100, 0, None).
Proof.
  assert (H : forall e, RecoverSnapshotBackend_result (env_snapshot 7%N)
                        <> RecoverBackendErr e) by (intros e; discriminate).
  destruct (@recoverSnapshot_new_backend_unchecked (env_snapshot 7%N) cfg0 0 initial_world
              [walpb.mkSnapshot 0%N 0%N; walpb.mkSnapshot 100%N 2%N] snapshot100
              eq_refl eq_refl eq_refl eq_refl H) as [Hfst _].
  exact Hfst.
Defined.

(** ** The raft builders *)

(** X11: The heartbeat is the tick in milliseconds as a duration in
    nanoseconds as long as the product fits an [int64], that is up to
    9223372036854 ms; right above, the product wraps and the heartbeat is
    negative. *)
Theorem heartbeat_bounds (cfg : ServerConfig) :
  ((TickMs cfg <= 9223372036854)%N ->
   heartbeat_of cfg = (Z.of_N (TickMs cfg) * 1000000)%Z)
  /\ ((9223372036855 <= TickMs cfg <= 18446744073709)%N ->
      heartbeat_of cfg = (Z.of_N (TickMs cfg) * 1000000 - 2 ^ 64)%Z
      /\ (heartbeat_of cfg < 0)%Z).
Proof.
  unfold heartbeat_of, wrap_int64.
  change (2 ^ 63)%Z with 9223372036854775808%Z.
  change (2 ^ 64)%Z with 18446744073709551616%Z.
  split.
  - intros H. rewrite (Z.mod_small (Z.of_N (TickMs cfg) + _)) by lia.
    rewrite Z.mod_small by lia. lia.
  - intros H. rewrite (Z.mod_small (Z.of_N (TickMs cfg) + _)) by lia.
    replace (Z.of_N (TickMs cfg) + 9223372036854775808 - 9223372036854775808)%Z
      with (Z.of_N (TickMs cfg)) by lia.
    assert (Hm : ((Z.of_N (TickMs cfg) * 1000000 + 9223372036854775808)
                  mod 18446744073709551616
                  = Z.of_N (TickMs cfg) * 1000000 + 9223372036854775808
                    - 18446744073709551616)%Z).
    { symmetry. apply Z.mod_unique with (q := 1%Z); lia. }
    rewrite Hm. lia.
Qed.

Lemma make_peers_panics (env : Env) (cl : membership.RaftCluster) (ids : list types.ID)
    (w0 : World) :
  Exists (fun id => exists e, json_Marshal env (membership.Member_ cl id) = inl e) ids ->
  make_peers env cl ids w0 = (Panic "failed to marshal member", w0).
Proof.
  induction ids as [|id ids IH]; intros H; [inversion H|]. simpl.
  destruct (json_Marshal env (membership.Member_ cl id)) as [e|ctx] eqn:Hm; [reflexivity|].
  inversion H as [? ? [e He]|? ? Hrest]; subst; [congruence|].
  unfold bind. rewrite (IH Hrest). reflexivity.
Qed.

Lemma make_peers_returns (env : Env) (cl : membership.RaftCluster) (ids : list types.ID)
    (w0 : World) :
  Forall (fun id => exists ctx, json_Marshal env (membership.Member_ cl id) = inr ctx) ids ->
  exists peers, make_peers env cl ids w0 = (Ret peers, w0) /\ map Peer.ID peers = ids.
Proof.
  induction ids as [|id ids IH]; intros H; simpl.
  - exists []. split; reflexivity.
  - inversion H as [|? ? [ctx Hctx] Hrest]; subst. rewrite Hctx.
    destruct (IH Hrest) as (peers & Hrun & Hids).
    exists (Peer.mk id ctx :: peers). unfold bind. rewrite Hrun. split; [reflexivity|].
    simpl. rewrite Hids. reflexivity.
Qed.

(** X12: How [bootstrapRaftFromCluster] ends.  If the JSON of some member to
    list cannot be produced it panics on it, even when the local member is
    unknown; if all can and the cluster has no member with the configured
    name, it panics on the nil member; otherwise it returns one peer per
    ID, in order, and a raft configuration whose ID is the local member's
    and whose storage is the one built from the WAL. *)
Theorem bootstrapRaftFromCluster_outcome (env : Env) (cfg : ServerConfig)
    (cl : membership.RaftCluster) (ids : list types.ID) (bwal : bootstrappedWAL)
    (w0 : World) :
  let r := bootstrapRaftFromCluster env cfg cl ids bwal w0 in
  let can_marshal id := exists ctx, json_Marshal env (membership.Member_ cl id) = inr ctx in
  let cannot_marshal id := exists e, json_Marshal env (membership.Member_ cl id) = inl e in
  (Exists cannot_marshal ids -> fst r = Panic "failed to marshal member")
  /\ (Forall can_marshal ids -> membership.MemberByName cl (Name cfg) = None ->
      fst r = Panic nil_dereference)
  /\ (Forall can_marshal ids ->
      forall m, membership.MemberByName cl (Name cfg) = Some m ->
      exists peers,
        fst r = Ret (bootstrappedRaft.mk (heartbeat_of cfg) peers
                       (raftConfig env cfg (membership.ID m) (MemoryStorage bwal))
                       (MemoryStorage bwal))
        /\ map Peer.ID peers = ids).
Proof.
  cbv zeta. unfold bootstrapRaftFromCluster, bind. cbn [emit].
  repeat split.
  - intros H. rewrite (@make_peers_panics env cl ids _ H). reflexivity.
  - intros H Hm. destruct (@make_peers_returns env cl ids
                (recorded [Enter "bootstrapRaftFromCluster"] w0) H) as (peers & Hrun & _).
    unfold recorded in Hrun.
    rewrite Hrun, Hm. reflexivity.
  - intros H m Hm. destruct (@make_peers_returns env cl ids
                (recorded [Enter "bootstrapRaftFromCluster"] w0) H) as (peers & Hrun & Hids).
    unfold recorded in Hrun.
    rewrite Hrun, Hm. exists peers. split; [reflexivity | exact Hids].
Qed.

(** ** What a bootstrap records *)

Section EmitsOnly.
Context (allowed : Event -> Prop).

Lemma emits_only_ret {A} (a : A) : emits_only allowed (ret a).
Proof. intros w. exists []. rewrite app_nil_r. split; [reflexivity | constructor]. Qed.

Lemma emits_only_fatal {A} (msg : string) : emits_only allowed (@fatal A msg).
Proof. intros w. exists []. rewrite app_nil_r. split; [reflexivity | constructor]. Qed.

Lemma emits_only_panic {A} (msg : string) : emits_only allowed (@panic A msg).
Proof. intros w. exists []. rewrite app_nil_r. split; [reflexivity | constructor]. Qed.

Lemma emits_only_emit (e : Event) : allowed e -> emits_only allowed (emit e).
Proof. intros He w. exists [e]. split; [reflexivity | constructor; [exact He | constructor]]. Qed.

Lemma emits_only_log (l : Level) (msg : string) :
  allowed (Log l msg) -> emits_only allowed (log l msg).
Proof. apply emits_only_emit. Qed.

Lemma emits_only_bind {A B} (m : M A) (k : A -> M B) :
  emits_only allowed m -> (forall a, emits_only allowed (k a)) ->
  emits_only allowed (bind m k).
Proof.
  intros Hm Hk w. unfold bind. destruct (Hm w) as (d1 & Ht1 & Ha1).
  destruct (m w) as [[a|msg|msg] w1]; cbn [snd] in *.
  - destruct (Hk a w1) as (d2 & Ht2 & Ha2). exists (d1 ++ d2).
    rewrite Ht2, Ht1, app_assoc. split; [reflexivity | apply Forall_app; auto].
  - exists d1. auto.
  - exists d1. auto.
Qed.

Lemma emits_only_OpenBackend :
  (forall h, allowed (BackendOpen h)) -> emits_only allowed OpenBackend.
Proof. intros H w. exists [BackendOpen (next_handle w)]. split; [reflexivity | auto]. Qed.

Lemma emits_only_be_Close (h : handle) :
  allowed (BackendClose h) -> emits_only allowed (be_Close h).
Proof. intros H w. exists [BackendClose h]. split; [reflexivity | auto]. Qed.

Lemma emits_only_wal_Open_call (env : Env) (walsnap : walpb.Snapshot) :
  allowed (WALOpen walsnap) -> emits_only allowed (wal_Open_call env walsnap).
Proof. intros H w. exists [WALOpen walsnap]. split; [reflexivity | auto]. Qed.

Lemma emits_only_wal_Create_call (env : Env) (md : Metadata.t) :
  allowed (WALCreate md) -> emits_only allowed (wal_Create_call env md).
Proof. intros H w. exists [WALCreate md]. split; [reflexivity | auto]. Qed.

End EmitsOnly.

Lemma emits_only_weaken {A} (P Q : Event -> Prop) (m : M A) :
  (forall e, P e -> Q e) -> emits_only P m -> emits_only Q m.
Proof.
  intros HPQ Hm w. destruct (Hm w) as (d & Ht & Ha). exists d. split; [exact Ht|].
  eapply Forall_impl; [exact HPQ | exact Ha].
Qed.

Lemma attempt_events (cfg : ServerConfig) (walsnap : walpb.Snapshot) :
  Forall (opening_event cfg walsnap) (attempt cfg walsnap).
Proof.
  unfold attempt. destruct (UnsafeNoFsync cfg) eqn:Hf; repeat constructor. exact Hf.
Qed.

Lemma openWAL_body_events env cfg walsnap sn repaired :
  emits_only (opening_event cfg walsnap) (openWAL_body env cfg walsnap sn repaired).
Proof.
  intros w0. rewrite openWAL_body_cases. cbv zeta.
  pose proof (attempt_events cfg walsnap) as Ha.
  destruct (wal_Open env (wal_opens w0)).
  { exists [WALOpen walsnap]. split; [reflexivity | repeat constructor]. }
  destruct (wal_ReadAll env (wal_opens w0)) as [md hs es|e].
  { destruct (Unmarshal_Metadata env md); exists (attempt cfg walsnap);
      (split; [reflexivity | exact Ha]). }
  destruct (repaired || negb (is_ErrUnexpectedEOF e)); [|destruct (wal_Repair env _)];
    eexists; (split; [reflexivity|]); apply Forall_app; (split; [exact Ha|]);
    repeat constructor.
Qed.

Lemma openWAL_loop_events env cfg walsnap sn repaired :
  emits_only (opening_event cfg walsnap) (openWAL_loop env cfg walsnap sn repaired).
Proof.
  assert (Hlast : emits_only (opening_event cfg walsnap)
                    (openWAL_loop env cfg walsnap sn true)).
  { intros w0. rewrite openWAL_loop_step.
    destruct (openWAL_body_events env cfg walsnap sn true w0) as (d & Ht & Hd).
    destruct (openWAL_body env cfg walsnap sn true w0) as [[[r'|a]|m|m] w1] eqn:Hb;
      cbn [snd] in *; try (exists d; split; assumption).
    apply openWAL_body_continue in Hb. destruct Hb; discriminate. }
  destruct repaired; [exact Hlast|].
  intros w0. rewrite openWAL_loop_step.
  destruct (openWAL_body_events env cfg walsnap sn false w0) as (d & Ht & Hd).
  destruct (openWAL_body env cfg walsnap sn false w0) as [[[r'|a]|m|m] w1] eqn:Hb;
    cbn [snd] in *; try (exists d; split; assumption).
  apply openWAL_body_continue in Hb. destruct Hb as [_ ->].
  destruct (Hlast w1) as (d2 & Ht2 & Hd2). exists (d ++ d2).
  rewrite Ht2, Ht, app_assoc. split; [reflexivity | apply Forall_app; auto].
Qed.

(** X13: Whatever the WAL answers, [openWALFromSnapshot] only opens it, at
    the position of the snapshot it is given (index and term, or the zero
    position without snapshot), also when it opens it again after a
    repair; disables fsync on it only if configured so; reads, closes and
    repairs it; and logs the repair.  It records nothing else: it never
    saves to the WAL, creates one, or removes a file. *)
Theorem openWALFromSnapshot_events (env : Env) (cfg : ServerConfig)
    (snap0 : option Snapshot.t) (w0 : World) :
  exists delta,
    trace (snd (openWALFromSnapshot env cfg snap0 w0)) = trace w0 ++ delta
    /\ Forall (opening_event cfg (walsnap_of snap0)) delta
    /\ (forall pos, In (WALOpen pos) delta ->
        pos = match snap0 with
              | Some sn =>
                  walpb.mkSnapshot (SnapshotMetadata.Index (Snapshot.Metadata sn))
                                   (SnapshotMetadata.Term (Snapshot.Metadata sn))
              | None => walpb.mkSnapshot 0%N 0%N
              end)
    /\ (forall ents, ~ In (WALSave ents) delta)
    /\ (forall md, ~ In (WALCreate md) delta)
    /\ (forall path, ~ In (RemoveAll path) delta).
Proof.
  destruct (@openWAL_loop_events env cfg (walsnap_of snap0) snap0 false w0)
    as (delta & Ht & Hd).
  exists delta. split; [exact Ht|]. split; [exact Hd|].
  rewrite Forall_forall in Hd.
  repeat split.
  - intros pos Hin. exact (Hd _ Hin).
  - intros ents Hin. exact (Hd _ Hin).
  - intros md Hin. exact (Hd _ Hin).
  - intros path Hin. exact (Hd _ Hin).
Qed.

Lemma emits_only_bind_post {A B} (allowed : Event -> Prop) (Q : A -> Prop)
    (m : M A) (k : A -> M B) :
  (forall w a w', m w = (Ret a, w') -> Q a) ->
  emits_only allowed m -> (forall a, Q a -> emits_only allowed (k a)) ->
  emits_only allowed (bind m k).
Proof.
  intros HQ Hm Hk w. unfold bind. destruct (Hm w) as (d1 & Ht1 & Ha1).
  destruct (m w) as [[a|msg|msg] w1] eqn:Hrun; cbn [snd] in *.
  - destruct (Hk a (HQ _ _ _ Hrun) w1) as (d2 & Ht2 & Ha2). exists (d1 ++ d2).
    rewrite Ht2, Ht1, app_assoc. split; [reflexivity | apply Forall_app; auto].
  - exists d1. auto.
  - exists d1. auto.
Qed.

Lemma CommitedEntries_range_events (allowed : Event -> Prop) hs all rest i :
  (forall l msg, allowed (Log l msg)) ->
  emits_only allowed (CommitedEntries_range hs all rest i).
Proof.
  intros Hlog. revert i. induction rest as [|e rest IH]; intros i; simpl.
  - apply emits_only_ret.
  - destruct hs as [hs|]; [|apply emits_only_panic].
    destruct (N.ltb (HardState.Commit hs) (Entry.Index e)); [|apply IH].
    apply emits_only_bind; [apply emits_only_log; apply Hlog | intros; apply emits_only_ret].
Qed.

Lemma make_peers_events (allowed : Event -> Prop) env cl ids :
  emits_only allowed (make_peers env cl ids).
Proof.
  induction ids as [|id ids IH]; simpl; [apply emits_only_ret|].
  destruct (json_Marshal env (membership.Member_ cl id)); [apply emits_only_panic|].
  apply emits_only_bind; [assumption | intros; apply emits_only_ret].
Qed.

Create HintDb footprint.

Ltac emits_leaf :=
  cbv beta iota zeta delta [bootstrap_event];
  first [ exact I | assumption | reflexivity
        | repeat split; first [assumption | reflexivity] ].

Ltac emits_step :=
  first
    [ apply emits_only_ret
    | apply emits_only_fatal
    | apply emits_only_panic
    | apply emits_only_log; emits_leaf
    | apply emits_only_emit; emits_leaf
    | apply emits_only_OpenBackend; intros; emits_leaf
    | apply emits_only_be_Close; emits_leaf
    | apply emits_only_wal_Create_call; emits_leaf
    | apply make_peers_events
    | apply CommitedEntries_range_events; intros; emits_leaf
    | assumption
    | solve [eauto with footprint nocore]
    | progress cbv zeta
    | apply emits_only_bind; [|intros]
    | match goal with
      | |- emits_only _ (match ?x with _ => _ end) => destruct x eqn:?
      end ].

Ltac emits_tac := repeat emits_step.

Section Footprint.
Context (env : Env) (cfg : ServerConfig).

Lemma maybeDefragBackend_events be :
  emits_only (bootstrap_event env cfg) (maybeDefragBackend env cfg be).
Proof. unfold maybeDefragBackend. emits_tac. Qed.

Lemma RecoverSnapshotBackend_events be :
  emits_only (bootstrap_event env cfg) (RecoverSnapshotBackend env be).
Proof. unfold RecoverSnapshotBackend. emits_tac. Qed.

Lemma bootstrapSnapshot_events :
  emits_only (bootstrap_event env cfg) (bootstrapSnapshot env cfg).
Proof. unfold bootstrapSnapshot. emits_tac. Qed.

Lemma recoverSnapshot_events be beExist :
  wal_Exist env (WALDir env cfg) = true ->
  emits_only (bootstrap_event env cfg) (recoverSnapshot env cfg be beExist).
Proof.
  intros Hwal. unfold recoverSnapshot.
  destruct (wal_ValidSnapshotEntries env) as [e|walSnaps] eqn:Hv; [emits_tac|].
  destruct (LoadNewestAvailable_result env walSnaps) as [sn err] eqn:Hl.
  destruct (other_than_ErrNoSnapshot err); [emits_tac|].
  destruct sn as [sn|]; [|emits_tac].
  apply emits_only_bind.
  - apply emits_only_emit. cbv beta iota zeta delta [bootstrap_event].
    split; [exact Hwal|]. exists sn. unfold recovered_snapshot. rewrite Hv, Hl.
    split; reflexivity.
  - intros _. pose proof (RecoverSnapshotBackend_events be). emits_tac.
Qed.

Lemma bootstrapBackend_body_events haveWAL beExist be :
  haveWAL = wal_Exist env (WALDir env cfg) ->
  emits_only (bootstrap_event env cfg) (bootstrapBackend_body env cfg haveWAL beExist be).
Proof.
  intros Hwal. unfold bootstrapBackend_body.
  pose proof (maybeDefragBackend_events be).
  apply emits_only_bind; [emits_tac|]. intros err.
  destruct err; [emits_tac|].
  apply emits_only_bind; [emits_tac|]. intros _.
  apply emits_only_bind.
  - destruct haveWAL; [|emits_tac]. apply recoverSnapshot_events. congruence.
  - intros r. emits_tac.
Qed.

Lemma bootstrapBackend_events haveWAL :
  haveWAL = wal_Exist env (WALDir env cfg) ->
  emits_only (bootstrap_event env cfg) (bootstrapBackend env cfg haveWAL).
Proof.
  intros Hwal. unfold bootstrapBackend.
  apply emits_only_bind; [emits_tac|]. intros be.
  apply emits_only_bind; [apply bootstrapBackend_body_events; exact Hwal|].
  intros r. emits_tac.
Qed.

Lemma bootstrapStorage_events haveWAL :
  haveWAL = wal_Exist env (WALDir env cfg) ->
  emits_only (bootstrap_event env cfg) (bootstrapStorage env cfg haveWAL).
Proof.
  intros Hwal. unfold bootstrapStorage.
  apply emits_only_bind; [apply bootstrapBackend_events; exact Hwal|].
  intros r. emits_tac.
Qed.

End Footprint.

(** The snapshot that [recoverSnapshot] returns without error is the
    selected one. *)
Lemma recoverSnapshot_result env cfg be beExist w sn be' w' :
  recoverSnapshot env cfg be beExist w = (Ret (sn, be', None), w') ->
  sn = recovered_snapshot env.
Proof.
  unfold recoverSnapshot, recovered_snapshot.
  destruct (wal_ValidSnapshotEntries env) as [e|walSnaps]; [discriminate|].
  destruct (LoadNewestAvailable_result env walSnaps) as [s err].
  destruct (other_than_ErrNoSnapshot err); [discriminate|].
  destruct s as [s|]; [|run_monad; intros H; injection H as <- _ _; reflexivity].
  unfold bind at 1. cbn [emit].
  destruct (st_Recovery env (Snapshot.Data s)); [discriminate|].
  destruct (AssertNoV2StoreContent env); [discriminate|].
  unfold bind at 1. cbn [log emit]. unfold bind at 1.
  destruct (RecoverSnapshotBackend env be _) as [[[be1 [e|]]|m|m] w1]; try discriminate.
  unfold bind at 1. cbn [log emit].
  destruct beExist; [|intros H; injection H as <- _ _; reflexivity].
  destruct (N.ltb _ _); [|intros H; injection H as <- _ _; reflexivity].
  destruct (negb _); [discriminate|].
  run_monad. intros H; injection H as <- _ _; reflexivity.
Qed.

Lemma bootstrapBackend_body_result env cfg haveWAL beExist be w b be' w' :
  bootstrapBackend_body env cfg haveWAL beExist be w = (Ret (b, be', None), w') ->
  exists bb,
    b = Some bb
    /\ bootstrappedBackend.beExist bb = beExist
    /\ bootstrappedBackend.snapshot bb = if haveWAL then recovered_snapshot env else None.
Proof.
  unfold bootstrapBackend_body.
  set (defrag := if negb _ then _ else _).
  unfold bind at 1.
  destruct (defrag w) as [[[e|]|m|m] w1]; try discriminate.
  unfold bind at 1. cbn [log emit]. unfold bind at 1.
  destruct haveWAL.
  - destruct (recoverSnapshot env cfg be beExist _) as [[[[sn be1] [e|]]|m|m] w2] eqn:Hrs;
      try discriminate.
    apply recoverSnapshot_result in Hrs.
    destruct (if beExist then schema_Validate env be1 else None); [discriminate|].
    intros H. injection H as <- _ _. eexists. repeat split. exact Hrs.
  - cbn [ret].
    destruct (if beExist then schema_Validate env be else None); [discriminate|].
    intros H. injection H as <- _ _. eexists. repeat split.
Qed.

Lemma bootstrapStorage_result env cfg haveWAL w s w' :
  bootstrapStorage env cfg haveWAL w = (Ret (s, None), w') ->
  exists storage, s = Some storage /\ storage_as_bootstrapped env cfg haveWAL storage.
Proof.
  unfold bootstrapStorage, bootstrapBackend. unfold bind at 1. unfold bind at 1.
  destruct (OpenBackend w) as [[be|m|m] w1]; try discriminate.
  unfold bind at 1.
  destruct (bootstrapBackend_body env cfg haveWAL _ be w1) as [[[[b be1] [e|]]|m|m] w2]
    eqn:Hbody; try discriminate.
  apply bootstrapBackend_body_result in Hbody.
  destruct Hbody as (bb & -> & Hex & Hsn).
  cbn [ret]. intros H. injection H as <- _.
  eexists. split; [reflexivity|]. exists bb. repeat split; assumption.
Qed.

Section ClusterFootprint.
Context (env : Env) (cfg : ServerConfig).

Lemma openWALFromSnapshot_bootstrap_events :
  wal_Exist env (WALDir env cfg) = true ->
  emits_only (bootstrap_event env cfg)
    (openWALFromSnapshot env cfg (recovered_snapshot env)).
Proof.
  intros Hwal.
  apply emits_only_weaken with (P := opening_event cfg (walsnap_of (recovered_snapshot env))).
  - intros e He. destruct e; cbv beta iota zeta delta [bootstrap_event opening_event] in *;
      try contradiction; auto.
  - apply openWAL_loop_events.
Qed.

Lemma AppendAndCommitEntries_events wal new :
  wal_Exist env (WALDir env cfg) = true ->
  ForceNewCluster cfg = true ->
  emits_only (bootstrap_event env cfg) (AppendAndCommitEntries env wal new).
Proof. intros Hwal Hforce. unfold AppendAndCommitEntries. emits_tac. Qed.

Lemma bootstrapWALFromSnapshot_events :
  wal_Exist env (WALDir env cfg) = true ->
  emits_only (bootstrap_event env cfg)
    (bootstrapWALFromSnapshot env cfg (recovered_snapshot env)).
Proof.
  intros Hwal. unfold bootstrapWALFromSnapshot.
  apply emits_only_bind; [apply openWALFromSnapshot_bootstrap_events; exact Hwal|].
  intros o. destruct (ForceNewCluster cfg) eqn:Hforce; [|emits_tac].
  apply emits_only_bind; [unfold CommitedEntries; emits_tac|]. intros committed.
  apply emits_only_bind; [unfold ConfigChangeEntries; emits_tac|]. intros entries.
  apply emits_only_bind; [apply AppendAndCommitEntries_events; assumption|].
  intros bwal. emits_tac.
Qed.

Lemma bootstrapNewWAL_events cl nodeID :
  wal_Exist env (WALDir env cfg) = false ->
  emits_only (bootstrap_event env cfg) (bootstrapNewWAL env cfg cl nodeID).
Proof. intros Hwal. unfold bootstrapNewWAL. emits_tac. Qed.

Lemma bootstrapExistingClusterNoWAL_events be :
  emits_only (bootstrap_event env cfg) (bootstrapExistingClusterNoWAL env cfg be).
Proof. unfold bootstrapExistingClusterNoWAL. emits_tac. Qed.

Lemma bootstrapNewClusterNoWAL_events be :
  emits_only (bootstrap_event env cfg) (bootstrapNewClusterNoWAL env cfg be).
Proof. unfold bootstrapNewClusterNoWAL. emits_tac. Qed.

Lemma bootstrapClusterWithWAL_events storage meta :
  wal_Exist env (WALDir env cfg) = true ->
  storage_as_bootstrapped env cfg true storage ->
  emits_only (bootstrap_event env cfg) (bootstrapClusterWithWAL env cfg storage meta).
Proof.
  intros Hwal (bb & Hbb & Hexist & _). unfold bootstrapClusterWithWAL. rewrite Hbb.
  apply emits_only_bind; [emits_tac|]. intros _.
  destruct (IsDirWriteable env (MemberDir env cfg)); [emits_tac|].
  apply emits_only_bind; [emits_tac|]. intros _.
  destruct (v3_cluster_without_backend env _ (bootstrappedBackend.beExist bb)) eqn:Hv3;
    [|emits_tac].
  assert (Hmissing : fileutil_Exist env (BackendPath env cfg) = false).
  { rewrite <- Hexist. unfold v3_cluster_without_backend in Hv3.
    destruct (membership.version _); [|discriminate].
    destruct (bootstrappedBackend.beExist bb); [|reflexivity].
    rewrite andb_false_r in Hv3. discriminate. }
  emits_tac.
Qed.

Lemma bootstrapRaftFromCluster_events cl ids bwal :
  emits_only (bootstrap_event env cfg) (bootstrapRaftFromCluster env cfg cl ids bwal).
Proof. unfold bootstrapRaftFromCluster. emits_tac. Qed.

Lemma bootstrapRaftFromSnapshot_events bwal meta :
  emits_only (bootstrap_event env cfg) (bootstrapRaftFromSnapshot env cfg bwal meta).
Proof. unfold bootstrapRaftFromSnapshot. emits_tac. Qed.

Lemma then_new_WAL_events r :
  wal_Exist env (WALDir env cfg) = false ->
  emits_only (bootstrap_event env cfg) (then_new_WAL env cfg r).
Proof.
  intros Hwal. unfold then_new_WAL.
  destruct r as [[c|] [err|]]; emits_tac.
Qed.

Lemma resolve_cluster_events haveWAL storage walmeta :
  haveWAL = wal_Exist env (WALDir env cfg) ->
  storage_as_bootstrapped env cfg haveWAL storage ->
  emits_only (bootstrap_event env cfg) (resolve_cluster env cfg haveWAL storage walmeta).
Proof.
  intros Hwal Hst. unfold resolve_cluster.
  pose proof bootstrapExistingClusterNoWAL_events.
  pose proof bootstrapNewClusterNoWAL_events.
  destruct haveWAL.
  - replace (first_switch true (NewCluster cfg)) with RestartFromLog
      by (destruct (NewCluster cfg); reflexivity).
    destruct walmeta as [[bwal meta]|]; [|emits_tac].
    apply emits_only_bind;
      [apply bootstrapClusterWithWAL_events; [congruence | exact Hst] | intros; emits_tac].
  - symmetry in Hwal. pose proof (fun r => @then_new_WAL_events r Hwal).
    destruct (NewCluster cfg); cbn [first_switch negb andb]; emits_tac.
Qed.

Lemma build_raft_events haveWAL c walmeta :
  emits_only (bootstrap_event env cfg) (build_raft env cfg haveWAL c walmeta).
Proof.
  unfold build_raft.
  pose proof bootstrapRaftFromCluster_events.
  pose proof bootstrapRaftFromSnapshot_events.
  emits_tac.
Qed.

Lemma bootstrapCluster_events haveWAL storage :
  haveWAL = wal_Exist env (WALDir env cfg) ->
  storage_as_bootstrapped env cfg haveWAL storage ->
  emits_only (bootstrap_event env cfg) (bootstrapCluster env cfg haveWAL storage).
Proof.
  intros Hwal Hst. unfold bootstrapCluster.
  apply emits_only_bind.
  - destruct haveWAL; [|emits_tac].
    destruct (IsDirWriteable env (WALDir env cfg)); [emits_tac|].
    destruct Hst as (bb & Hbb & _ & Hsn). rewrite Hbb, Hsn.
    apply emits_only_bind;
      [apply bootstrapWALFromSnapshot_events; congruence | intros; emits_tac].
  - intros [err|walmeta]; [emits_tac|].
    apply emits_only_bind; [apply resolve_cluster_events; assumption|].
    intros [err|c]; [emits_tac|]. apply build_raft_events.
Qed.

(** Every event that [bootstrap] records is one that the files on disk
    and the configuration admit. *)
Lemma bootstrap_events :
  emits_only (bootstrap_event env cfg) (bootstrap env cfg).
Proof.
  unfold bootstrap.
  apply emits_only_bind; [emits_tac|]. intros _.
  destruct (TouchDirAll env (DataDir cfg)); [emits_tac|].
  apply emits_only_bind; [apply bootstrapSnapshot_events|]. intros _.
  destruct (NewRoundTripper env); [emits_tac|].
  destruct (TouchDirAll env (MemberDir env cfg)); [emits_tac|].
  cbv zeta.
  apply emits_only_bind_post
    with (Q := fun r => forall s, r = (s, None) ->
                 exists storage,
                   s = Some storage
                   /\ storage_as_bootstrapped env cfg (wal_Exist env (WALDir env cfg)) storage).
  - intros w r w' Hrun s ->. eapply bootstrapStorage_result. exact Hrun.
  - apply bootstrapStorage_events. reflexivity.
  - intros [s [err|]] HQ; [emits_tac|].
    destruct (HQ s eq_refl) as (storage & -> & Hst).
    apply emits_only_bind; [apply bootstrapCluster_events; [reflexivity | exact Hst]|].
    intros [cluster [err|]]; [|emits_tac].
    apply emits_only_bind; [|intros; emits_tac].
    unfold close_storage_backend. destruct Hst as (bb & Hbb & _). cbn. rewrite Hbb.
    emits_tac.
Qed.

End ClusterFootprint.

(** ** What a bootstrap never does *)

(** X14: With [UnsafeNoFsync] off, no step of [bootstrap] disables fsync on a
    WAL, whether the WAL is opened, opened again after a repair, or
    created. *)
Theorem fsync_disabled_only_if_configured (env : Env) (cfg : ServerConfig) (w0 : World) :
  UnsafeNoFsync cfg = false ->
  exists delta,
    trace (snd (bootstrap env cfg w0)) = trace w0 ++ delta
    /\ ~ In WALSetUnsafeNoFsync delta.
Proof.
  intros Hoff. destruct (bootstrap_events env cfg w0) as (delta & Ht & Hd).
  exists delta. split; [exact Ht|]. intros Hin.
  rewrite Forall_forall in Hd. specialize (Hd _ Hin).
  cbv beta iota zeta delta [bootstrap_event] in Hd. congruence.
Qed.

Lemma fsync_disabled_only_if_configured_witness :
  exists delta,
    trace (snd (bootstrap env0 cfg0 initial_world)) = trace initial_world ++ delta
    /\ ~ In WALSetUnsafeNoFsync delta.
Proof. exact (@fsync_disabled_only_if_configured env0 cfg0 initial_world eq_refl). Defined.

(** X15: [bootstrap] saves entries to the WAL only on a forced recovery of an
    existing WAL: with [ForceNewCluster] off, or without WAL on disk,
    nothing is saved to it. *)
Theorem WAL_saved_only_on_forced_recovery (env : Env) (cfg : ServerConfig) (w0 : World) :
  ForceNewCluster cfg = false \/ wal_Exist env (WALDir env cfg) = false ->
  exists delta,
    trace (snd (bootstrap env cfg w0)) = trace w0 ++ delta
    /\ forall ents, ~ In (WALSave ents) delta.
Proof.
  intros Hoff. destruct (bootstrap_events env cfg w0) as (delta & Ht & Hd).
  exists delta. split; [exact Ht|]. intros ents Hin.
  rewrite Forall_forall in Hd. specialize (Hd _ Hin).
  cbv beta iota zeta delta [bootstrap_event] in Hd. destruct Hd, Hoff; congruence.
Qed.

Lemma WAL_saved_only_on_forced_recovery_witness :
  exists delta,
    trace (snd (bootstrap env0 cfg0 initial_world)) = trace initial_world ++ delta
    /\ forall ents, ~ In (WALSave ents) delta.
Proof.
  exact (@WAL_saved_only_on_forced_recovery env0 cfg0 initial_world (or_introl eq_refl)).
Defined.

(** X16: [bootstrap] either uses the WAL on disk or creates one, never both:
    when a WAL exists none is created, and when none exists nothing is
    opened, read, closed, repaired or saved to. *)
Theorem WAL_created_or_opened (env : Env) (cfg : ServerConfig) (w0 : World) :
  exists delta,
    trace (snd (bootstrap env cfg w0)) = trace w0 ++ delta
    /\ (wal_Exist env (WALDir env cfg) = true -> forall md, ~ In (WALCreate md) delta)
    /\ (wal_Exist env (WALDir env cfg) = false ->
        forall e, In e delta -> touches_WAL e = false).
Proof.
  destruct (bootstrap_events env cfg w0) as (delta & Ht & Hd).
  exists delta. split; [exact Ht|]. rewrite Forall_forall in Hd. split.
  - intros Hwal md Hin. specialize (Hd _ Hin).
    cbv beta iota zeta delta [bootstrap_event] in Hd. congruence.
  - intros Hwal e Hin. specialize (Hd _ Hin).
    destruct e; cbv beta iota zeta delta [bootstrap_event] in Hd; try reflexivity;
      try (destruct Hd; congruence); congruence.
Qed.


(** X18: Whenever [bootstrap] opens the WAL, it opens it at the index and term
    of the snapshot that the snapshotter selected among the valid
    positions of the WAL, or at the zero position when there is none; and
    the v2 store is recovered from the data of that snapshot only. *)
Theorem WAL_opened_at_selected_snapshot (env : Env) (cfg : ServerConfig) (w0 : World) :
  exists delta,
    trace (snd (bootstrap env cfg w0)) = trace w0 ++ delta
    /\ (forall pos,
           In (WALOpen pos) delta ->
           pos = match recovered_snapshot env with
                 | Some sn =>
                     walpb.mkSnapshot (SnapshotMetadata.Index (Snapshot.Metadata sn))
                                      (SnapshotMetadata.Term (Snapshot.Metadata sn))
                 | None => walpb.mkSnapshot 0%N 0%N
                 end)
    /\ (forall data,
           In (StoreRecovery data) delta ->
           exists sn, recovered_snapshot env = Some sn /\ data = Snapshot.Data sn).
Proof.
  destruct (bootstrap_events env cfg w0) as (delta & Ht & Hd).
  exists delta. split; [exact Ht|]. rewrite Forall_forall in Hd. split.
  - intros pos Hin. specialize (Hd _ Hin).
    cbv beta iota zeta delta [bootstrap_event] in Hd. destruct Hd as [_ ->]. reflexivity.
  - intros data Hin. specialize (Hd _ Hin).
    cbv beta iota zeta delta [bootstrap_event] in Hd. destruct Hd as [_ H]. exact H.
Qed.

(** On a restart from a snapshot at index 100, the WAL is opened once,
    at index 100 and term 2. *)
Example restart_opens_WAL_at_snapshot :
  filter touches_WAL (trace (snd (bootstrap (env_snapshot 100%N) cfg0 initial_world)))
  = [WALOpen (walpb.mkSnapshot 100%N 2%N); WALReadAll].
Proof. vm_compute. reflexivity. Qed.

(** ** The cluster that is returned *)

Lemma bootstrapExistingClusterNoWAL_result env cfg be w c w' :
  bootstrapExistingClusterNoWAL env cfg be w = (Ret (Some c, None), w') ->
  w' = recorded [Enter "bootstrapExistingClusterNoWAL"] w
  /\ exists cl0 existing cl1 member,
       VerifyJoinExisting env cfg = None
       /\ NewClusterFromURLsMap env (InitialClusterToken cfg) (InitialPeerURLsMap cfg)
          = inr cl0
       /\ GetClusterFromRemotePeers env (getRemotePeerURLs env cl0 (Name cfg)) = inr existing
       /\ ValidateClusterAndAssignIDs env cl0 existing = inr cl1
       /\ membership.MemberByName cl1 (Name cfg) = Some member
       /\ isCompatibleWithCluster env cl1 (membership.ID member) = true
       /\ c = bootstrapedCluster.mk None (membership.members existing) None
                (membership.SetBackend be
                   (membership.SetStore
                      (membership.SetID 0%N (membership.cid existing) cl1)))
                (membership.ID member).
Proof.
  unfold bootstrapExistingClusterNoWAL, bind. cbn [emit].
  destruct (VerifyJoinExisting env cfg) eqn:Hv; [discriminate|].
  destruct (NewClusterFromURLsMap env _ _) as [e|cl0] eqn:Hn; [discriminate|].
  destruct (GetClusterFromRemotePeers env _) as [e|existing] eqn:Hg; [discriminate|].
  destruct (ValidateClusterAndAssignIDs env cl0 existing) as [e|cl1] eqn:Hval;
    [discriminate|].
  destruct (membership.MemberByName cl1 (Name cfg)) as [m|] eqn:Hm; [|discriminate].
  destruct (isCompatibleWithCluster env cl1 (membership.ID m)) eqn:Hc;
    cbn [negb]; [|discriminate].
  cbv zeta.
  change (membership.MemberByName
            (membership.SetBackend be
               (membership.SetStore (membership.SetID 0%N (membership.cid existing) cl1)))
            (Name cfg))
    with (membership.MemberByName cl1 (Name cfg)).
  rewrite Hm. cbn [ret]. intros H. injection H as <- <-.
  split; [reflexivity|]. exists cl0, existing, cl1, m. repeat split; assumption.
Qed.

Lemma bootstrapNewClusterNoWAL_result env cfg be w c w' :
  bootstrapNewClusterNoWAL env cfg be w = (Ret (Some c, None), w') ->
  w' = recorded [Enter "bootstrapNewClusterNoWAL"] w
  /\ exists cl member,
       membership.MemberByName cl (Name cfg) = Some member
       /\ c = bootstrapedCluster.mk None [] None
                (membership.SetBackend be (membership.SetStore cl)) (membership.ID member).
Proof.
  unfold bootstrapNewClusterNoWAL. unfold bind at 1. cbn [emit].
  destruct (VerifyBootstrap env cfg); [discriminate|].
  destruct (NewClusterFromURLsMap env _ (InitialPeerURLsMap cfg)) as [e|cl0]; [discriminate|].
  cbv zeta.
  destruct (isMemberBootstrapped env cl0 (Name cfg)).
  { destruct (membership.MemberByName cl0 (Name cfg)); discriminate. }
  unfold bind.
  set (discovered := if ShouldDiscover env cfg then _ else _).
  assert (Hd : forall r w1, discovered (recorded [Enter "bootstrapNewClusterNoWAL"] w)
                            = (r, w1) ->
                            w1 = recorded [Enter "bootstrapNewClusterNoWAL"] w).
  { subst discovered. intros r w1.
    destruct (ShouldDiscover env cfg); [|intros H; injection H as _ <-; reflexivity].
    destruct (membership.MemberByName cl0 (Name cfg)) as [m|];
      [|intros H; injection H as _ <-; reflexivity].
    destruct (JoinCluster env _ _ _); [intros H; injection H as _ <-; reflexivity|].
    destruct (NewURLsMap env _); [intros H; injection H as _ <-; reflexivity|].
    destruct (CheckDuplicateURL env _); intros H; injection H as _ <-; reflexivity. }
  unfold recorded in *.
  destruct (discovered _) as [[[e|cl]|m|m] w1] eqn:Hrun; try discriminate.
  specialize (Hd _ _ eq_refl). subst w1.
  change (membership.MemberByName (membership.SetBackend be (membership.SetStore cl))
            (Name cfg))
    with (membership.MemberByName cl (Name cfg)).
  destruct (membership.MemberByName cl (Name cfg)) as [member|] eqn:Hm; [|discriminate].
  cbn [ret]. intros H. injection H as <- <-.
  split; [reflexivity|]. exists cl, member. split; [exact Hm | reflexivity].
Qed.

Lemma bootstrapNewWAL_result env cfg cl id w bw w' :
  bootstrapNewWAL env cfg cl id w = (Ret bw, w') ->
  bw = mkWAL (wal_opens w) None [] None
  /\ w' = mkWorld (trace w ++ creation cfg (Metadata.mk id (membership.cid cl)))
            (opened w) (next_handle w) (S (wal_opens w)).
Proof.
  unfold bootstrapNewWAL, bind, wal_Create_call, creation. cbn [fst snd].
  destruct (wal_Create env); [discriminate|].
  destruct (UnsafeNoFsync cfg); cbn [emit ret trace opened next_handle wal_opens];
    intros H; injection H as <- <-; rewrite <- ?app_assoc; split; reflexivity.
Qed.

Lemma make_peers_world env cl ids w : snd (make_peers env cl ids w) = w.
Proof. exact (@make_peers_preserves World (fun w => w) env cl ids w). Qed.

Lemma bootstrapRaftFromCluster_result env cfg cl ids bwal w r w' :
  bootstrapRaftFromCluster env cfg cl ids bwal w = (Ret r, w') ->
  w' = recorded [Enter "bootstrapRaftFromCluster"; Log Info "starting local member"] w
  /\ exists member,
       membership.MemberByName cl (Name cfg) = Some member
       /\ raft_built_on env cfg (membership.ID member) bwal r.
Proof.
  unfold bootstrapRaftFromCluster. unfold bind at 1. cbn [emit]. unfold bind at 1.
  pose proof (make_peers_world env cl ids
                (mkWorld (trace w ++ [Enter "bootstrapRaftFromCluster"]) (opened w)
                   (next_handle w) (wal_opens w))) as Hw.
  destruct (make_peers env cl ids _) as [[peers|m|m] w1]; try discriminate.
  cbn [snd] in Hw. subst w1.
  destruct (membership.MemberByName cl (Name cfg)) as [member|]; [|discriminate].
  run_monad. intros H. injection H as <- <-. unfold recorded. rewrite <- app_assoc.
  split; [reflexivity|]. exists member. split; [reflexivity|]. repeat split.
Qed.

Lemma bootstrapCluster_noWAL_result env cfg storage w0 c w1 :
  bootstrapCluster env cfg false storage w0 = (Ret (Some c, None), w1) ->
  exists backend c0 r,
    bootstrappedStorage.backend storage = Some backend
    /\ (if NewCluster cfg
        then bootstrapNewClusterNoWAL env cfg (bootstrappedBackend.be backend) w0
        else bootstrapExistingClusterNoWAL env cfg (bootstrappedBackend.be backend) w0)
       = (Ret (Some c0, None), recorded [Enter (resolver_name (NewCluster cfg))] w0)
    /\ c = bootstrapedCluster.mk (Some r) (bootstrapedCluster.remotes c0)
             (Some (mkWAL (wal_opens w0) None [] None))
             (membership.SetID (bootstrapedCluster.nodeID c0)
                (membership.cid (bootstrapedCluster.cl c0)) (bootstrapedCluster.cl c0))
             (bootstrapedCluster.nodeID c0)
    /\ raft_built_on env cfg (bootstrapedCluster.nodeID c0)
         (mkWAL (wal_opens w0) None [] None) r
    /\ w1 = mkWorld
              (trace w0
               ++ [Enter (resolver_name (NewCluster cfg))]
               ++ creation cfg (Metadata.mk (bootstrapedCluster.nodeID c0)
                                  (membership.cid (bootstrapedCluster.cl c0)))
               ++ [Enter "bootstrapRaftFromCluster"; Log Info "starting local member"])
              (opened w0) (next_handle w0) (S (wal_opens w0)).
Proof.
  unfold bootstrapCluster. unfold bind at 1. cbn [ret]. unfold bind at 1.
  unfold resolve_cluster, build_raft.
  destruct (NewCluster cfg) eqn:Hnc; cbn [first_switch second_switch negb andb resolver_name];
    (destruct (bootstrappedStorage.backend storage) as [backend|]; [|discriminate]);
    unfold bind at 1;
    match goal with
    | |- context [?resolver env cfg (bootstrappedBackend.be backend) w0] =>
        destruct (resolver env cfg (bootstrappedBackend.be backend) w0)
          as [[[[c0|] [err|]]|m|m] w2] eqn:Hres; try discriminate
    end;
    pose proof Hres as Hc0;
    first [ apply bootstrapNewClusterNoWAL_result in Hc0;
            destruct Hc0 as (-> & cl & member & Hm & Hc0)
          | apply bootstrapExistingClusterNoWAL_result in Hc0;
            destruct Hc0 as (-> & cl0 & existing & cl & member & _ & _ & _ & _ & Hm & _ & Hc0) ];
    unfold then_new_WAL; unfold bind at 1;
    destruct (bootstrapNewWAL env cfg (bootstrapedCluster.cl c0)
                (bootstrapedCluster.nodeID c0) _) as [[bw|m|m] w3] eqn:Hnew;
      try discriminate;
    apply bootstrapNewWAL_result in Hnew; destruct Hnew as [-> ->];
    cbn [ret with_wal bootstrapedCluster.wal bootstrapedCluster.cl bootstrapedCluster.nodeID
           bootstrapedCluster.remotes bootstrapedCluster.raft];
    unfold bind;
    match goal with
    | |- context [bootstrapRaftFromCluster env cfg ?cl1 ?ids ?bwal ?W] =>
        destruct (bootstrapRaftFromCluster env cfg cl1 ids bwal W) as [[r|m|m] w4] eqn:Hraft;
          try discriminate
    end;
    apply bootstrapRaftFromCluster_result in Hraft;
    destruct Hraft as (-> & member' & Hm' & Hbuilt);
    cbn [ret with_raft with_wal bootstrapedCluster.wal bootstrapedCluster.cl
           bootstrapedCluster.nodeID bootstrapedCluster.remotes bootstrapedCluster.raft];
    intros H; injection H as <-;
    exists backend, c0, r;
    (split; [reflexivity|]); (split; [exact Hres|]); (split; [reflexivity|]);
    subst w1; rewrite Hc0 in Hm' |- *;
    change (membership.MemberByName cl (Name cfg) = Some member') in Hm';
    assert (member' = member) by congruence; subst member';
    (split; [exact Hbuilt|]);
    unfold recorded; cbn [trace opened next_handle wal_opens bootstrapedCluster.nodeID
                            bootstrapedCluster.cl];
    rewrite <- !app_assoc; reflexivity.
Qed.

Lemma bootstrapClusterWithWAL_result env cfg storage meta w c0 w' :
  bootstrapClusterWithWAL env cfg storage meta w = (Ret (Some c0, None), w') ->
  IsDirWriteable env (MemberDir env cfg) = None
  /\ exists cl, c0 = bootstrapedCluster.mk None [] None cl (nodeID meta).
Proof.
  unfold bootstrapClusterWithWAL. unfold bind at 1. cbn [emit].
  destruct (IsDirWriteable env (MemberDir env cfg)); [discriminate|].
  assert (Hwarn : forall w1,
             fst ((if ShouldDiscover env cfg
                   then log Warn "discovery token is ignored since cluster already initialized; valid logs are found"
                   else ret tt) w1) = Ret tt)
    by (intros w1; destruct (ShouldDiscover env cfg); reflexivity).
  unfold bind at 1.
  match goal with
  | |- context [(if ShouldDiscover env cfg then ?a else ?b) ?W] =>
      specialize (Hwarn W);
      destruct ((if ShouldDiscover env cfg then a else b) W) as [o w2]
  end.
  cbn [fst] in Hwarn. subst o.
  destruct (bootstrappedStorage.backend storage) as [backend|]; [|discriminate].
  cbv zeta. destruct (v3_cluster_without_backend env _ _).
  - unfold bind. cbn [emit ret]. discriminate.
  - cbn [ret]. intros H. injection H as <- _. split; [reflexivity|]. eexists. reflexivity.
Qed.

Lemma bootstrapCluster_restart_result env cfg storage w0 c w1 :
  bootstrapCluster env cfg true storage w0 = (Ret (Some c, None), w1) ->
  exists backend bwal meta w2 cl r,
    bootstrappedStorage.backend storage = Some backend
    /\ IsDirWriteable env (WALDir env cfg) = None
    /\ IsDirWriteable env (MemberDir env cfg) = None
    /\ bootstrapWALFromSnapshot env cfg (bootstrappedBackend.snapshot backend) w0
       = (Ret (bwal, meta), w2)
    /\ c = bootstrapedCluster.mk (Some r) [] (Some bwal) cl (nodeID meta)
    /\ raft_built_on env cfg (nodeID meta) bwal r
    /\ bootstrappedRaft.peers r = [].
Proof.
  unfold bootstrapCluster. unfold bind at 1.
  destruct (IsDirWriteable env (WALDir env cfg)) eqn:Hwd; [discriminate|].
  destruct (bootstrappedStorage.backend storage) as [backend|] eqn:Hb; [|discriminate].
  unfold bind at 1.
  destruct (bootstrapWALFromSnapshot env cfg _ w0) as [[[bwal meta]|m|m] w2] eqn:Hwal;
    try discriminate.
  cbn [ret]. unfold bind at 1. unfold resolve_cluster.
  replace (first_switch true (NewCluster cfg)) with RestartFromLog
    by (destruct (NewCluster cfg); reflexivity).
  unfold bind at 1.
  destruct (bootstrapClusterWithWAL env cfg storage meta w2) as [[[[c0|] [err|]]|m|m] w3]
    eqn:Hc0; try discriminate.
  apply bootstrapClusterWithWAL_result in Hc0. destruct Hc0 as (Hmd & cl & ->).
  cbn [ret]. unfold build_raft.
  replace (second_switch true (NewCluster cfg)) with RestartFromLog
    by (destruct (NewCluster cfg); reflexivity).
  cbn [with_wal bootstrapedCluster.wal bootstrapedCluster.cl bootstrapedCluster.nodeID
         bootstrapedCluster.remotes bootstrapedCluster.raft].
  unfold bootstrapRaftFromSnapshot. run_monad.
  intros H. injection H as <- _.
  exists backend, bwal, meta, w2, cl. eexists.
  repeat split; try reflexivity; assumption.
Qed.

(** X19: In the cluster that [bootstrapCluster] returns, on every path, the
    raft node is configured with the ID of the node ([nodeID]: the ID of
    the member with the configured name, or the one read from the WAL),
    and its storage, in the configuration and in the [storage] field
    alike, is the one built from the WAL that the cluster holds; the
    heartbeat is one tick.  Without WAL, the local ID of the membership is
    set to the same ID. *)
Theorem raft_runs_as_the_node (env : Env) (cfg : ServerConfig) (haveWAL : bool)
    (storage : bootstrappedStorage.t) (w0 : World) (c : bootstrapedCluster.t) :
  fst (bootstrapCluster env cfg haveWAL storage w0) = Ret (Some c, None) ->
  exists r bwal,
    bootstrapedCluster.raft c = Some r
    /\ bootstrapedCluster.wal c = Some bwal
    /\ Config.ID (bootstrappedRaft.config r) = bootstrapedCluster.nodeID c
    /\ bootstrappedRaft.storage r = MemoryStorage bwal
    /\ Config.Storage (bootstrappedRaft.config r) = MemoryStorage bwal
    /\ bootstrappedRaft.heartbeat r = heartbeat_of cfg
    /\ Config.HeartbeatTick (bootstrappedRaft.config r) = 1%Z
    /\ Config.ElectionTick (bootstrappedRaft.config r) = ElectionTicks cfg
    /\ (haveWAL = false ->
        membership.localID (bootstrapedCluster.cl c) = bootstrapedCluster.nodeID c).
Proof.
  destruct (bootstrapCluster env cfg haveWAL storage w0) as [o w1] eqn:Hrun.
  cbn [fst]. intros ->. destruct haveWAL.
  - apply bootstrapCluster_restart_result in Hrun.
    destruct Hrun as (backend & bwal & meta & w2 & cl & r & _ & _ & _ & _ & -> & Hb & _).
    destruct Hb as (Hh & Hs & Hc). exists r, bwal.
    cbn [bootstrapedCluster.raft bootstrapedCluster.wal bootstrapedCluster.nodeID].
    rewrite Hc. repeat split; try assumption; discriminate.
  - apply bootstrapCluster_noWAL_result in Hrun.
    destruct Hrun as (backend & c0 & r & _ & _ & -> & Hb & _).
    destruct Hb as (Hh & Hs & Hc). eexists r, _.
    cbn [bootstrapedCluster.raft bootstrapedCluster.wal bootstrapedCluster.nodeID
           bootstrapedCluster.cl].
    rewrite Hc. repeat split; assumption.
Qed.

Lemma raft_runs_as_the_node_witness :
  exists r bwal,
    bootstrapedCluster.raft formed_cluster = Some r
    /\ bootstrapedCluster.wal formed_cluster = Some bwal
    /\ Config.ID (bootstrappedRaft.config r) = 1%N
    /\ bootstrappedRaft.storage r = MemoryStorage bwal.
Proof.
  assert (H : fst (bootstrapCluster env_new cfg_new false storage0 initial_world)
              = Ret (Some formed_cluster, None)) by reflexivity.
  destruct (@raft_runs_as_the_node env_new cfg_new false storage0 initial_world
              formed_cluster H) as (r & bwal & H1 & H2 & H3 & H4 & _).
  exists r, bwal. repeat split; assumption.
Defined.

(** X20: Without WAL on disk, a [bootstrapCluster] that returns a cluster has
    done this and nothing else: entered the resolver of the configured
    case, created one WAL whose metadata are the node ID and the cluster
    ID of the cluster it returns (disabling fsync on it if configured so),
    and built the raft node.  The WAL it returns holds no hard state, no
    entry and no snapshot, so the raft storage starts empty. *)
Theorem first_boot_creates_one_WAL (env : Env) (cfg : ServerConfig)
    (storage : bootstrappedStorage.t) (w0 w1 : World) (c : bootstrapedCluster.t) :
  bootstrapCluster env cfg false storage w0 = (Ret (Some c, None), w1) ->
  bootstrapedCluster.wal c = Some (mkWAL (wal_opens w0) None [] None)
  /\ (exists r, bootstrapedCluster.raft c = Some r /\ bootstrappedRaft.storage r = [])
  /\ trace w1
     = trace w0
       ++ [Enter (resolver_name (NewCluster cfg))]
       ++ creation cfg (Metadata.mk (bootstrapedCluster.nodeID c)
                          (membership.cid (bootstrapedCluster.cl c)))
       ++ [Enter "bootstrapRaftFromCluster"; Log Info "starting local member"].
Proof.
  intros Hrun. apply bootstrapCluster_noWAL_result in Hrun.
  destruct Hrun as (backend & c0 & r & _ & _ & -> & Hb & ->).
  destruct Hb as (_ & Hs & _).
  split; [reflexivity|]. split; [exists r; split; [reflexivity | exact Hs]|].
  reflexivity.
Qed.

Lemma first_boot_creates_one_WAL_witness :
  trace (snd (bootstrapCluster env_new cfg_new false storage0 initial_world))
  = [Enter "bootstrapNewClusterNoWAL"; WALCreate (Metadata.mk 1%N 7%N);
     Enter "bootstrapRaftFromCluster"; Log Info "starting local member"].
Proof.
  destruct (bootstrapCluster env_new cfg_new false storage0 initial_world)
    as [[[[c|] [e|]]|m|m] w1] eqn:E; try (vm_compute in E; discriminate E).
  destruct (@first_boot_creates_one_WAL env_new cfg_new storage0 initial_world w1 c E)
    as (_ & _ & Ht).
  cbn [snd]. rewrite Ht. vm_compute in E. injection E as <- _. reflexivity.
Defined.

(** X21: The cluster returned lists remote members only when it joins an
    existing cluster: then they are the members of the cluster fetched
    from the remote peers, whose cluster ID the membership takes over,
    bound to the store and to the backend that was opened.  On the other
    two paths the list is empty. *)
Theorem remotes_by_path (env : Env) (cfg : ServerConfig) (haveWAL : bool)
    (storage : bootstrappedStorage.t) (w0 : World) (c : bootstrapedCluster.t) :
  fst (bootstrapCluster env cfg haveWAL storage w0) = Ret (Some c, None) ->
  (haveWAL = true \/ NewCluster cfg = true -> bootstrapedCluster.remotes c = [])
  /\ (haveWAL = false -> NewCluster cfg = false ->
      exists cl0 existing backend,
        NewClusterFromURLsMap env (InitialClusterToken cfg) (InitialPeerURLsMap cfg)
        = inr cl0
        /\ GetClusterFromRemotePeers env (getRemotePeerURLs env cl0 (Name cfg))
           = inr existing
        /\ bootstrappedStorage.backend storage = Some backend
        /\ bootstrapedCluster.remotes c = membership.members existing
        /\ membership.cid (bootstrapedCluster.cl c) = membership.cid existing
        /\ membership.store_bound (bootstrapedCluster.cl c) = true
        /\ membership.backend_bound (bootstrapedCluster.cl c)
           = Some (bootstrappedBackend.be backend)).
Proof.
  destruct (bootstrapCluster env cfg haveWAL storage w0) as [o w1] eqn:Hrun.
  cbn [fst]. intros ->. destruct haveWAL.
  - apply bootstrapCluster_restart_result in Hrun.
    destruct Hrun as (backend & bwal & meta & w2 & cl & r & _ & _ & _ & _ & -> & _).
    split; [reflexivity | discriminate].
  - apply bootstrapCluster_noWAL_result in Hrun.
    destruct Hrun as (backend & c0 & r & Hb & Hres & -> & _).
    cbn [bootstrapedCluster.remotes bootstrapedCluster.cl].
    destruct (NewCluster cfg).
    + apply bootstrapNewClusterNoWAL_result in Hres.
      destruct Hres as (_ & cl & member & _ & ->).
      split; [reflexivity | discriminate].
    + apply bootstrapExistingClusterNoWAL_result in Hres.
      destruct Hres as (_ & cl0 & existing & cl1 & member & _ & Hn & Hg & _ & _ & _ & ->).
      split; [intros [H|H]; discriminate|].
      intros _ _. exists cl0, existing, backend. repeat split; assumption.
Qed.

Lemma remotes_by_path_witness :
  bootstrapedCluster.remotes formed_cluster = [].
Proof.
  assert (H : fst (bootstrapCluster env_new cfg_new false storage0 initial_world)
              = Ret (Some formed_cluster, None)) by reflexivity.
  destruct (@remotes_by_path env_new cfg_new false storage0 initial_world
              formed_cluster H) as [Hnone _].
  apply Hnone. right. reflexivity.
Defined.

(** Joining the cluster of [env_new]: its three members are the
    remotes. *)
Example joining_lists_the_remote_members :
  match fst (bootstrapCluster env_new cfg0 false storage0 initial_world) with
  | Ret (Some c, None) => map membership.ID (bootstrapedCluster.remotes c) = [1; 2; 3]%N
  | _ => False
  end.
Proof. vm_compute. reflexivity. Qed.

(** ** The server that is returned *)

Lemma bootstrapCluster_returns_cluster env cfg haveWAL storage w o w' :
  bootstrapCluster env cfg haveWAL storage w = (Ret (o, None), w') -> exists c, o = Some c.
Proof.
  unfold bootstrapCluster. set (walpart := if haveWAL then _ else _). unfold bind at 1.
  destruct (walpart w) as [[[err|walmeta]|m|m] w1]; try discriminate.
  unfold bind at 1.
  destruct (resolve_cluster env cfg haveWAL storage walmeta w1) as [[[err|c0]|m|m] w2];
    try discriminate.
  unfold build_raft.
  destruct (second_switch haveWAL (NewCluster cfg)).
  - destruct (bootstrapedCluster.wal c0); [|discriminate]. unfold bind.
    destruct (bootstrapRaftFromCluster env cfg _ _ _ w2) as [[r|m|m] w3]; try discriminate.
    cbn [ret]. intros H. injection H as <- _. eexists. reflexivity.
  - destruct (bootstrapedCluster.wal c0); [|discriminate]. unfold bind.
    destruct (bootstrapRaftFromCluster env cfg _ _ _ w2) as [[r|m|m] w3]; try discriminate.
    cbn [ret]. intros H. injection H as <- _. eexists. reflexivity.
  - destruct (bootstrapedCluster.wal c0), walmeta as [[? ?]|]; try discriminate.
    unfold bind.
    destruct (bootstrapRaftFromSnapshot env cfg _ _ w2) as [[r|m|m] w3]; try discriminate.
    cbn [ret]. intros H. injection H as <- _. eexists. reflexivity.
  - discriminate.
Qed.

(** X22: When [bootstrap] returns a server, every directory check has
    passed: the data, snapshot and member directories could be created,
    the round tripper built, and, with a WAL on disk, the WAL and member
    directories are writeable.  The server is complete: it has a storage
    with an open backend and a cluster with its raft node and its WAL, no
    field being nil. *)
Theorem bootstrap_returns_a_complete_server (env : Env) (cfg : ServerConfig) (w0 : World)
    (srv : bootstrappedServer.t) :
  fst (bootstrap env cfg w0) = Ret (Some srv, None) ->
  TouchDirAll env (DataDir cfg) = None
  /\ TouchDirAll env (SnapDir env cfg) = None
  /\ NewRoundTripper env = None
  /\ TouchDirAll env (MemberDir env cfg) = None
  /\ (wal_Exist env (WALDir env cfg) = true ->
      IsDirWriteable env (WALDir env cfg) = None
      /\ IsDirWriteable env (MemberDir env cfg) = None)
  /\ exists storage backend c r bwal,
       bootstrappedServer.storage srv = Some storage
       /\ bootstrappedStorage.backend storage = Some backend
       /\ bootstrappedServer.cluster srv = Some c
       /\ bootstrapedCluster.raft c = Some r
       /\ bootstrapedCluster.wal c = Some bwal.
Proof.
  unfold bootstrap, bootstrapSnapshot.
  destruct (TouchDirAll env (DataDir cfg));
    [destruct (N.ltb _ _); discriminate|].
  destruct (TouchDirAll env (SnapDir env cfg));
    [destruct (N.ltb _ _); discriminate|].
  destruct (NewRoundTripper env);
    [destruct (N.ltb _ _), (RemoveMatchFile env _); discriminate|].
  destruct (TouchDirAll env (MemberDir env cfg));
    [destruct (N.ltb _ _), (RemoveMatchFile env _); discriminate|].
  intros Hrun.
  repeat (split; [reflexivity|]).
  revert Hrun.
  destruct (N.ltb _ _), (RemoveMatchFile env (SnapDir env cfg)); run_monad;
    match goal with
    | |- context [bootstrapStorage env cfg ?h ?W] =>
        destruct (bootstrapStorage env cfg h W) as [[[s [?|]]|?|?] w1] eqn:Hs;
        try discriminate;
        apply bootstrapStorage_result in Hs;
        destruct Hs as (storage & -> & backend & Hb & _);
        destruct (bootstrapCluster env cfg h storage w1) as [[[o [?|]]|?|?] w2] eqn:Hc;
        try discriminate
    end;
    try (unfold close_storage_backend; rewrite Hb; cbn; discriminate);
    cbn [fst]; intros H; injection H as <-;
    destruct (bootstrapCluster_returns_cluster _ _ _ _ _ Hc) as [c ->];
    cbn [bootstrappedServer.storage bootstrappedServer.cluster];
    (destruct (wal_Exist env (WALDir env cfg));
     [ apply bootstrapCluster_restart_result in Hc;
       destruct Hc as (? & bwal & ? & ? & ? & r & _ & Hwd & Hmd & _ & -> & _);
       split; [intros _; split; assumption|];
       exists storage, backend; eexists _, r, bwal; repeat split; assumption
     | apply bootstrapCluster_noWAL_result in Hc;
       destruct Hc as (? & ? & r & _ & _ & -> & _);
       split; [discriminate|];
       exists storage, backend; eexists _, r, _; repeat split; assumption ]).
Qed.

Lemma bootstrap_returns_a_complete_server_witness :
  exists srv storage backend c r bwal,
    fst (bootstrap env0 cfg0 initial_world) = Ret (Some srv, None)
    /\ bootstrappedServer.storage srv = Some storage
    /\ bootstrappedStorage.backend storage = Some backend
    /\ bootstrappedServer.cluster srv = Some c
    /\ bootstrapedCluster.raft c = Some r
    /\ bootstrapedCluster.wal c = Some bwal.
Proof.
  destruct (bootstrap env0 cfg0 initial_world) as [[[[srv|] [e|]]|m|m] w1] eqn:E;
    try (vm_compute in E; discriminate E).
  assert (H : fst (bootstrap env0 cfg0 initial_world) = Ret (Some srv, None))
    by (rewrite E; reflexivity).
  destruct (@bootstrap_returns_a_complete_server env0 cfg0 initial_world srv H)
    as (_ & _ & _ & _ & _ & storage & backend & c & r & bwal & H1 & H2 & H3 & H4 & H5).
  exists srv, storage, backend, c, r, bwal. repeat split; assumption.
Defined.



(** ** The directory checks of a restart *)

(** X24: On a restart, a WAL directory that is not writeable is reported
    before anything is done.  The member directory is checked only after
    the WAL has been bootstrapped: when it is not writeable the error is
    returned with the WAL already opened and read and, on a forced
    recovery, already saved to. *)
Theorem restart_directory_checks (env : Env) (cfg : ServerConfig)
    (storage : bootstrappedStorage.t) (w0 : World) :
  (forall e,
      IsDirWriteable env (WALDir env cfg) = Some e ->
      bootstrapCluster env cfg true storage w0
      = (Ret (None, Some (Errorf "cannot write to WAL directory: %v" [ArgError e])), w0))
  /\ (forall e backend bwal meta w1,
         IsDirWriteable env (WALDir env cfg) = None ->
         bootstrappedStorage.backend storage = Some backend ->
         bootstrapWALFromSnapshot env cfg (bootstrappedBackend.snapshot backend) w0
         = (Ret (bwal, meta), w1) ->
         IsDirWriteable env (MemberDir env cfg) = Some e ->
         bootstrapCluster env cfg true storage w0
         = (Ret (None, Some (Errorf "cannot write to member directory: %v" [ArgError e])),
            recorded [Enter "bootstrapClusterWithWAL"] w1)).
Proof.
  split.
  - intros e He. unfold bootstrapCluster. rewrite He. reflexivity.
  - intros e backend bwal meta w1 Hwd Hb Hwal Hmd.
    unfold bootstrapCluster. rewrite Hwd, Hb. unfold bind at 1. unfold bind at 1.
    rewrite Hwal. cbn [ret]. unfold bind at 1. unfold resolve_cluster.
    replace (first_switch true (NewCluster cfg)) with RestartFromLog
      by (destruct (NewCluster cfg); reflexivity).
    unfold bootstrapClusterWithWAL. rewrite Hmd. reflexivity.
Qed.

(** A forced recovery with an unwriteable member directory fails, but
    only after the synthesized entries were saved to the WAL. *)
Example forced_recovery_saves_before_member_check :
  let r := bootstrap (env_unwriteable "/var/lib/etcd/member") cfg_forced initial_world in
  fst r = Ret (None, Some (Errorf "cannot write to member directory: %v"
                             [ArgError (External "read-only file system")]))
  /\ count is_WALSave (trace (snd r)) = 1.
Proof. vm_compute. split; reflexivity. Qed.

(** ** What opening the WAL returns *)

(** X25: What [openWALFromSnapshot] returns belongs to the handle it
    returns: the hard state and the entries are those of the read of that
    handle, the node and cluster IDs are decoded from the metadata of that
    read, and the snapshot is the one passed in.  The handle is the first
    one opened, or the second when the first read hit an unexpected EOF
    and the repair succeeded; nothing of the first read is then kept. *)
Theorem openWALFromSnapshot_returns_last_read (env : Env) (cfg : ServerConfig)
    (snap0 : option Snapshot.t) (w0 w1 : World) (o : openedWAL) :
  openWALFromSnapshot env cfg snap0 w0 = (Ret o, w1) ->
  wal_Open env (o_w o) = None
  /\ (exists md m,
         wal_ReadAll env (o_w o) = ReadOK md (o_st o) (o_ents o)
         /\ Unmarshal_Metadata env md = Some m
         /\ o_meta o = {| nodeID := Metadata.NodeID m; clusterID := Metadata.ClusterID m |})
  /\ o_snapshot o = snap0
  /\ wal_opens w1 = S (o_w o)
  /\ (o_w o = wal_opens w0
      \/ (o_w o = S (wal_opens w0)
          /\ unexpected_EOF_at env (wal_opens w0)
          /\ wal_Repair env (wal_opens w0) = true)).
Proof.
  unfold openWALFromSnapshot.
  rewrite openWAL_loop_step, openWAL_body_cases. cbv zeta. cbn [orb].
  destruct (wal_Open env (wal_opens w0)) eqn:Ho1; [discriminate|].
  destruct (wal_ReadAll env (wal_opens w0)) as [md hs es|e] eqn:Hr1.
  { destruct (Unmarshal_Metadata env md) as [m|] eqn:Hm; [|discriminate].
    intros H. injection H as <- <-. cbn [o_w o_st o_ents o_meta o_snapshot].
    split; [exact Ho1|]. split; [exists md, m; repeat split; assumption|].
    split; [reflexivity|]. split; [reflexivity|]. left. reflexivity. }
  destruct (is_ErrUnexpectedEOF e) eqn:Heof; cbn [negb]; [|discriminate].
  destruct (wal_Repair env (wal_opens w0)) eqn:Hrep; [|discriminate].
  rewrite openWAL_loop_step, openWAL_body_cases. cbv zeta.
  cbn [wal_opens after_open orb].
  destruct (wal_Open env (S (wal_opens w0))) eqn:Ho2; [discriminate|].
  destruct (wal_ReadAll env (S (wal_opens w0))) as [md hs es|e2] eqn:Hr2; [|discriminate].
  destruct (Unmarshal_Metadata env md) as [m|] eqn:Hm; [|discriminate].
  intros H. injection H as <- <-. cbn [o_w o_st o_ents o_meta o_snapshot].
  split; [exact Ho2|]. split; [exists md, m; repeat split; assumption|].
  split; [reflexivity|]. split; [reflexivity|]. right.
  split; [reflexivity|]. split; [|reflexivity].
  exists e. split; assumption.
Qed.

Lemma openWALFromSnapshot_returns_last_read_witness :
  exists o w1,
    openWALFromSnapshot env_truncated cfg0 None initial_world = (Ret o, w1)
    /\ o_w o = 1
    /\ wal_ReadAll env_truncated (o_w o) = ReadOK [] (o_st o) (o_ents o).
Proof.
  destruct (openWALFromSnapshot env_truncated cfg0 None initial_world) as [[o|m|m] w1] eqn:E;
    try (vm_compute in E; discriminate E).
  destruct (@openWALFromSnapshot_returns_last_read env_truncated cfg0 None initial_world
              w1 o E) as (_ & (md & m & Hread & _) & _ & _ & Hw).
  exists o, w1. split; [reflexivity|].
  assert (Hone : o_w o = 1) by (vm_compute in E; injection E as <- _; reflexivity).
  split; [exact Hone|].
  rewrite Hread. rewrite Hone in Hread. vm_compute in Hread. injection Hread as <- _ _.
  reflexivity.
Defined.

(** ** Resolving a cluster without WAL *)

(** X26: Forming a new cluster through discovery.  Once the configuration is
    verified, the initial cluster built and the local member found not to
    be bootstrapped yet, [bootstrapNewClusterNoWAL] joins the discovery
    service under the ID that the member has in the initial cluster.  A
    join that fails is returned as a discovery error; a URL map with a
    duplicate URL is refused; otherwise the cluster is built anew from the
    discovered URL map, and the node ID is the one of the member with the
    configured name in that cluster, not in the initial one. *)
Theorem new_cluster_discovery (env : Env) (cfg : ServerConfig) (be : handle) (w0 : World)
    (cl0 : membership.RaftCluster) (m : membership.Member) :
  VerifyBootstrap env cfg = None ->
  NewClusterFromURLsMap env (InitialClusterToken cfg) (InitialPeerURLsMap cfg) = inr cl0 ->
  membership.MemberByName cl0 (Name cfg) = Some m ->
  isMemberBootstrapped env cl0 (Name cfg) = false ->
  ShouldDiscover env cfg = true ->
  let r := bootstrapNewClusterNoWAL env cfg be w0 in
  let joined := JoinCluster env (DiscoveryURL cfg) (DiscoveryProxy cfg) (membership.ID m) in
  snd r = recorded [Enter "bootstrapNewClusterNoWAL"] w0
  /\ (forall e, joined = inl e -> fst r = Ret (None, Some (DiscoveryError "join" e)))
  /\ (forall str e, joined = inr str -> NewURLsMap env str = inl e ->
                    fst r = Ret (None, Some e))
  /\ (forall str urls,
         joined = inr str -> NewURLsMap env str = inr urls ->
         CheckDuplicateURL env urls = true ->
         fst r = Ret (None, Some (Errorf "discovery cluster %s has duplicate url"
                                    [ArgStringer])))
  /\ (forall str urls cl member,
         joined = inr str -> NewURLsMap env str = inr urls ->
         CheckDuplicateURL env urls = false ->
         NewClusterFromURLsMap env (InitialClusterToken cfg) urls = inr cl ->
         membership.MemberByName cl (Name cfg) = Some member ->
         fst r = Ret (Some (bootstrapedCluster.mk None [] None
                              (membership.SetBackend be (membership.SetStore cl))
                              (membership.ID member)),
                      None)).
Proof.
  intros Hv Hn Hm Hb Hd. cbv zeta.
  unfold bootstrapNewClusterNoWAL. rewrite Hv, Hn. cbv zeta. rewrite Hb, Hd, Hm.
  split.
  - destruct (JoinCluster env _ _ _) as [e|str]; [reflexivity|].
    destruct (NewURLsMap env str) as [e|urls]; [reflexivity|].
    destruct (CheckDuplicateURL env urls); [reflexivity|].
    destruct (NewClusterFromURLsMap env (InitialClusterToken cfg) urls) as [e|cl];
      [reflexivity|].
    unfold bind. cbn [emit ret].
    change (membership.MemberByName (membership.SetBackend be (membership.SetStore cl))
              (Name cfg))
      with (membership.MemberByName cl (Name cfg)).
    destruct (membership.MemberByName cl (Name cfg)); reflexivity.
  - split; [|split; [|split]].
    + intros e He. rewrite He. reflexivity.
    + intros str e Hj Hu. rewrite Hj, Hu. reflexivity.
    + intros str urls Hj Hu Hdup. rewrite Hj, Hu, Hdup. reflexivity.
    + intros str urls cl member Hj Hu Hdup Hc Hmem. rewrite Hj, Hu, Hdup, Hc.
      unfold bind. cbn [emit ret].
      change (membership.MemberByName (membership.SetBackend be (membership.SetStore cl))
                (Name cfg))
        with (membership.MemberByName cl (Name cfg)).
      rewrite Hmem. reflexivity.
Qed.

Lemma new_cluster_discovery_witness :
  fst (bootstrapNewClusterNoWAL env_new cfg_discovery 0 initial_world)
  = Ret (Some (bootstrapedCluster.mk None [] None
                 (membership.SetBackend 0 (membership.SetStore cluster0)) 1%N),
         None).
Proof.
  destruct (@new_cluster_discovery env_new cfg_discovery 0 initial_world cluster0 member1
              eq_refl eq_refl eq_refl eq_refl eq_refl) as (_ & _ & _ & _ & H).
  exact (H "infra0=http://10.0.0.1:2380" [] cluster0 member1
           eq_refl eq_refl eq_refl eq_refl eq_refl).
Defined.

(** X27: How joining an existing cluster fails, in the order of the checks:
    the error of the configuration check and of building the cluster from
    the initial peer URLs are returned as they are; a failure to fetch the
    cluster from the remote peers, and a failure to validate the local
    cluster against it, are wrapped in their own messages; a cluster with
    an incompatible version is refused; and if the validated cluster has
    no member with the configured name, reading its ID panics.  Whatever
    the outcome, nothing is recorded but the entry of the function. *)
Theorem join_existing_failures (env : Env) (cfg : ServerConfig) (be : handle) (w0 : World) :
  let r := bootstrapExistingClusterNoWAL env cfg be w0 in
  let built :=
    NewClusterFromURLsMap env (InitialClusterToken cfg) (InitialPeerURLsMap cfg) in
  snd r = recorded [Enter "bootstrapExistingClusterNoWAL"] w0
  /\ (forall e, VerifyJoinExisting env cfg = Some e -> fst r = Ret (None, Some e))
  /\ (forall e, VerifyJoinExisting env cfg = None -> built = inl e ->
                fst r = Ret (None, Some e))
  /\ (forall cl0,
         VerifyJoinExisting env cfg = None -> built = inr cl0 ->
         let fetched := GetClusterFromRemotePeers env (getRemotePeerURLs env cl0 (Name cfg)) in
         (forall e, fetched = inl e ->
                    fst r = Ret (None, Some (Errorf "cannot fetch cluster info from peer urls: %v"
                                               [ArgError e])))
         /\ (forall existing,
                fetched = inr existing ->
                (forall e, ValidateClusterAndAssignIDs env cl0 existing = inl e ->
                           fst r = Ret (None, Some (Errorf "error validating peerURLs %s: %v"
                                                      [ArgStringer; ArgError e])))
                /\ (forall cl1,
                       ValidateClusterAndAssignIDs env cl0 existing = inr cl1 ->
                       (membership.MemberByName cl1 (Name cfg) = None ->
                        fst r = Panic nil_dereference)
                       /\ (forall m,
                              membership.MemberByName cl1 (Name cfg) = Some m ->
                              isCompatibleWithCluster env cl1 (membership.ID m) = false ->
                              fst r = Ret (None,
                                           Some (Errorf "incompatible with current running cluster"
                                                   [])))))).
Proof.
  cbv zeta. unfold bootstrapExistingClusterNoWAL. split.
  - destruct (VerifyJoinExisting env cfg); [reflexivity|].
    destruct (NewClusterFromURLsMap env _ _) as [e|cl0]; [reflexivity|].
    destruct (GetClusterFromRemotePeers env _) as [e|existing]; [reflexivity|].
    destruct (ValidateClusterAndAssignIDs env cl0 existing) as [e|cl1]; [reflexivity|].
    destruct (membership.MemberByName cl1 (Name cfg)) as [m|] eqn:Hm; [|reflexivity].
    destruct (negb _); [reflexivity|]. cbv zeta.
    change (membership.MemberByName
              (membership.SetBackend be
                 (membership.SetStore (membership.SetID 0%N (membership.cid existing) cl1)))
              (Name cfg))
      with (membership.MemberByName cl1 (Name cfg)).
    rewrite Hm. reflexivity.
  - split; [intros e He; rewrite He; reflexivity|].
    split; [intros e Hv He; rewrite Hv, He; reflexivity|].
    intros cl0 Hv Hb. rewrite Hv, Hb. split.
    + intros e He. rewrite He. reflexivity.
    + intros existing He. rewrite He. split.
      * intros e Hval. rewrite Hval. reflexivity.
      * intros cl1 Hval. rewrite Hval. split.
        -- intros Hm. rewrite Hm. reflexivity.
        -- intros m Hm Hc. rewrite Hm, Hc. reflexivity.
Qed.

(** ** The snapshot that raft starts from *)

Lemma bootstrapWALFromSnapshot_snapshot env cfg snap0 wa bwal meta wb :
  bootstrapWALFromSnapshot env cfg snap0 wa = (Ret (bwal, meta), wb) ->
  snapshot bwal = snap0.
Proof.
  unfold bootstrapWALFromSnapshot. unfold bind at 1.
  destruct (openWALFromSnapshot_frame env cfg snap0 wa) as (_ & _ & _ & _ & Hsnap).
  destruct (openWALFromSnapshot env cfg snap0 wa) as [[o|m|m] w1]; try discriminate.
  cbn [fst] in Hsnap. specialize (Hsnap o eq_refl).
  destruct (ForceNewCluster cfg).
  - unfold bind at 1.
    destruct (CommitedEntries _ w1) as [[committed|m|m] w2]; try discriminate.
    unfold bind at 1. unfold ConfigChangeEntries. cbn [st snapshot ents ret].
    unfold bind at 1. unfold AppendAndCommitEntries.
    cbn [w st ents snapshot]. unfold bind at 1. cbn [emit].
    destruct (wal_Save env); [discriminate|].
    destruct (negb _).
    + destruct (last_entry _); [|discriminate].
      run_monad. intros H. injection H as <- _. exact Hsnap.
    + run_monad. intros H. injection H as <- _. exact Hsnap.
  - run_monad. intros H. injection H as <- _. exact Hsnap.
Qed.

Lemma bootstrap_returns env cfg w0 srv :
  fst (bootstrap env cfg w0) = Ret (Some srv, None) ->
  exists storage c w1 w2,
    storage_as_bootstrapped env cfg (wal_Exist env (WALDir env cfg)) storage
    /\ bootstrapCluster env cfg (wal_Exist env (WALDir env cfg)) storage w1
       = (Ret (Some c, None), w2)
    /\ srv = bootstrappedServer.mk (Some storage) (Some c).
Proof.
  unfold bootstrap, bootstrapSnapshot.
  destruct (TouchDirAll env (DataDir cfg));
    [destruct (N.ltb _ _); discriminate|].
  destruct (TouchDirAll env (SnapDir env cfg));
    [destruct (N.ltb _ _); discriminate|].
  destruct (NewRoundTripper env);
    [destruct (N.ltb _ _), (RemoveMatchFile env _); discriminate|].
  destruct (TouchDirAll env (MemberDir env cfg));
    [destruct (N.ltb _ _), (RemoveMatchFile env _); discriminate|].
  destruct (N.ltb _ _), (RemoveMatchFile env (SnapDir env cfg)); run_monad;
    match goal with
    | |- context [bootstrapStorage env cfg ?h ?W] =>
        destruct (bootstrapStorage env cfg h W) as [[[s [?|]]|?|?] w1] eqn:Hs;
        try discriminate;
        apply bootstrapStorage_result in Hs;
        destruct Hs as (storage & -> & Hst);
        destruct (bootstrapCluster env cfg h storage w1) as [[[o [?|]]|?|?] w2] eqn:Hc;
        try discriminate
    end;
    try (destruct Hst as (? & Hb & _); unfold close_storage_backend; rewrite Hb; cbn;
         discriminate);
    cbn [fst]; intros H; injection H as <-;
    destruct (bootstrapCluster_returns_cluster _ _ _ _ _ Hc) as [c ->];
    exists storage, c, w1, w2; repeat split; assumption.
Qed.

(** X28: On a restart, the snapshot that the backend was recovered from
    is the one that raft starts from: in the server that [bootstrap]
    returns, the backend holds the snapshot selected by the snapshotter,
    the WAL of the cluster holds the same one, and the raft storage is
    built from that WAL, so that it applies this snapshot first, if there
    is one.  The backend is marked as pre-existing exactly if its file
    existed. *)
Theorem raft_starts_from_the_recovered_snapshot (env : Env) (cfg : ServerConfig)
    (w0 : World) (srv : bootstrappedServer.t) :
  wal_Exist env (WALDir env cfg) = true ->
  fst (bootstrap env cfg w0) = Ret (Some srv, None) ->
  exists storage backend c bwal r,
    bootstrappedServer.storage srv = Some storage
    /\ bootstrappedStorage.backend storage = Some backend
    /\ bootstrappedServer.cluster srv = Some c
    /\ bootstrapedCluster.wal c = Some bwal
    /\ bootstrapedCluster.raft c = Some r
    /\ bootstrappedBackend.beExist backend = fileutil_Exist env (BackendPath env cfg)
    /\ bootstrappedBackend.snapshot backend = recovered_snapshot env
    /\ snapshot bwal = recovered_snapshot env
    /\ bootstrappedRaft.storage r = MemoryStorage bwal
    /\ (forall sn, recovered_snapshot env = Some sn ->
                   exists rest, bootstrappedRaft.storage r = ApplySnapshot sn :: rest).
Proof.
  intros Hwal Hrun. apply bootstrap_returns in Hrun.
  destruct Hrun as (storage & c & w1 & w2 & Hst & Hc & ->).
  rewrite Hwal in Hst, Hc.
  destruct Hst as (backend & Hb & Hex & Hsn).
  apply bootstrapCluster_restart_result in Hc.
  destruct Hc as (backend' & bwal & meta & w3 & cl & r & Hb' & _ & _ & Hbw & -> & Hr & _).
  assert (backend' = backend) by congruence. subst backend'.
  apply bootstrapWALFromSnapshot_snapshot in Hbw. rewrite Hsn in Hbw.
  destruct Hr as (_ & Hs & _).
  exists storage, backend. eexists _, bwal, r.
  repeat split; try assumption.
  intros sn Hsome. rewrite Hs. unfold MemoryStorage, NewMemoryStorage.
  rewrite Hbw, Hsome. cbn [app].
  destruct (st bwal); destruct (negb _); eexists; reflexivity.
Qed.

Lemma raft_starts_from_the_recovered_snapshot_witness :
  exists srv c r,
    fst (bootstrap (env_snapshot 100%N) cfg0 initial_world) = Ret (Some srv, None)
    /\ bootstrappedServer.cluster srv = Some c
    /\ bootstrapedCluster.raft c = Some r
    /\ exists rest, bootstrappedRaft.storage r = ApplySnapshot snapshot100 :: rest.
Proof.
  destruct (bootstrap (env_snapshot 100%N) cfg0 initial_world) as [[[[srv|] [e|]]|m|m] w1]
    eqn:E; try (vm_compute in E; discriminate E).
  assert (H : fst (bootstrap (env_snapshot 100%N) cfg0 initial_world)
              = Ret (Some srv, None)) by (rewrite E; reflexivity).
  destruct (@raft_starts_from_the_recovered_snapshot (env_snapshot 100%N) cfg0
              initial_world srv eq_refl H)
    as (storage & backend & c & bwal & r & _ & _ & Hc & _ & Hr & _ & _ & _ & _ & Hsn).
  exists srv, c, r. repeat split; try assumption.
  apply Hsn. reflexivity.
Defined.
